(** * knowledge-agent: the retrieval pipeline of [app/gradio_app.py]

    A shallow embedding of the chunker, the ingestion pipeline, the source
    listing, the clear operation, the answer composer and the UI entry
    points, followed by the properties proved about them.

    Conventions.
    - A Python [str] is a [string]: the bytes of its UTF-8 encoding.  The
      white space that [strip] removes is the white space of [str.isspace],
      each character as the bytes that encode it.  Python [int]s are [Z].
    - The tokenizer, the embedding service, the chat service, the similarity
      search of the vector store, the text extractors and the libraries
      that they read with are external: they are fields of the classes
      [Tokenizer], [Services] and [Parsers], and every theorem holds for
      all of them.
    - A raised exception is the [Raise] outcome of a computation in the
      monad [M]; the world carries the persisted collections and the log of
      calls made to the external services. *)

From Stdlib Require Import ZArith NArith List String Ascii Lia QArith.
From stdpp Require Import base option list strings gmap pretty sorting.

Local Open Scope string_scope.
Local Open Scope list_scope.
Local Open Scope Z_scope.

(** ** UTF-8 *)

Module Utf8.

(** The string of the given bytes. *)
Definition bytes (l : list N) : string := string_of_list_ascii (map ascii_of_N l).

(** The UTF-8 encoding of a code point. *)
Definition encode_char (cp : N) : string :=
  (if cp <? 0x80 then bytes [cp]
   else if cp <? 0x800 then bytes [0xC0 + cp / 0x40; 0x80 + cp mod 0x40]
   else if cp <? 0x10000
   then bytes [0xE0 + cp / 0x1000; 0x80 + (cp / 0x40) mod 0x40; 0x80 + cp mod 0x40]
   else bytes [0xF0 + cp / 0x40000; 0x80 + (cp / 0x1000) mod 0x40;
               0x80 + (cp / 0x40) mod 0x40; 0x80 + cp mod 0x40])%N.

(** U+FFFD, the replacement character, and its first byte. *)
Definition REPLACEMENT : string := Eval vm_compute in encode_char 0xFFFD.
Definition REPLACEMENT_HEAD : ascii := Eval vm_compute in ascii_of_N 0xEF.

(** What a byte is where a character starts: a character of its own, the
    first byte of a longer character (with the number of bytes that follow
    and the range of the next one), or no start of a character. *)
Inductive start :=
| Single
| Lead (more lo hi : N)
| Invalid.

Definition start_of (b : N) : start :=
  (if b <? 0x80 then Single
   else if b <? 0xC2 then Invalid
   else if b <? 0xE0 then Lead 1 0x80 0xBF
   else if b =? 0xE0 then Lead 2 0xA0 0xBF
   else if b =? 0xED then Lead 2 0x80 0x9F
   else if b <? 0xF0 then Lead 2 0x80 0xBF
   else if b =? 0xF0 then Lead 3 0x90 0xBF
   else if b <? 0xF4 then Lead 3 0x80 0xBF
   else if b =? 0xF4 then Lead 3 0x80 0x8F
   else Invalid)%N.

(** The decoder reads the bytes from the left.  [buf] holds the bytes of
    the character under way, [more] the number of bytes it still needs
    (0 when no character is under way) and [lo], [hi] the range of the
    next one.  A byte that cannot go on the character under way ends it:
    what was read of it becomes one U+FFFD and the byte is read again as
    the start of a character; so does the end of the input. *)
Fixpoint decode_go (s : string) (buf : string) (more : nat) (lo hi : N) : string :=
  match s with
  | EmptyString =>
      match more with
      | O => EmptyString
      | S _ => REPLACEMENT
      end
  | String c s' =>
      let b := N_of_ascii c in
      let fresh :=
        match start_of b with
        | Single => String c (decode_go s' EmptyString 0 0%N 0%N)
        | Lead m l h => decode_go s' (String c EmptyString) (N.to_nat m) l h
        | Invalid => REPLACEMENT +:+ decode_go s' EmptyString 0 0%N 0%N
        end in
      match more with
      | O => fresh
      | S k =>
          if ((lo <=? b) && (b <=? hi))%N
          then match k with
               | O => buf +:+ String c (decode_go s' EmptyString 0 0%N 0%N)
               | S _ => decode_go s' (buf +:+ String c EmptyString) k 0x80%N 0xBF%N
               end
          else REPLACEMENT +:+ fresh
      end
  end.

(** [data.decode("utf-8", errors="replace")]: the text of the bytes, with
    U+FFFD for every stretch of bytes that is no character. *)
Definition decode_replace (s : string) : string := decode_go s EmptyString 0 0%N 0%N.

End Utf8.

(** ** Python built-ins used by the program *)

Module Py.

(** The code points for which [str.isspace] holds: the white space that
    [str.strip] removes. *)
Definition SPACES : list N :=
  [0x09; 0x0A; 0x0B; 0x0C; 0x0D; 0x1C; 0x1D; 0x1E; 0x1F; 0x20; 0x85; 0xA0; 0x1680;
   0x2000; 0x2001; 0x2002; 0x2003; 0x2004; 0x2005; 0x2006; 0x2007; 0x2008; 0x2009;
   0x200A; 0x2028; 0x2029; 0x202F; 0x205F; 0x3000]%N.

(** The white-space characters, each as its bytes. *)
Definition WHITESPACE : list string := Eval vm_compute in map Utf8.encode_char SPACES.

(** The first character of the table that [s] begins with. *)
Definition leading (table : list string) (s : string) : option string :=
  List.find (fun p => String.prefix p s) table.

(** [s[n:]] *)
Fixpoint skip (n : nat) (s : string) : string :=
  match n, s with
  | S k, String _ s' => skip k s'
  | _, _ => s
  end.

(** The characters of the table are taken off the left end of [s], one
    after the other; [fuel] bounds their number. *)
Fixpoint lstrip_with (table : list string) (fuel : nat) (s : string) : string :=
  match fuel with
  | O => s
  | S k =>
      match leading table s with
      | Some p => lstrip_with table k (skip (String.length p) s)
      | None => s
      end
  end.

Definition lstrip_table (table : list string) (s : string) : string :=
  lstrip_with table (String.length s) s.

(** [s.lstrip()] *)
Definition lstrip (s : string) : string := lstrip_table WHITESPACE s.

(** [s.rstrip()]: the same from the right end, on the text and the
    characters read backwards. *)
Definition rstrip (s : string) : string :=
  String.rev (lstrip_table (map String.rev WHITESPACE) (String.rev s)).

(** [s.strip()] *)
Definition strip (s : string) : string := rstrip (lstrip s).

(** A text made of characters of the table, one after the other. *)
Inductive made_of (table : list string) : string -> Prop :=
| made_of_nil : made_of table ""
| made_of_cons p s : In p table -> made_of table s -> made_of table (p +:+ s).

(** Truth value of a string and of a list: non-empty. *)
Definition truthy (s : string) : bool :=
  match s with EmptyString => false | _ => true end.

Definition nonempty {A} (l : list A) : bool :=
  match l with [] => false | _ => true end.

(** [sep.join(parts)] *)
Fixpoint join (sep : string) (parts : list string) : string :=
  match parts with
  | [] => ""
  | [p] => p
  | p :: rest => p +:+ sep +:+ join sep rest
  end.

(** [len(l)] *)
Definition len {A} (l : list A) : Z := Z.of_nat (length l).

(** Index normalisation of a slice bound: a negative bound counts from the
    end, and every bound is clamped to [0, len]. *)
Definition clamp (i n : Z) : Z :=
  if i <? 0 then Z.max (i + n) 0 else Z.min i n.

(** [l[lo:hi]] *)
Definition slice {A} (l : list A) (lo hi : Z) : list A :=
  let n := len l in
  let lo' := clamp lo n in
  let hi' := clamp hi n in
  firstn (Z.to_nat (hi' - lo')) (skipn (Z.to_nat lo') l).

(** [range(start, stop, step)] for a positive step; the program only calls
    it with [step >= 1]. *)
Definition range (start stop step : Z) : list Z :=
  if 0 <? step
  then map (fun k : nat => start + Z.of_nat k * step)
           (seq 0 (Z.to_nat ((stop - start + step - 1) / step)))
  else [].

(** [enumerate(l, start=k)] *)
Fixpoint enumerate {A} (k : Z) (l : list A) : list (Z * A) :=
  match l with
  | [] => []
  | x :: r => (k, x) :: enumerate (k + 1) r
  end.

(** [zip(a, b)]: stops at the shorter list. *)
Fixpoint zip {A B} (a : list A) (b : list B) : list (A * B) :=
  match a, b with
  | x :: a', y :: b' => (x, y) :: zip a' b'
  | _, _ => []
  end.

(** [str(n)] for an integer. *)
Definition str_of_int (n : Z) : string := pretty n.

(** [s.lower()] on the ASCII letters. *)
Definition lower_char (c : ascii) : ascii :=
  let n := nat_of_ascii c in
  if ((65 <=? n)%nat && (n <=? 90)%nat) then ascii_of_nat (n + 32) else c.

Fixpoint lower (s : string) : string :=
  match s with
  | EmptyString => EmptyString
  | String c s' => String (lower_char c) (lower s')
  end.

(** [s.replace(".", "")] *)
Fixpoint remove_dots (s : string) : string :=
  match s with
  | EmptyString => EmptyString
  | String c s' =>
      if Ascii.eqb c "."%char then remove_dots s' else String c (remove_dots s')
  end.

End Py.

(** A text made of white space only (the empty text included). *)
Definition whitespace_only (s : string) : Prop := Py.made_of Py.WHITESPACE s.

(** A text that neither begins nor ends with a white-space character. *)
Definition trimmed (s : string) : Prop :=
  forall sp rest, In sp Py.WHITESPACE -> s <> sp +:+ rest /\ s <> rest +:+ sp.

(** A byte that occurs in no white-space character. *)
Definition outside_white_space (c : ascii) : bool :=
  forallb (fun sp => negb (existsb (Ascii.eqb c) (list_ascii_of_string sp)))
          Py.WHITESPACE.

(** No first byte of a character of the table is a later byte of one: a
    character of the table starts wherever its first byte stands. *)
Definition table_sync (table : list string) : bool :=
  forallb (fun p =>
    match p with
    | EmptyString => true
    | String c _ =>
        forallb (fun q =>
          match q with
          | EmptyString => true
          | String _ rest => negb (existsb (Ascii.eqb c) (list_ascii_of_string rest))
          end) table
    end) table.

(** What the proofs use of a table of characters: no entry is empty, none
    is the beginning of another one, and an entry of several bytes holds
    no ASCII byte. *)
Definition table_ok (table : list string) : bool :=
  forallb (fun p =>
    negb (String.eqb p "")
    && forallb (fun q => implb (String.prefix p q) (String.eqb p q)) table
    && ((String.length p =? 1)%nat
        || forallb (fun c => (128 <=? N_of_ascii c)%N) (list_ascii_of_string p)))
    table.

(** ** Module constants *)

Definition COLLECTION_NAME : string := "knowledge_agent".
Definition MAX_CHUNK_TOKENS : Z := 1000.
Definition CHUNK_OVERLAP_TOKENS : Z := 150.

(** ** The tokenizer ([tiktoken], encoding [cl100k_base])

    A byte-pair vocabulary: every token stands for a fixed piece of bytes,
    which may hold a part of a character only.  [encode] cuts a text into
    tokens; [decode] puts the pieces of the tokens it is given one after
    the other and decodes these bytes as UTF-8 with [errors="replace"]. *)

Class Tokenizer := {
  token : Type;
  (** [encoding.encode(text)] *)
  encode : string -> list token;
  (** [encoding.decode_single_token_bytes(token)]: the bytes of a token. *)
  token_piece : token -> string;
}.

Section Chunker.
Context `{Tokenizer}.

(** [encoding.decode_bytes(tokens)] *)
Definition decode_bytes (ts : list token) : string :=
  fold_right (fun t acc => token_piece t +:+ acc) "" ts.

(** [encoding.decode(tokens)] *)
Definition decode (ts : list token) : string :=
  Utf8.decode_replace (decode_bytes ts).

(** The body of the [for start in range(...)] loop, over the remaining
    start positions and the chunks appended so far. *)
Fixpoint split_loop (tokens : list token) (chunk_size : Z)
    (starts : list Z) (chunks : list string) : list string :=
  match starts with
  | [] => chunks
  | start :: rest =>
      let end_ := start + chunk_size in
      let chunk_tokens := Py.slice tokens start end_ in
      if negb (Py.nonempty chunk_tokens)
      then split_loop tokens chunk_size rest chunks            (* continue *)
      else
        let chunk_text := Py.strip (decode chunk_tokens) in
        let chunks' :=
          if Py.truthy chunk_text then chunks ++ [chunk_text] else chunks in
        if end_ >=? Py.len tokens
        then chunks'                                            (* break *)
        else split_loop tokens chunk_size rest chunks'
  end.

(** [split_text_by_tokens(text, chunk_size, overlap)] *)
Definition split_text_by_tokens
    (text : string) (chunk_size overlap : Z) : list string :=
  let tokens := encode text in
  let step := Z.max (chunk_size - overlap) 1 in
  split_loop tokens chunk_size (Py.range 0 (Py.len tokens) step) [].

(** A token that carries something else than white space: whatever bytes
    come before and after its piece, the whole is not a run of white-space
    characters.  (A token that holds a part of a white-space character, its
    first byte say, is not one of these: with the rest of the character
    after it, it decodes to white space.) *)
Definition non_whitespace (t : token) : Prop :=
  forall before after : string,
    ~ whitespace_only (before +:+ token_piece t +:+ after).

End Chunker.

(** ** Exceptions, records and the world *)

(** The exceptions the program raises itself, and those that come out of a
    library or a service.  All of them derive from [Exception]. *)
Inductive exn :=
| ValueError (msg : string)
| IndexError (msg : string)
| LibraryError (msg : string).

(** [str(exc)] *)
Definition exn_message (e : exn) : string :=
  match e with
  | ValueError msg | IndexError msg | LibraryError msg => msg
  end.

(** A metadata value: the program stores strings and integers. *)
Inductive meta_value :=
| MStr (s : string)
| MInt (n : Z).

(** An embedding vector; its floats are read as rationals. *)
Abbreviation vector := (list Q).

(** A stored record: (id, document, embedding, metadata).  The metadata of
    a record is a dict or [None]. *)
Record record := {
  rec_id : string;
  rec_document : string;
  rec_embedding : vector;
  rec_metadata : option (gmap string meta_value);
}.

(** A request sent outside of the process. *)
Inductive call :=
| EmbeddingsCreate (model : string) (input : list string)
| ChatCompletionsCreate (model : string) (system user : string) (temperature : Q)
| Extract (kind : string) (arg : string).

(** The persisted collections under [STORAGE_DIR], keyed by collection name,
    each in insertion order, and the requests sent so far. *)
Record world := {
  collections : gmap string (list record);
  calls : list call;
}.

Definition set_collections (f : gmap string (list record) -> gmap string (list record))
    (w : world) : world :=
  {| collections := f (collections w); calls := calls w |}.

Definition log_call (c : call) (w : world) : world :=
  {| collections := collections w; calls := calls w ++ [c] |}.

Definition empty_world : world := {| collections := ∅; calls := [] |}.

(** ** Computations: state and exceptions *)

Inductive outcome (A : Type) :=
| Return (a : A)
| Raise (e : exn).
Arguments Return {A} a.
Arguments Raise {A} e.

Definition M (A : Type) : Type := world -> outcome A * world.

#[global] Instance M_ret : MRet M := fun A a w => (Return a, w).

#[global] Instance M_bind : MBind M := fun A B f m w =>
  match m w with
  | (Return a, w') => f a w'
  | (Raise e, w') => (Raise e, w')
  end.

Definition raise {A} (e : exn) : M A := fun w => (Raise e, w).

(** [try: body / except Exception as exc: handler exc] *)
Definition try_except {A} (body : M A) (handler : exn -> M A) : M A := fun w =>
  match body w with
  | (Return a, w') => (Return a, w')
  | (Raise e, w') => handler e w'
  end.

Definition get_world : M world := fun w => (Return w, w).

Definition modify_world (f : world -> world) : M unit := fun w => (Return tt, f w).

(** The answer of a library or a service, passed on as a value or raised. *)
Definition lift_result {A} (r : exn + A) : M A :=
  match r with
  | inl e => raise e
  | inr a => mret a
  end.

(** ** External collaborators

    Every answer may depend on the requests sent before it, so that no
    service is assumed to answer the same request twice alike. *)

Class Services := {
  CHAT_MODEL : string;
  EMBEDDING_MODEL : string;
  (** [OpenAI()]: fails when no API key is configured. *)
  openai_new : exn + unit;
  (** [client.embeddings.create(model=, input=)], the embeddings of
      [response.data] in order. *)
  embeddings_create : list call -> string -> list string -> exn + list vector;
  (** [client.chat.completions.create(...)], the content of the first
      choice: a string or [None]. *)
  chat_completions_create :
    list call -> string -> string -> string -> Q -> exn + option string;
  (** The similarity search of the vector store: the records nearest to
      the query vector, best first. *)
  nearest : list record -> vector -> Z -> exn + list record;
  (** The text extractors of [app/loaders]. *)
  load_webpage_text : list call -> string -> exn + string;
  load_youtube_transcript : list call -> string -> exn + string;
  load_pdf_text : string -> exn + string;
  load_docx_text : string -> exn + string;
  (** [Path(p).read_bytes()], [Path(p).name], [Path(p).suffix] and
      [bytes.decode("utf-8", errors="ignore")]. *)
  read_bytes : list call -> string -> exn + string;
  path_name : string -> string;
  path_suffix : string -> string;
  decode_utf8_ignore : string -> string;
}.

(** ** The vector store ([chromadb])

    The store is a library outside of the repository.  Its operations are
    modelled after the contract of the vector index in the specification:
    a collection is created empty on first use, [count] and [get] read it,
    [query] returns what the similarity search finds, [add] appends. *)

Module Chroma.

(** [client.get_or_create_collection(name=)]: the handle is the name. *)
Definition get_or_create_collection (name : string) : M string := fun w =>
  match collections w !! name with
  | Some _ => (Return name, w)
  | None => (Return name, set_collections (insert name []) w)
  end.

(** [client.delete_collection(name=)]: raises when there is none. *)
Definition delete_collection (name : string) : M unit := fun w =>
  match collections w !! name with
  | Some _ => (Return tt, set_collections (delete name) w)
  | None => (Raise (ValueError ("Collection " +:+ name +:+ " does not exist.")), w)
  end.

(** The records under a name; none when there is no such collection. *)
Definition records (name : string) (w : world) : list record :=
  default [] (collections w !! name).

(** [collection.count()] *)
Definition count (name : string) : M Z := fun w =>
  (Return (Py.len (records name w)), w).

(** [collection.get(include=["metadatas"])["metadatas"]] *)
Definition get_metadatas (name : string)
    : M (list (option (gmap string meta_value))) := fun w =>
  (Return (map rec_metadata (records name w)), w).

(** One record is put into a collection: under an ID that is already
    there it takes the place of the stored record, otherwise it goes to
    the end. *)
Fixpoint put (r : record) (coll : list record) : list record :=
  match coll with
  | [] => [r]
  | r0 :: rest =>
      if String.eqb (rec_id r0) (rec_id r) then r :: rest else r0 :: put r rest
  end.

(** Every vector has the given width. *)
Definition same_width (width : nat) (vs : list vector) : bool :=
  forallb (fun v => Nat.eqb (length v) width) vs.

(** The vectors of a collection all have one width. *)
Definition widths_agree (vs : list vector) : bool :=
  match vs with
  | [] => true
  | v :: _ => same_width (length v) vs
  end.

(** The records made of the four parallel sequences. *)
Fixpoint build (ids documents : list string) (embeddings : list vector)
    (metadatas : list (gmap string meta_value)) : list record :=
  match ids, documents, embeddings, metadatas with
  | i :: ids', d :: documents', e :: embeddings', m :: metadatas' =>
      {| rec_id := i; rec_document := d; rec_embedding := e;
         rec_metadata := Some m |} :: build ids' documents' embeddings' metadatas'
  | _, _, _, _ => []
  end.

(** Modelled from the spec: [collection.add] of the vector store, which
    is not part of the repository.  The four sequences must have equal
    length and the IDs must differ from each other; the vectors must be
    as wide as the stored ones (DimensionMismatchError otherwise); the
    records are then put into the collection in order. *)
Definition add (name : string) (ids documents : list string)
    (embeddings : list vector) (metadatas : list (gmap string meta_value))
    : M unit := fun w =>
  let n := length ids in
  if negb (Nat.eqb (length documents) n && Nat.eqb (length embeddings) n
           && Nat.eqb (length metadatas) n)
  then (Raise (ValueError "Unequal lengths for ids, documents, embeddings and metadatas."), w)
  else if negb (bool_decide (NoDup ids))
  then (Raise (LibraryError "Expected IDs to be unique."), w)
  else if negb (widths_agree (map rec_embedding (records name w) ++ embeddings))
  then (Raise (LibraryError "Embedding dimension does not match collection dimensionality."), w)
  else
    let coll := fold_left (fun c r => put r c)
                  (build ids documents embeddings metadatas) (records name w) in
    (Return tt, set_collections (insert name coll) w).

(** [collection.query(query_embeddings=[q], n_results=, include=[...])]:
    the documents and the metadatas of the only query. *)
Definition query `{Services} (name : string) (q : vector) (n_results : Z)
    : M (list string * list (option (gmap string meta_value))) := fun w =>
  match nearest (records name w) q n_results with
  | inl e => (Raise e, w)
  | inr rs => (Return (map rec_document rs, map rec_metadata rs), w)
  end.

End Chroma.

(** ** The program *)

Section Program.
Context `{Tokenizer} `{Services}.

(** [get_openai_client()]: the client itself carries no data. *)
Definition get_openai_client : M unit := lift_result openai_new.

(** The f-string [knowledge_agent_{session_id}]. *)
Definition collection_name_of (session_id : string) : string :=
  "knowledge_agent_" +:+ session_id.

(** [get_chroma_collection(session_id)].  The directory of the store and
    its client (lines 40 and 41) are taken to be there: what the program
    does when creating them fails is not modelled. *)
Definition get_chroma_collection (session_id : string) : M string :=
  let collection_name := collection_name_of session_id in
  Chroma.get_or_create_collection collection_name.

(** [embed_texts(client, texts, model)] *)
Definition embed_texts (texts : list string) (model : string) : M (list vector) :=
  let text_list := texts in
  if negb (Py.nonempty text_list) then mret []
  else
    w ← get_world;
    modify_world (log_call (EmbeddingsCreate model text_list));;
    lift_result (embeddings_create (calls w) model text_list).

(** The comprehension [doc_{existing_count + idx}] for [idx] in [range(n)]. *)
Definition chunk_ids (existing_count : Z) (n : Z) : list string :=
  map (fun idx => "doc_" +:+ Py.str_of_int (existing_count + idx)) (Py.range 0 n 1).

(** The metadata dict of the chunk at position [idx]. *)
Definition chunk_metadata (source_name source_type : string) (idx : Z)
    : gmap string meta_value :=
  {[ "source" := MStr source_name;
     "source_type" := MStr source_type;
     "chunk_index" := MInt idx ]}.

(** [ingest_source_text(session_id, source_name, source_type, text)] *)
Definition ingest_source_text
    (session_id source_name source_type text : string) : M Z :=
  if negb (Py.truthy (Py.strip text))
  then raise (ValueError "Loaded content is empty and cannot be ingested.")
  else
    let chunks := split_text_by_tokens text MAX_CHUNK_TOKENS CHUNK_OVERLAP_TOKENS in
    if negb (Py.nonempty chunks)
    then raise (ValueError "No chunks were created from this source.")
    else
      get_openai_client;;
      embeddings ← embed_texts chunks EMBEDDING_MODEL;
      collection ← get_chroma_collection session_id;
      existing_count ← Chroma.count collection;
      let ids := chunk_ids existing_count (Py.len chunks) in
      let metadatas :=
        map (chunk_metadata source_name source_type) (Py.range 0 (Py.len chunks) 1) in
      Chroma.add collection ids chunks embeddings metadatas;;
      mret (Py.len chunks).

(** The text an f-string puts for [meta.get(key)]. *)
Definition format_value (v : option meta_value) : string :=
  match v with
  | None => "None"
  | Some (MStr s) => s
  | Some (MInt n) => Py.str_of_int n
  end.

(** The f-string [{meta.get('source')} ({meta.get('source_type')})]. *)
Definition source_label (meta : gmap string meta_value) : string :=
  format_value (meta !! "source") +:+ " (" +:+ format_value (meta !! "source_type") +:+ ")".

(** [sorted(labels)] on a set of strings. *)
Definition sorted (labels : gset string) : list string :=
  merge_sort String.le (elements labels).

(** [list_sources(session_id)] *)
Definition list_sources (session_id : string) : M (list string) :=
  collection ← get_chroma_collection session_id;
  n ← Chroma.count collection;
  if n =? 0 then mret []
  else
    metadatas ← Chroma.get_metadatas collection;
    let labels : gset string :=
      list_to_set (omap (fun meta => source_label <$> meta) metadatas) in
    mret (sorted labels).

(** [clear_database(session_id)], with the directory and the client of
    the store taken to be there, as in [get_chroma_collection]. *)
Definition clear_database (session_id : string) : M unit :=
  let collection_name := collection_name_of session_id in
  try_except (Chroma.delete_collection collection_name) (fun _ => mret tt);;
  Chroma.get_or_create_collection collection_name;;
  mret tt.

(** [meta.get(key, dflt) if isinstance(meta, dict) else dflt], as the
    f-string prints it. *)
Definition meta_field (meta : option (gmap string meta_value))
    (key dflt : string) : string :=
  match meta with
  | Some m => format_value (Some (default (MStr dflt) (m !! key)))
  | None => dflt
  end.

(** The f-string [[{idx}] {source} ({source_type})]. *)
Definition citation_label (idx : Z) (meta : option (gmap string meta_value)) : string :=
  let source := meta_field meta "source" "unknown source" in
  let source_type := meta_field meta "source_type" "unknown" in
  "[" +:+ Py.str_of_int idx +:+ "] " +:+ source +:+ " (" +:+ source_type +:+ ")".

(** The character [\n]. *)
Definition newline : string := String (ascii_of_nat 10) "".

(** The loop over [enumerate(zip(documents, metadatas), start=1)]: the
    context parts and the citations, both in the order of the loop. *)
Fixpoint build_context
    (items : list (Z * (string * option (gmap string meta_value))))
    (context_parts citations : list string) : list string * list string :=
  match items with
  | [] => (context_parts, citations)
  | (idx, (doc, meta)) :: rest =>
      let label := citation_label idx meta in
      build_context rest (context_parts ++ [label +:+ newline +:+ doc])
                    (citations ++ [label])
  end.

(** The user message: instructions, question and context. *)
Definition build_prompt (question context_text : string) : string :=
  "You are a helpful assistant answering from provided context only. "
  +:+ "If answer is missing, say you don't know. "
  +:+ "Include bracket citations like [1], [2]." +:+ newline +:+ newline
  +:+ ("Question:" +:+ newline +:+ question +:+ newline +:+ newline)
  +:+ ("Context:" +:+ newline +:+ context_text).

(** The system message. *)
Definition SYSTEM_PROMPT : string :=
  "Answer using only provided context and cite sources.".

(** [answer_question(session_id, question, top_k)]; the temperature 0.2
    is the rational 2/10. *)
Definition answer_question (session_id question : string) (top_k : Z)
    : M (string * string) :=
  collection ← get_chroma_collection session_id;
  n ← Chroma.count collection;
  if n =? 0 then raise (ValueError "No content has been ingested yet.")
  else
    get_openai_client;;
    embedded ← embed_texts [question] EMBEDDING_MODEL;
    match embedded with
    | [] => raise (IndexError "list index out of range")
    | query_embedding :: _ =>
        results ← Chroma.query collection query_embedding top_k;
        let documents := results.1 in
        let metadatas := results.2 in
        if negb (Py.nonempty documents)
        then mret ("I couldn't find relevant information in the current knowledge base.",
                   "No citations found.")
        else
          let '(context_parts, citations) :=
            build_context (Py.enumerate 1 (Py.zip documents metadatas)) [] [] in
          let context_text := Py.join (newline +:+ newline) context_parts in
          let prompt := build_prompt question context_text in
          w ← get_world;
          modify_world (log_call
            (ChatCompletionsCreate CHAT_MODEL SYSTEM_PROMPT prompt (2 # 10)));;
          content ← lift_result
            (chat_completions_create (calls w) CHAT_MODEL SYSTEM_PROMPT prompt (2 # 10));
          let answer :=
            match content with
            | Some c => if Py.truthy c then c else "No answer returned."
            | None => "No answer returned."
            end in
          let citation_text :=
            Py.join newline (map (fun item => "- " +:+ item) citations) in
          mret (answer, citation_text)
    end.

End Program.

(** ** The entry points wired to the interface *)

Section EntryPoints.
Context `{Tokenizer} `{Services}.

(** The join of [- {item}] lines. *)
Definition bullet_lines (items : list string) : string :=
  Py.join newline (map (fun item => "- " +:+ item) items).

(** [sources_markdown(session_id)] *)
Definition sources_markdown (session_id : string) : M string :=
  sources ← list_sources session_id;
  if negb (Py.nonempty sources) then mret "No sources ingested yet."
  else mret (bullet_lines sources).

(** The markers that open the status texts. *)
Definition OK_MARK : string := "✅".
Definition FAIL_MARK : string := "❌".

(** [ingest_website(session_id, url)] *)
Definition ingest_website (session_id url : string) : M (string * string) :=
  if negb (Py.truthy (Py.strip url))
  then md ← sources_markdown session_id; mret ("Please provide a website URL.", md)
  else
    try_except
      (w ← get_world;
       modify_world (log_call (Extract "web" url));;
       text ← lift_result (load_webpage_text (calls w) url);
       count ← ingest_source_text session_id url "web" text;
       md ← sources_markdown session_id;
       mret (OK_MARK +:+ " Ingested " +:+ Py.str_of_int count +:+ " chunks from website.", md))
      (fun exc =>
       md ← sources_markdown session_id;
       mret (FAIL_MARK +:+ " Website ingest failed: " +:+ exn_message exc, md)).

(** [ingest_youtube(session_id, url)] *)
Definition ingest_youtube (session_id url : string) : M (string * string) :=
  if negb (Py.truthy (Py.strip url))
  then md ← sources_markdown session_id; mret ("Please provide a YouTube URL.", md)
  else
    try_except
      (w ← get_world;
       modify_world (log_call (Extract "youtube" url));;
       text ← lift_result (load_youtube_transcript (calls w) url);
       count ← ingest_source_text session_id url "youtube" text;
       md ← sources_markdown session_id;
       mret (OK_MARK +:+ " Ingested " +:+ Py.str_of_int count
             +:+ " chunks from YouTube transcript.", md))
      (fun exc =>
       md ← sources_markdown session_id;
       mret (FAIL_MARK +:+ " YouTube ingest failed: " +:+ exn_message exc, md)).

(** [ingest_uploaded_file(session_id, file_obj)]; [file_obj] is [None] or
    the path of the uploaded file. *)
Definition ingest_uploaded_file (session_id : string) (file_obj : option string)
    : M (string * string) :=
  match file_obj with
  | None => md ← sources_markdown session_id; mret ("Please upload a file first.", md)
  | Some file_path =>
      try_except
        (w ← get_world;
         modify_world (log_call (Extract "file" file_path));;
         file_bytes ← lift_result (read_bytes (calls w) file_path);
         let suffix := Py.lower (path_suffix file_path) in
         text ←
           (if String.eqb suffix ".pdf" then lift_result (load_pdf_text file_bytes)
            else if String.eqb suffix ".docx" then lift_result (load_docx_text file_bytes)
            else if String.eqb suffix ".txt" then mret (decode_utf8_ignore file_bytes)
            else raise (ValueError "Unsupported file type. Use PDF, DOCX, or TXT."));
         count ← ingest_source_text session_id (path_name file_path)
                   (Py.remove_dots suffix) text;
         md ← sources_markdown session_id;
         mret (OK_MARK +:+ " Ingested " +:+ Py.str_of_int count +:+ " chunks from "
               +:+ path_name file_path +:+ ".", md))
        (fun exc =>
         md ← sources_markdown session_id;
         mret (FAIL_MARK +:+ " File ingest failed: " +:+ exn_message exc, md))
  end.

(** [clear_db_action(session_id)] *)
Definition clear_db_action (session_id : string) : M string :=
  try_except
    (clear_database session_id;; mret (OK_MARK +:+ " Database cleared."))
    (fun exc => mret (FAIL_MARK +:+ " Failed to clear database: " +:+ exn_message exc)).

(** [ask_question(session_id, question)]; [top_k] has its default 4. *)
Definition ask_question (session_id question : string) : M (string * string) :=
  if negb (Py.truthy (Py.strip question))
  then mret ("Please enter a question.", "")
  else
    try_except
      (answer_question session_id question 4)
      (fun exc =>
       mret (FAIL_MARK +:+ " Question answering failed: " +:+ exn_message exc, "")).

End EntryPoints.

(** ** A concrete tokenizer and concrete services

    One token per byte, a service that embeds every text as the same
    vector, a search that returns the first records, and a chat model that
    always gives the same answer.  They serve to run the program on concrete
    inputs. *)

Module Demo.

Definition char_tokenizer : Tokenizer :=
  {| token := ascii;
     encode := list_ascii_of_string;
     token_piece := fun c => String c "" |}.

Definition services : Services :=
  {| CHAT_MODEL := "gpt-4o-mini";
     EMBEDDING_MODEL := "text-embedding-3-small";
     openai_new := inr tt;
     embeddings_create := fun _ _ texts => inr (map (fun _ => [1%Q; 0%Q]) texts);
     chat_completions_create := fun _ _ _ _ _ => inr (Some "The sky is blue [1].");
     nearest := fun coll _ k => inr (take (Z.to_nat k) coll);
     load_webpage_text := fun _ _ => inr "Hello world";
     load_youtube_transcript := fun _ _ => inl (LibraryError "Transcripts are disabled.");
     load_pdf_text := fun _ => inr "pdf text";
     load_docx_text := fun _ => inr "docx text";
     read_bytes := fun _ _ => inr "file text";
     path_name := fun p => p;
     path_suffix := fun _ => ".txt";
     decode_utf8_ignore := fun b => b |}.

(** The same, with a search that finds nothing. *)
Definition services_no_hit : Services :=
  {| CHAT_MODEL := "gpt-4o-mini";
     EMBEDDING_MODEL := "text-embedding-3-small";
     openai_new := inr tt;
     embeddings_create := fun _ _ texts => inr (map (fun _ => [1%Q; 0%Q]) texts);
     chat_completions_create := fun _ _ _ _ _ => inr (Some "The sky is blue [1].");
     nearest := fun _ _ _ => inr [];
     load_webpage_text := fun _ _ => inr "Hello world";
     load_youtube_transcript := fun _ _ => inl (LibraryError "Transcripts are disabled.");
     load_pdf_text := fun _ => inr "pdf text";
     load_docx_text := fun _ => inr "docx text";
     read_bytes := fun _ _ => inr "file text";
     path_name := fun p => p;
     path_suffix := fun _ => ".txt";
     decode_utf8_ignore := fun b => b |}.

(** The outcome and the world after running a computation. *)
Definition run {A} (m : M A) (w : world) : outcome A * world := m w.

(** The scenario of the specification: one source [doc1] of type [txt]
    ingested into the session [s1] of an empty store. *)
Definition scenario_world : world :=
  (@ingest_source_text char_tokenizer services
     "s1" "doc1" "txt" "The sky is blue. Grass is green." empty_world).2.

End Demo.

(** ** Observations used in the statements *)

(** [collection.count()] of a session, read off the world. *)
Definition session_count (session_id : string) (w : world) : Z :=
  Py.len (Chroma.records (collection_name_of session_id) w).

(** The requests of a log that went to the embedding service and to the
    chat service. *)
Definition is_embedding_call (c : call) : bool :=
  match c with EmbeddingsCreate _ _ => true | _ => false end.

Definition is_chat_call (c : call) : bool :=
  match c with ChatCompletionsCreate _ _ _ _ => true | _ => false end.

(** The world after [get_or_create_collection]: a missing collection is
    created empty. *)
Definition ensure_collection (name : string) (w : world) : world :=
  match collections w !! name with
  | Some _ => w
  | None => set_collections (insert name []) w
  end.

(** The operations a session can perform, the pipeline functions and the
    entry points of the interface alike. *)
Inductive operation :=
| Ingest (source_name source_type text : string)
| ListSources
| Clear
| Answer (question : string) (top_k : Z)
| IngestWebsite (url : string)
| IngestYoutube (url : string)
| IngestUploadedFile (file_obj : option string)
| SourcesMarkdown
| ClearDbAction
| AskQuestion (question : string).

Section Operations.
Context `{Tokenizer} `{Services}.

(** The world after one operation of a session; what the operation returns
    or raises is dropped. *)
Definition perform (session_id : string) (op : operation) (w : world) : world :=
  match op with
  | Ingest source_name source_type text =>
      (ingest_source_text session_id source_name source_type text w).2
  | ListSources => (list_sources session_id w).2
  | Clear => (clear_database session_id w).2
  | Answer question top_k => (answer_question session_id question top_k w).2
  | IngestWebsite url => (ingest_website session_id url w).2
  | IngestYoutube url => (ingest_youtube session_id url w).2
  | IngestUploadedFile file_obj => (ingest_uploaded_file session_id file_obj w).2
  | SourcesMarkdown => (sources_markdown session_id w).2
  | ClearDbAction => (clear_db_action session_id w).2
  | AskQuestion question => (ask_question session_id question w).2
  end.

(** Operations performed one after the other, each given with its
    session. *)
Definition perform_all (ops : list (string * operation)) (w : world) : world :=
  fold_left (fun w' so => perform so.1 so.2 w') ops w.

End Operations.

(** ** Predicates on worlds and computations *)

(** Every run of [m] takes a world to one that is related to it by [P]. *)
Definition steps (P : relation world) {A} (m : M A) : Prop :=
  forall w, P w (m w).2.

(** Every collection other than [name] is the same in both worlds. *)
Definition unchanged_outside (name : string) : relation world := fun w w' =>
  forall other, other <> name -> collections w' !! other = collections w !! other.

(** The IDs of a collection are [doc_0], [doc_1], ... in insertion order:
    what ingestions that run one after the other leave behind. *)
Definition well_numbered (coll : list record) : Prop :=
  map rec_id coll = chunk_ids 0 (Py.len coll).

Definition all_numbered (w : world) : Prop :=
  forall name, well_numbered (Chroma.records name w).

Definition keeps_numbered : relation world := fun w w' =>
  all_numbered w -> all_numbered w'.

(** ** Values and markers seen by the interface *)

(** What can stand for the citations of an answer: the [str] that
    [answer_question] returns, or a [list] of labels. *)
Inductive py_value :=
| PyStr (s : string)
| PyList (items : list string).


(** ** More predicates on worlds *)

(** Every collection holds the same records in both worlds. *)
Definition same_records : relation world := fun w w' =>
  forall name, Chroma.records name w' = Chroma.records name w.

(** ** Services that differ in one answer *)

(** The services [S], but with another outcome of [OpenAI()]. *)
Definition with_openai (S : Services) (r : exn + unit) : Services :=
  {| CHAT_MODEL := @CHAT_MODEL S;
     EMBEDDING_MODEL := @EMBEDDING_MODEL S;
     openai_new := r;
     embeddings_create := @embeddings_create S;
     chat_completions_create := @chat_completions_create S;
     nearest := @nearest S;
     load_webpage_text := @load_webpage_text S;
     load_youtube_transcript := @load_youtube_transcript S;
     load_pdf_text := @load_pdf_text S;
     load_docx_text := @load_docx_text S;
     read_bytes := @read_bytes S;
     path_name := @path_name S;
     path_suffix := @path_suffix S;
     decode_utf8_ignore := @decode_utf8_ignore S |}.

(** The services [S], but with another embedding service. *)
Definition with_embeddings (S : Services)
    (f : list call -> string -> list string -> exn + list vector) : Services :=
  {| CHAT_MODEL := @CHAT_MODEL S;
     EMBEDDING_MODEL := @EMBEDDING_MODEL S;
     openai_new := @openai_new S;
     embeddings_create := f;
     chat_completions_create := @chat_completions_create S;
     nearest := @nearest S;
     load_webpage_text := @load_webpage_text S;
     load_youtube_transcript := @load_youtube_transcript S;
     load_pdf_text := @load_pdf_text S;
     load_docx_text := @load_docx_text S;
     read_bytes := @read_bytes S;
     path_name := @path_name S;
     path_suffix := @path_suffix S;
     decode_utf8_ignore := @decode_utf8_ignore S |}.

(** The services [S], but with another suffix of the uploaded paths. *)
Definition with_suffix (S : Services) (suffix : string) : Services :=
  {| CHAT_MODEL := @CHAT_MODEL S;
     EMBEDDING_MODEL := @EMBEDDING_MODEL S;
     openai_new := @openai_new S;
     embeddings_create := @embeddings_create S;
     chat_completions_create := @chat_completions_create S;
     nearest := @nearest S;
     load_webpage_text := @load_webpage_text S;
     load_youtube_transcript := @load_youtube_transcript S;
     load_pdf_text := @load_pdf_text S;
     load_docx_text := @load_docx_text S;
     read_bytes := @read_bytes S;
     path_name := @path_name S;
     path_suffix := fun _ => suffix;
     decode_utf8_ignore := @decode_utf8_ignore S |}.

(** ** Invariants of the stored records *)

(** In a numbered world nothing is lost: the next world is numbered too,
    and every collection begins with the records it held. *)
Definition only_appends : relation world := fun w w' =>
  all_numbered w ->
  all_numbered w' /\
  forall name, Chroma.records name w `prefix_of` Chroma.records name w'.

(** An operation that empties the collection of its session. *)
Definition is_clear (op : operation) : bool :=
  match op with
  | Clear | ClearDbAction => true
  | _ => false
  end.

(** An operation that the interface offers. *)
Definition is_ui_operation (op : operation) : bool :=
  match op with
  | IngestWebsite _ | IngestYoutube _ | IngestUploadedFile _
  | SourcesMarkdown | ClearDbAction | AskQuestion _ => true
  | _ => false
  end.

(** The metadata of the record is the dict that an ingestion builds, with
    a source type that [ok] accepts. *)
Definition described_by (ok : string -> Prop) (r : record) : Prop :=
  exists source_name source_type idx,
    rec_metadata r = Some (chunk_metadata source_name source_type idx) /\
    ok source_type /\ 0 <= idx.

Definition all_described (ok : string -> Prop) (w : world) : Prop :=
  forall name r, In r (Chroma.records name w) -> described_by ok r.

Definition keeps_described (ok : string -> Prop) : relation world := fun w w' =>
  all_described ok w -> all_described ok w'.

(** The source types that the interface gives to what it ingests. *)
Definition SOURCE_TYPES : list string := ["web"; "youtube"; "pdf"; "docx"; "txt"].

(** ** The text extractors ([app/loaders])

    What the libraries give (the paragraphs of a DOCX file, the pages of a
    PDF file, the visible text of a web page, the parts of a URL, the items
    of a transcript) comes from the class [Parsers]; what the loaders do
    with it is modelled here. *)

Module PyText.

(** [s.lstrip(c)] for one character [c]. *)
Fixpoint lstrip_char (c : ascii) (s : string) : string :=
  match s with
  | EmptyString => EmptyString
  | String x s' => if Ascii.eqb x c then lstrip_char c s' else s
  end.

(** [s.split(sep)] for a separator that is not empty: the text is read
    from the left; [skip] characters of a separator that was just found are
    still to be passed over, [cur] holds the piece under way, reversed. *)
Fixpoint split_go (sep : string) (s : string) (skip : nat) (cur : string)
    : list string :=
  match s with
  | EmptyString => [String.rev cur]
  | String c s' =>
      match skip with
      | S k => split_go sep s' k cur
      | O =>
          if String.prefix sep s
          then String.rev cur :: split_go sep s' (String.length sep - 1) EmptyString
          else split_go sep s' 0 (String c cur)
      end
  end.

Definition split (sep s : string) : list string := split_go sep s 0 EmptyString.

(** [l[-1]] and [l[0]] of a list of strings that is not empty. *)
Definition last_item (l : list string) : string := List.last l EmptyString.
Definition first_item (l : list string) : string := List.hd EmptyString l.

(** The line boundaries of [str.splitlines]: line feed, carriage return
    (with a line feed after it, or alone), vertical tab, form feed, the
    three separators, and in UTF-8 the next-line character and the line and
    paragraph separators.  [boundary s] is the number of characters of the
    boundary that [s] begins with, or 0. *)
Definition boundary (s : string) : nat :=
  match s with
  | String c rest =>
      let n := nat_of_ascii c in
      if (n =? 13)%nat
      then match rest with
           | String d _ => if (nat_of_ascii d =? 10)%nat then 2%nat else 1%nat
           | EmptyString => 1%nat
           end
      else if ((n =? 10) || (n =? 11) || (n =? 12) || (n =? 28) || (n =? 29) || (n =? 30))%nat
      then 1%nat
      else if (n =? 194)%nat
      then match rest with
           | String d _ => if (nat_of_ascii d =? 133)%nat then 2%nat else 0%nat
           | EmptyString => 0%nat
           end
      else if (n =? 226)%nat
      then match rest with
           | String d (String e _) =>
               if ((nat_of_ascii d =? 128)
                   && ((nat_of_ascii e =? 168) || (nat_of_ascii e =? 169)))%nat
               then 3%nat else 0%nat
           | _ => 0%nat
           end
      else 0%nat
  | EmptyString => 0%nat
  end.

Fixpoint splitlines_go (s : string) (skip : nat) (cur : string) : list string :=
  match s with
  | EmptyString =>
      match cur with
      | EmptyString => []
      | _ => [String.rev cur]
      end
  | String c s' =>
      match skip with
      | S k => splitlines_go s' k cur
      | O =>
          match boundary s with
          | O => splitlines_go s' 0 (String c cur)
          | S k => String.rev cur :: splitlines_go s' k EmptyString
          end
      end
  end.

(** [s.splitlines()] *)
Definition splitlines (s : string) : list string := splitlines_go s 0 EmptyString.

(** A character of the class [[a-zA-Z0-9_-]]. *)
Definition is_id_char (c : ascii) : bool :=
  let n := nat_of_ascii c in
  ((97 <=? n) && (n <=? 122) || (65 <=? n) && (n <=? 90)
   || (48 <=? n) && (n <=? 57) || (n =? 95) || (n =? 45))%nat.

(** The first [k] characters of [s] when all of them are of the class. *)
Fixpoint id_run (k : nat) (s : string) : option string :=
  match k with
  | O => Some EmptyString
  | S k' =>
      match s with
      | String c s' =>
          if is_id_char c
          then match id_run k' s' with
               | Some r => Some (String c r)
               | None => None
               end
          else None
      | EmptyString => None
      end
  end.

(** [re.search(r"([a-zA-Z0-9_-]{11})", s)]: the leftmost match. *)
Fixpoint search_id (s : string) : option string :=
  match id_run 11 s with
  | Some m => Some m
  | None =>
      match s with
      | String _ s' => search_id s'
      | EmptyString => None
      end
  end.

End PyText.

(** [urlparse(url)]: the parts that the loader reads. *)
Record parsed_url := {
  url_hostname : option string;
  url_path : string;
  url_query : string;
}.

Class Parsers := {
  (** [[p.text for p in Document(BytesIO(file_bytes)).paragraphs]] *)
  docx_paragraphs : string -> exn + list string;
  (** [[page.extract_text() for page in PdfReader(BytesIO(file_bytes)).pages]];
      a page may give [None]. *)
  pdf_pages : string -> exn + list (option string);
  (** The request, [raise_for_status], the parse, the removal of the
      script, style and noscript tags and [soup.get_text(separator="\n")]. *)
  page_visible_text : list call -> string -> Z -> exn + string;
  (** [urlparse(url)] and [parse_qs(query)]. *)
  urlparse : string -> exn + parsed_url;
  parse_qs : string -> gmap string (list string);
  (** [YouTubeTranscriptApi.get_transcript(video_id)]; of every item,
      [item.get("text")]. *)
  get_transcript : list call -> string -> exn + list (option string);
}.

Module Loaders.
Section Loaders.
Context `{Parsers}.

(** The comprehension that three loaders share: the parts that are not
    blank, stripped, one on each line. *)
Definition join_stripped (parts : list string) : string :=
  Py.join newline
    (map Py.strip (List.filter (fun part => Py.truthy (Py.strip part)) parts)).

(** [load_docx_text(file_bytes)] *)
Definition load_docx_text (file_bytes : string) : exn + string :=
  match docx_paragraphs file_bytes with
  | inl e => inl e
  | inr texts => inr (join_stripped texts)
  end.

(** [page.extract_text() or ""] *)
Definition text_or_empty (t : option string) : string :=
  match t with
  | Some s => s
  | None => ""
  end.

(** [load_pdf_text(file_bytes)] *)
Definition load_pdf_text (file_bytes : string) : exn + string :=
  match pdf_pages file_bytes with
  | inl e => inl e
  | inr extracted =>
      let pages := map text_or_empty extracted in
      inr (join_stripped pages)
  end.

(** [load_webpage_text(url, timeout)] *)
Definition load_webpage_text (history : list call) (url : string) (timeout : Z)
    : exn + string :=
  match page_visible_text history url timeout with
  | inl e => inl e
  | inr text =>
      let cleaned_lines :=
        map Py.strip
          (List.filter (fun line => Py.truthy (Py.strip line)) (PyText.splitlines text)) in
      inr (Py.join newline cleaned_lines)
  end.

Definition YOUTUBE_HOSTS : list string :=
  ["www.youtube.com"; "youtube.com"; "m.youtube.com"].

(** [parsed.hostname in {...}] *)
Definition host_in (hostname : option string) (hosts : list string) : bool :=
  match hostname with
  | Some h => existsb (String.eqb h) hosts
  | None => false
  end.

Definition NO_VIDEO_ID : string :=
  "Could not find a YouTube video ID in the provided URL.".

(** [_extract_video_id(url)] *)
Definition _extract_video_id (url : string) : exn + string :=
  match urlparse url with
  | inl e => inl e
  | inr parsed =>
      if host_in (url_hostname parsed) ["youtu.be"]
      then inr (PyText.lstrip_char "/" (url_path parsed))
      else
        let watched :=
          if host_in (url_hostname parsed) YOUTUBE_HOSTS
             && String.eqb (url_path parsed) "/watch"
          then match parse_qs (url_query parsed) !! "v" with
               | Some (v :: _) => Some v
               | _ => None
               end
          else None in
        match watched with
        | Some v => inr v
        | None =>
            if host_in (url_hostname parsed) YOUTUBE_HOSTS
               && String.prefix "/shorts/" (url_path parsed)
            then inr (PyText.first_item
                        (PyText.split "/"
                           (PyText.last_item (PyText.split "/shorts/" (url_path parsed)))))
            else
              match PyText.search_id url with
              | Some m => inr m
              | None => inl (ValueError NO_VIDEO_ID)
              end
        end
  end.

(** The items whose text is there and not empty. *)
Definition kept_texts (items : list (option string)) : list string :=
  omap (fun t => match t with
                 | Some s => if Py.truthy s then Some s else None
                 | None => None
                 end) items.

(** [load_youtube_transcript(url)] *)
Definition load_youtube_transcript (history : list call) (url : string)
    : exn + string :=
  match _extract_video_id url with
  | inl e => inl e
  | inr video_id =>
      match get_transcript history video_id with
      | inl e => inl e
      | inr transcript_items =>
          inr (Py.join newline (map Py.strip (kept_texts transcript_items)))
      end
  end.

End Loaders.
End Loaders.

(** Concrete answers of the libraries, to run the loaders. *)
Definition demo_parsers : Parsers :=
  {| docx_paragraphs := fun _ => inr ["  Title "; "   "; "Body"];
     pdf_pages := fun _ => inr [Some " page one "; None; Some ""];
     page_visible_text := fun _ _ _ =>
       inr ("Head" +:+ String (ascii_of_nat 13) newline +:+ newline
            +:+ "  line two  " +:+ newline);
     urlparse := fun url =>
       if String.eqb url "https://www.youtube.com/shorts/abc123/extra"
       then inr {| url_hostname := Some "www.youtube.com";
                   url_path := "/shorts/abc123/extra"; url_query := "" |}
       else if String.eqb url "https://youtu.be//dQw4w9WgXcQ"
       then inr {| url_hostname := Some "youtu.be";
                   url_path := "//dQw4w9WgXcQ"; url_query := "" |}
       else inr {| url_hostname := None; url_path := url; url_query := "" |};
     parse_qs := fun _ => ∅;
     get_transcript := fun _ _ => inr [Some " hello "; None; Some ""; Some "  "; Some "world"] |}.

(** * Properties *)

(** ** Strings, slices and the chunker loop *)

#[local] Arguments String.append : simpl nomatch.

Lemma app_empty_r (s : string) : s +:+ "" = s.
Proof. induction s as [|c s IH]; simpl; [done | by rewrite IH]. Qed.

Lemma app_assoc_str (a b c : string) : (a +:+ b) +:+ c = a +:+ (b +:+ c).
Proof. induction a as [|x a IH]; simpl; [done | by rewrite IH]. Qed.

Lemma app_nonempty_r (a b : string) : b <> "" -> a +:+ b <> "".
Proof. destruct a; simpl; [auto | discriminate]. Qed.

Lemma app_length_str (a b : string) :
  String.length (a +:+ b) = (String.length a + String.length b)%nat.
Proof. induction a as [|x a IH]; simpl; [done | by rewrite IH]. Qed.

Lemma app_inv_head_str (a b c : string) : a +:+ b = a +:+ c -> b = c.
Proof. induction a as [|x a IH]; simpl; [done|]. intros E. injection E as E. auto. Qed.

Lemma app_nil_inv (a b : string) : a +:+ b = "" -> a = "" /\ b = "".
Proof. destruct a; simpl; [done | discriminate]. Qed.

Lemma prefix_app_iff (p s : string) :
  String.prefix p s = true <-> exists r, s = p +:+ r.
Proof.
  revert s. induction p as [|a p IH]; intros s.
  - split; [|by destruct s]. intros _. by exists s.
  - destruct s as [|b s]; simpl.
    + split; [done|]. by intros [r Hr].
    + destruct (ascii_dec a b) as [->|Hne].
      * rewrite IH. split; intros [r Hr]; exists r; [by rewrite Hr | by injection Hr].
      * split; [done|]. intros [r Hr]. by injection Hr as -> _.
Qed.

(** Two beginnings of one text: one is a beginning of the other. *)
Lemma app_eq_app_str (a b c d : string) :
  a +:+ b = c +:+ d ->
  (exists r, a = c +:+ r /\ d = r +:+ b) \/ (exists r, r <> "" /\ c = a +:+ r /\ b = r +:+ d).
Proof.
  revert c. induction a as [|x a IH]; intros c; simpl.
  - intros ->. destruct c as [|y c].
    + left. by exists "".
    + right. by exists (String y c).
  - destruct c as [|y c]; simpl.
    + intros <-. left. by exists (String x a).
    + intros E. injection E as -> E. destruct (IH c E) as [(r & -> & ->)|(r & Hr & -> & ->)].
      * left. by exists r.
      * right. by exists r.
Qed.

Lemma rev_app_spec (s acc : string) : String.rev_app s acc = String.rev s +:+ acc.
Proof.
  unfold String.rev. revert acc. induction s as [|c s IH]; intros acc; simpl; [done|].
  rewrite IH, (IH (String c "")), app_assoc_str. done.
Qed.

Lemma rev_cons (c : ascii) (s : string) : String.rev (String c s) = String.rev s +:+ String c "".
Proof. unfold String.rev at 1. simpl. apply rev_app_spec. Qed.

Lemma rev_app_str (a b : string) : String.rev (a +:+ b) = String.rev b +:+ String.rev a.
Proof.
  induction a as [|c a IH]; simpl.
  - by rewrite app_empty_r.
  - by rewrite !rev_cons, IH, app_assoc_str.
Qed.

Lemma rev_involutive_str (s : string) : String.rev (String.rev s) = s.
Proof.
  induction s as [|c s IH]; [done|]. by rewrite rev_cons, rev_app_str, IH.
Qed.

Lemma rev_length_str (s : string) : String.length (String.rev s) = String.length s.
Proof.
  induction s as [|c s IH]; [done|]. rewrite rev_cons, app_length_str, IH. simpl. lia.
Qed.

Lemma rev_nil_inv (s : string) : String.rev s = "" -> s = "".
Proof. intros E. rewrite <- (rev_involutive_str s), E. done. Qed.

Lemma skip_app (p r : string) : Py.skip (String.length p) (p +:+ r) = r.
Proof. induction p as [|c p IH]; simpl; [by destruct r | done]. Qed.

Lemma made_of_app (table : list string) (a b : string) :
  Py.made_of table a -> Py.made_of table b -> Py.made_of table (a +:+ b).
Proof.
  induction 1 as [|p s Hp Hs IH]; intros Hb; [done|].
  rewrite app_assoc_str. constructor; auto.
Qed.

Lemma made_of_one (table : list string) (p : string) : In p table -> Py.made_of table p.
Proof. intros Hp. rewrite <- (app_empty_r p). by repeat constructor. Qed.

Lemma made_of_rev (table : list string) (s : string) :
  Py.made_of (map String.rev table) s -> Py.made_of table (String.rev s).
Proof.
  induction 1 as [|p s Hp Hs IH]; [constructor|].
  apply in_map_iff in Hp as (q & <- & Hq).
  rewrite rev_app_str, rev_involutive_str. apply made_of_app; [done|]. by apply made_of_one.
Qed.

Lemma made_of_rev' (table : list string) (s : string) :
  Py.made_of table s -> Py.made_of (map String.rev table) (String.rev s).
Proof.
  induction 1 as [|p s Hp Hs IH]; [constructor|].
  rewrite rev_app_str. apply made_of_app; [done|]. apply made_of_one.
  by apply in_map.
Qed.

(** *** Taking the characters of a table off the left end

    The table has no empty entry and no entry that is the beginning of
    another one: the white-space characters and the same read backwards
    are two such tables. *)

Section Table.
Variable table : list string.
Hypothesis table_nonempty : Forall (fun p => p <> "") table.
Hypothesis table_prefix_free :
  forall p q, In p table -> In q table -> String.prefix p q = true -> p = q.

Lemma leading_Some (s p : string) :
  Py.leading table s = Some p -> In p table /\ exists r, s = p +:+ r.
Proof.
  unfold Py.leading. intros Hfind. apply find_some in Hfind as [Hin Hp].
  split; [done|]. by apply prefix_app_iff.
Qed.

Lemma leading_None (s : string) :
  Py.leading table s = None -> forall p r, In p table -> s <> p +:+ r.
Proof.
  unfold Py.leading. intros Hfind p r Hp ->.
  pose proof (find_none _ _ Hfind p Hp) as Hpre. simpl in Hpre.
  assert (String.prefix p (p +:+ r) = true) as E by (apply prefix_app_iff; by exists r).
  by rewrite E in Hpre.
Qed.

Lemma leading_None_intro (s : string) :
  (forall p r, In p table -> s <> p +:+ r) -> Py.leading table s = None.
Proof.
  intros Hs. destruct (Py.leading table s) as [p|] eqn:E; [|done].
  apply leading_Some in E as (Hp & r & ->). by destruct (Hs p r Hp).
Qed.

Lemma leading_app (p r : string) : In p table -> Py.leading table (p +:+ r) = Some p.
Proof.
  intros Hp. destruct (Py.leading table (p +:+ r)) as [q|] eqn:E.
  - apply leading_Some in E as (Hq & r' & Hr'). f_equal.
    destruct (app_eq_app_str _ _ _ _ Hr') as [(x & -> & _)|(x & _ & -> & _)].
    + apply table_prefix_free; [done..|]. apply prefix_app_iff. by exists x.
    + symmetry. apply table_prefix_free; [done..|]. apply prefix_app_iff. by exists x.
  - by destruct (leading_None _ E p r Hp).
Qed.

Lemma entry_nonempty (p : string) : In p table -> p <> "".
Proof. intros Hp. by apply (proj1 (List.Forall_forall _ _) table_nonempty). Qed.

Lemma lstrip_with_enough (n m : nat) (s : string) :
  (String.length s <= n)%nat -> (String.length s <= m)%nat ->
  Py.lstrip_with table n s = Py.lstrip_with table m s.
Proof.
  revert m s. induction n as [|n IH]; intros m s Hn Hm.
  - destruct s; [|simpl in Hn; lia]. destruct m; simpl; [done|].
    destruct (Py.leading table "") as [p|] eqn:E; [|done].
    apply leading_Some in E as (Hp & r & Hr). symmetry in Hr.
    apply app_nil_inv in Hr as [-> _]. destruct (entry_nonempty "" Hp eq_refl).
  - destruct m as [|m].
    + destruct s; [|simpl in Hm; lia]. simpl.
      destruct (Py.leading table "") as [p|] eqn:E; [|done].
      apply leading_Some in E as (Hp & r & Hr). symmetry in Hr.
      apply app_nil_inv in Hr as [-> _]. destruct (entry_nonempty "" Hp eq_refl).
    + simpl. destruct (Py.leading table s) as [p|] eqn:E; [|done].
      apply leading_Some in E as (Hp & r & ->). rewrite skip_app.
      pose proof (entry_nonempty p Hp) as Hne.
      rewrite app_length_str in Hn, Hm.
      assert (String.length p <> 0)%nat by (destruct p; [done | simpl; lia]).
      apply IH; lia.
Qed.

Lemma lstrip_table_entry (p r : string) :
  In p table -> Py.lstrip_table table (p +:+ r) = Py.lstrip_table table r.
Proof.
  intros Hp. unfold Py.lstrip_table.
  pose proof (entry_nonempty p Hp) as Hne.
  assert (String.length p <> 0)%nat by (destruct p; [done | simpl; lia]).
  rewrite app_length_str.
  destruct (String.length p + String.length r)%nat as [|n] eqn:En; [lia|].
  simpl. rewrite (leading_app p r Hp), skip_app. apply lstrip_with_enough; lia.
Qed.

Lemma lstrip_table_stop (s : string) : Py.leading table s = None -> Py.lstrip_table table s = s.
Proof.
  intros E. unfold Py.lstrip_table. destruct (String.length s); simpl; [done|]. by rewrite E.
Qed.

Lemma lstrip_table_made_of (a r : string) :
  Py.made_of table a -> Py.lstrip_table table (a +:+ r) = Py.lstrip_table table r.
Proof.
  induction 1 as [|p s Hp Hs IH]; [done|].
  by rewrite app_assoc_str, lstrip_table_entry.
Qed.

Lemma lstrip_table_split (s : string) :
  exists ws,
    Py.made_of table ws /\ s = ws +:+ Py.lstrip_table table s /\
    Py.leading table (Py.lstrip_table table s) = None.
Proof.
  remember (String.length s) as n eqn:En.
  revert s En. induction n as [n IH] using lt_wf_ind. intros s ->.
  destruct (Py.leading table s) as [p|] eqn:E.
  - apply leading_Some in E as (Hp & r & ->).
    pose proof (entry_nonempty p Hp) as Hne.
    assert (String.length p <> 0)%nat by (destruct p; [done | simpl; lia]).
    destruct (IH (String.length r)) with (s := r) as (ws & Hws & Hr & Hstop).
    { rewrite app_length_str. lia. }
    { done. }
    exists (p +:+ ws). rewrite lstrip_table_entry by done. split; [by constructor|].
    split; [|done]. by rewrite app_assoc_str, <- Hr.
  - exists "". rewrite lstrip_table_stop by done. split; [constructor|]. by split.
Qed.

Lemma lstrip_table_idemp (s : string) :
  Py.lstrip_table table (Py.lstrip_table table s) = Py.lstrip_table table s.
Proof.
  destruct (lstrip_table_split s) as (ws & _ & _ & Hstop). by apply lstrip_table_stop.
Qed.

Lemma lstrip_table_nil_iff (s : string) : Py.lstrip_table table s = "" <-> Py.made_of table s.
Proof.
  split.
  - intros E. destruct (lstrip_table_split s) as (ws & Hws & Hs & _).
    rewrite E, app_empty_r in Hs. by subst.
  - intros Hs. rewrite <- (app_empty_r s), lstrip_table_made_of by done.
    unfold Py.lstrip_table. reflexivity.
Qed.

End Table.

(** *** The tables of the white space *)

Lemma table_ok_nonempty (table : list string) :
  table_ok table = true -> Forall (fun p => p <> "") table.
Proof.
  unfold table_ok. rewrite forallb_forall. intros Hok.
  apply List.Forall_forall. intros p Hp ->. specialize (Hok "" Hp). done.
Qed.

Lemma table_ok_nonempty_in (table : list string) (p : string) :
  table_ok table = true -> In p table -> p <> "".
Proof.
  intros Hok Hp. by apply (proj1 (List.Forall_forall _ _) (table_ok_nonempty _ Hok)).
Qed.

Lemma table_ok_prefix_free (table : list string) :
  table_ok table = true ->
  forall p q, In p table -> In q table -> String.prefix p q = true -> p = q.
Proof.
  unfold table_ok. rewrite forallb_forall. intros Hok p q Hp Hq Hpre.
  specialize (Hok p Hp). apply andb_prop in Hok as [Hok _].
  apply andb_prop in Hok as [_ Hok]. rewrite forallb_forall in Hok.
  specialize (Hok q Hq). rewrite Hpre in Hok. by apply String.eqb_eq.
Qed.

Lemma table_ok_high (table : list string) :
  table_ok table = true ->
  forall p a c b, In p table -> p = a +:+ String c b -> (a <> "" \/ b <> "") ->
    (128 <= N_of_ascii c)%N.
Proof.
  unfold table_ok. rewrite forallb_forall. intros Hok p a c b Hp -> Hlong.
  specialize (Hok _ Hp). apply andb_prop in Hok as [_ Hok].
  apply orb_prop in Hok as [Hone|Hall].
  - apply Nat.eqb_eq in Hone. rewrite app_length_str in Hone. simpl in Hone.
    destruct Hlong as [Ha|Hb].
    + destruct a; [done | simpl in Hone; lia].
    + destruct b; [done | simpl in Hone; lia].
  - rewrite forallb_forall in Hall. apply N.leb_le, Hall.
    clear. induction a as [|x a IH]; simpl; [by left | by right].
Qed.

Lemma WHITESPACE_ok : table_ok Py.WHITESPACE = true.
Proof. vm_compute. reflexivity. Qed.

Lemma WHITESPACE_rev_ok : table_ok (map String.rev Py.WHITESPACE) = true.
Proof. vm_compute. reflexivity. Qed.

(** *** [lstrip], [rstrip] and [strip] *)

Lemma lstrip_eq (s : string) :
  Py.lstrip s = Py.lstrip_table Py.WHITESPACE s.
Proof. reflexivity. Qed.

Lemma rstrip_eq (s : string) :
  Py.rstrip s = String.rev (Py.lstrip_table (map String.rev Py.WHITESPACE) (String.rev s)).
Proof. reflexivity. Qed.

Lemma lstrip_split (s : string) :
  exists ws,
    whitespace_only ws /\ s = ws +:+ Py.lstrip s /\
    forall sp r, In sp Py.WHITESPACE -> Py.lstrip s <> sp +:+ r.
Proof.
  destruct (lstrip_table_split Py.WHITESPACE (table_ok_nonempty _ WHITESPACE_ok)
              (table_ok_prefix_free _ WHITESPACE_ok) s) as (ws & Hws & Hs & Hstop).
  exists ws. split; [done|]. split; [done|]. by apply leading_None.
Qed.

Lemma rstrip_split (s : string) :
  exists ws,
    whitespace_only ws /\ s = Py.rstrip s +:+ ws /\
    forall sp r, In sp Py.WHITESPACE -> Py.rstrip s <> r +:+ sp.
Proof.
  destruct (lstrip_table_split _ (table_ok_nonempty _ WHITESPACE_rev_ok)
              (table_ok_prefix_free _ WHITESPACE_rev_ok) (String.rev s))
    as (ws & Hws & Hs & Hstop).
  exists (String.rev ws). split; [by apply made_of_rev|]. split.
  - rewrite rstrip_eq, <- rev_app_str, <- Hs. by rewrite rev_involutive_str.
  - intros sp r Hsp E. rewrite rstrip_eq in E.
    apply (f_equal String.rev) in E. rewrite rev_involutive_str, rev_app_str in E.
    apply (leading_None _ _ Hstop (String.rev sp) (String.rev r)); [|done].
    by apply in_map.
Qed.

Lemma lstrip_stop (s : string) :
  (forall sp r, In sp Py.WHITESPACE -> s <> sp +:+ r) -> Py.lstrip s = s.
Proof.
  intros Hs. rewrite lstrip_eq. apply lstrip_table_stop.
  by apply leading_None_intro.
Qed.

Lemma rstrip_stop (s : string) :
  (forall sp r, In sp Py.WHITESPACE -> s <> r +:+ sp) -> Py.rstrip s = s.
Proof.
  intros Hs. rewrite rstrip_eq, lstrip_table_stop; [apply rev_involutive_str|].
  apply leading_None_intro.
  intros p r Hp E. apply in_map_iff in Hp as (sp & <- & Hsp).
  apply (Hs sp (String.rev r) Hsp). apply (f_equal String.rev) in E.
  by rewrite rev_involutive_str, rev_app_str, rev_involutive_str in E.
Qed.

Lemma lstrip_whitespace_only (s : string) : whitespace_only s <-> Py.lstrip s = "".
Proof.
  rewrite lstrip_eq. symmetry. apply lstrip_table_nil_iff.
  - apply table_ok_nonempty, WHITESPACE_ok.
  - apply table_ok_prefix_free, WHITESPACE_ok.
Qed.

Lemma rstrip_whitespace_only (s : string) : whitespace_only s <-> Py.rstrip s = "".
Proof.
  rewrite rstrip_eq. split.
  - intros Hs. apply made_of_rev' in Hs.
    apply (lstrip_table_nil_iff _ (table_ok_nonempty _ WHITESPACE_rev_ok)
             (table_ok_prefix_free _ WHITESPACE_rev_ok)) in Hs. by rewrite Hs.
  - intros E. apply rev_nil_inv in E.
    apply (lstrip_table_nil_iff _ (table_ok_nonempty _ WHITESPACE_rev_ok)
             (table_ok_prefix_free _ WHITESPACE_rev_ok)) in E.
    apply made_of_rev in E. by rewrite rev_involutive_str in E.
Qed.

(** [strip] takes a run of white space off each end, and what it leaves
    neither begins nor ends with a white-space character. *)
Lemma strip_split (s : string) :
  exists before after,
    whitespace_only before /\ whitespace_only after /\
    s = before +:+ Py.strip s +:+ after.
Proof.
  destruct (lstrip_split s) as (before & Hb & Hs & _).
  destruct (rstrip_split (Py.lstrip s)) as (after & Ha & Hl & _).
  exists before, after. split; [done|]. split; [done|].
  unfold Py.strip. by rewrite <- Hl.
Qed.

Lemma strip_trimmed (s : string) : trimmed (Py.strip s).
Proof.
  destruct (lstrip_split s) as (before & _ & _ & Hleft).
  destruct (rstrip_split (Py.lstrip s)) as (after & _ & Hl & Hright).
  intros sp rest Hsp. split; [|by apply Hright].
  unfold Py.strip. intros E. apply (Hleft sp (rest +:+ after) Hsp).
  by rewrite Hl, E, app_assoc_str.
Qed.

Lemma trimmed_strip (s : string) : trimmed s -> Py.strip s = s.
Proof.
  intros Hs. unfold Py.strip. rewrite lstrip_stop.
  - apply rstrip_stop. intros sp r Hsp. apply (proj2 (Hs sp r Hsp)).
  - intros sp r Hsp. apply (proj1 (Hs sp r Hsp)).
Qed.

Lemma strip_idemp (s : string) : Py.strip (Py.strip s) = Py.strip s.
Proof. apply trimmed_strip, strip_trimmed. Qed.

Lemma strip_whitespace_only (s : string) : whitespace_only s <-> Py.strip s = "".
Proof.
  split.
  - intros Hs. unfold Py.strip. apply lstrip_whitespace_only in Hs. by rewrite Hs.
  - intros E. destruct (strip_split s) as (before & after & Hb & Ha & Hs).
    rewrite E in Hs. rewrite Hs. apply made_of_app; [done|]. done.
Qed.

Lemma whitespace_only_trimmed (s : string) : whitespace_only s -> trimmed s -> s = "".
Proof.
  intros Hs Ht. apply strip_whitespace_only in Hs. by rewrite trimmed_strip in Hs.
Qed.

(** A run of white space that holds an ASCII character falls apart at it. *)
Lemma made_of_split_ascii (table : list string) (a b : string) (c : ascii) :
  table_ok table = true -> (N_of_ascii c < 128)%N ->
  Py.made_of table (a +:+ String c b) ->
  Py.made_of table a /\ Py.made_of table (String c b).
Proof.
  intros Hok Hc Hs. remember (a +:+ String c b) as x eqn:Ex.
  revert a Ex. induction Hs as [|p s Hp Hs IH]; intros a Ex.
  - by destruct a.
  - symmetry in Ex. destruct (app_eq_app_str _ _ _ _ Ex) as [(r & -> & ->)|(r & Hr & -> & Er)].
    + destruct (IH r eq_refl) as [Hr Hcb]. split; [by constructor | done].
    + destruct r as [|x r]; [done|]. simpl in Er. injection Er as <- ->.
      destruct a as [|y a].
      * split; [constructor|]. simpl in Hp.
        change (String c (r +:+ s)) with (String c r +:+ s). by constructor.
      * assert (String y a <> "") as Hya by done.
        pose proof (table_ok_high _ Hok _ _ _ _ Hp eq_refl (or_introl Hya)). lia.
Qed.

Lemma whitespace_only_split_ascii (a b : string) (c : ascii) :
  (N_of_ascii c < 128)%N -> whitespace_only (a +:+ String c b) ->
  whitespace_only a /\ whitespace_only (String c b).
Proof. apply made_of_split_ascii, WHITESPACE_ok. Qed.

Lemma no_prefix_across (a b : string) (c : ascii) :
  (N_of_ascii c < 128)%N -> a <> "" ->
  (forall sp r, In sp Py.WHITESPACE -> a <> sp +:+ r) ->
  forall sp r, In sp Py.WHITESPACE -> a +:+ String c b <> sp +:+ r.
Proof.
  intros Hc Ha Hno sp r Hsp E.
  destruct (app_eq_app_str _ _ _ _ E) as [(x & -> & _)|(x & Hx & -> & Ex)].
  - by apply (Hno sp x).
  - destruct x as [|y x]; [done|]. simpl in Ex. injection Ex as <- _.
    pose proof (table_ok_high _ WHITESPACE_ok _ _ _ _ Hsp eq_refl (or_introl Ha)). lia.
Qed.

Lemma no_suffix_across (a b : string) (c : ascii) :
  (N_of_ascii c < 128)%N -> b <> "" ->
  (forall sp r, In sp Py.WHITESPACE -> b <> r +:+ sp) ->
  forall sp r, In sp Py.WHITESPACE -> a +:+ String c b <> r +:+ sp.
Proof.
  intros Hc Hb Hno sp r Hsp E.
  destruct (app_eq_app_str _ _ _ _ E) as [(x & -> & Ex)|(x & Hx & -> & Ex)].
  - pose proof (table_ok_high _ WHITESPACE_ok _ _ _ _ Hsp Ex (or_intror Hb)). lia.
  - destruct x as [|y x]; [done|]. simpl in Ex. injection Ex as <- ->.
    by apply (Hno sp x).
Qed.

(** ** The lossy decoding *)

Lemma start_of_lead (b m l h : N) : Utf8.start_of b = Utf8.Lead m l h -> N.to_nat m <> 0%nat.
Proof.
  unfold Utf8.start_of. repeat case_match; try discriminate; intros [= <- <- <-]; done.
Qed.

Lemma In_chars_app (a b : string) (c : ascii) :
  In c (list_ascii_of_string (a +:+ b))
  <-> In c (list_ascii_of_string a) \/ In c (list_ascii_of_string b).
Proof. induction a as [|x a IH]; simpl; [tauto|]. rewrite IH. tauto. Qed.

(** When no byte of the decoded text is the first byte of U+FFFD, nothing
    was replaced: the decoded text is the given one. *)
Lemma decode_go_clean (s buf : string) (more : nat) (lo hi : N) :
  ~ In Utf8.REPLACEMENT_HEAD (list_ascii_of_string (Utf8.decode_go s buf more lo hi)) ->
  Utf8.decode_go s buf more lo hi
  = match more with O => "" | S _ => buf end +:+ s.
Proof.
  revert buf more lo hi. induction s as [|c s IH]; intros buf more lo hi Hno.
  - simpl in *. destruct more; [done|]. destruct Hno. by left.
  - cbn [Utf8.decode_go] in *. cbv zeta in *.
    set (fresh := match Utf8.start_of (N_of_ascii c) with
                  | Utf8.Single => _ | Utf8.Lead m l h => _ | Utf8.Invalid => _ end) in *.
    assert (~ In Utf8.REPLACEMENT_HEAD (list_ascii_of_string fresh) -> fresh = String c s) as Hfresh.
    { unfold fresh. destruct (Utf8.start_of (N_of_ascii c)) as [|m l h|] eqn:Es.
      - intros Hn. simpl in Hn. rewrite IH; [done|]. tauto.
      - intros Hn. rewrite IH by done.
        pose proof (start_of_lead _ _ _ _ Es). by destruct (N.to_nat m).
      - intros Hn. destruct Hn. apply In_chars_app. left. by left. }
    destruct more as [|k]; [by apply Hfresh|].
    destruct ((lo <=? N_of_ascii c)%N && (N_of_ascii c <=? hi)%N).
    + destruct k as [|k].
      * rewrite In_chars_app in Hno. simpl in Hno. rewrite IH by tauto. done.
      * rewrite IH by done. by rewrite app_assoc_str.
    + destruct Hno. apply In_chars_app. left. by left.
Qed.

Lemma decode_replace_clean (s : string) :
  ~ In Utf8.REPLACEMENT_HEAD (list_ascii_of_string (Utf8.decode_replace s)) -> Utf8.decode_replace s = s.
Proof. apply decode_go_clean. Qed.

Lemma whitespace_only_bytes (s : string) (c : ascii) :
  whitespace_only s -> In c (list_ascii_of_string s) ->
  exists sp, In sp Py.WHITESPACE /\ In c (list_ascii_of_string sp).
Proof.
  induction 1 as [|p s Hp Hs IH]; [done|]. rewrite In_chars_app.
  intros [Hc|Hc]; [by exists p | by apply IH].
Qed.

Lemma whitespace_only_inside (s : string) (c : ascii) :
  whitespace_only s -> In c (list_ascii_of_string s) -> outside_white_space c = false.
Proof.
  intros Hs Hc. destruct (whitespace_only_bytes s c Hs Hc) as (sp & Hsp & Hin).
  destruct (outside_white_space c) eqn:E; [|done].
  unfold outside_white_space in E. rewrite forallb_forall in E. specialize (E sp Hsp).
  apply negb_true_iff in E.
  assert (existsb (Ascii.eqb c) (list_ascii_of_string sp) = true) as E'.
  { apply existsb_exists. exists c. split; [done|]. apply Ascii.eqb_refl. }
  by rewrite E' in E.
Qed.

(** White space is well-formed: decoding leaves it as it is. *)
Lemma decode_replace_whitespace (s : string) :
  whitespace_only s -> Utf8.decode_replace s = s.
Proof.
  induction 1 as [|p s Hp Hs IH]; [done|].
  rewrite <- IH at 2. clear IH Hs. unfold Utf8.decode_replace.
  simpl in Hp. repeat (destruct Hp as [<-|Hp]; [reflexivity|]). done.
Qed.

(** The text that decodes to white space only is that white space. *)
Lemma decode_replace_blank (s : string) :
  Py.strip (Utf8.decode_replace s) = "" -> whitespace_only s.
Proof.
  intros E. apply strip_whitespace_only in E.
  rewrite decode_replace_clean in E; [done|].
  intros Hin. pose proof (whitespace_only_inside _ _ E Hin) as Hout. done.
Qed.

Section SliceFacts.
Context {A : Type}.
Implicit Types l : list A.

Lemma slice_window l (start size : Z) :
  0 <= start < Py.len l -> 0 < size ->
  Py.slice l start (start + size)
  = take (Z.to_nat (Z.min (start + size) (Py.len l) - start)) (drop (Z.to_nat start) l).
Proof.
  intros Hs Hz. unfold Py.slice, Py.clamp.
  destruct (Z.ltb_spec start 0); [lia|].
  destruct (Z.ltb_spec (start + size) 0); [lia|].
  by rewrite (Z.min_l start) by lia.
Qed.

Lemma slice_window_lookup l (start size : Z) (i : nat) :
  0 <= start <= Z.of_nat i -> Z.of_nat i < start + size -> Z.of_nat i < Py.len l ->
  Py.slice l start (start + size) !! (i - Z.to_nat start)%nat = l !! i.
Proof.
  intros Hs Hi Hl. rewrite slice_window by lia.
  rewrite lookup_take_lt by lia. rewrite lookup_drop. f_equal. lia.
Qed.

End SliceFacts.

Section ChunkerFacts.
Context `{Tokenizer}.

Lemma decode_bytes_app (a b : list token) :
  decode_bytes (a ++ b) = decode_bytes a +:+ decode_bytes b.
Proof.
  induction a as [|t a IH]; simpl; [done|].
  by rewrite IH, app_assoc_str.
Qed.

Lemma decode_bytes_middle (w : list token) (j : nat) (t : token) :
  w !! j = Some t ->
  decode_bytes w
  = decode_bytes (take j w) +:+ token_piece t +:+ decode_bytes (drop (S j) w).
Proof.
  intros Hj. rewrite <- (take_drop_middle w j t Hj) at 1.
  by rewrite decode_bytes_app.
Qed.

(** A token that holds a byte of no white-space character is not white
    space. *)
Lemma non_whitespace_byte (t : token) (c : ascii) :
  In c (list_ascii_of_string (token_piece t)) -> outside_white_space c = true ->
  non_whitespace t.
Proof.
  intros Hc Hout before after Hws.
  assert (outside_white_space c = false) as E; [|by rewrite E in Hout].
  apply (whitespace_only_inside _ c Hws).
  apply In_chars_app. right. apply In_chars_app. by left.
Qed.

(** A token is not white space exactly when no bytes around its piece
    make a text that decodes to white space only. *)
Lemma non_whitespace_decode (t : token) :
  non_whitespace t
  <-> forall before after : string,
        Py.strip (Utf8.decode_replace (before +:+ token_piece t +:+ after)) <> "".
Proof.
  split.
  - intros Ht before after E. apply decode_replace_blank in E. by apply Ht in E.
  - intros Ht before after Hws. apply (Ht before after).
    rewrite decode_replace_whitespace by done. by apply strip_whitespace_only.
Qed.

(** The tokens around a token that is not white space do not make the
    text they decode to blank. *)
Lemma decode_non_whitespace (w : list token) (j : nat) (t : token) :
  w !! j = Some t -> non_whitespace t -> Py.strip (decode w) <> "".
Proof.
  intros Hj Ht E. unfold decode in E. apply decode_replace_blank in E.
  rewrite (decode_bytes_middle w j t Hj) in E. by apply Ht in E.
Qed.

Lemma split_loop_cons tokens chunk_size start rest chunks :
  split_loop tokens chunk_size (start :: rest) chunks
  = let window := Py.slice tokens start (start + chunk_size) in
    let text := Py.strip (decode window) in
    let chunks' := if Py.truthy text then chunks ++ [text] else chunks in
    if negb (Py.nonempty window) then split_loop tokens chunk_size rest chunks
    else if start + chunk_size >=? Py.len tokens then chunks'
    else split_loop tokens chunk_size rest chunks'.
Proof. reflexivity. Qed.

Lemma split_loop_keeps tokens chunk_size starts chunks c :
  In c chunks -> In c (split_loop tokens chunk_size starts chunks).
Proof.
  revert chunks. induction starts as [|s starts IH]; intros chunks Hc; [done|].
  rewrite split_loop_cons. cbv zeta.
  set (text := Py.strip _).
  assert (In c (if Py.truthy text then chunks ++ [text] else chunks)) as Hc'.
  { destruct (Py.truthy text); [apply in_or_app; by left | done]. }
  destruct (negb _); [by apply IH|].
  destruct (_ >=? _); [done | by apply IH].
Qed.

(** A window is emitted when the loop reaches it before it breaks, and
    its text is not blank. *)
Lemma split_loop_emits tokens chunk_size before start after chunks :
  Forall (fun s => s + chunk_size < Py.len tokens) before ->
  Py.slice tokens start (start + chunk_size) <> [] ->
  Py.strip (decode (Py.slice tokens start (start + chunk_size))) <> "" ->
  In (Py.strip (decode (Py.slice tokens start (start + chunk_size))))
     (split_loop tokens chunk_size (before ++ start :: after) chunks).
Proof.
  intros Hbefore Hne Htext. revert chunks.
  induction Hbefore as [|s before Hs Hbefore IH]; intros chunks.
  - rewrite app_nil_l, split_loop_cons. cbv zeta.
    set (window := Py.slice _ _ _) in *. set (text := Py.strip _) in *.
    destruct window; [done|]. destruct text eqn:Et; [done|]. simpl negb. cbv iota.
    simpl Py.truthy. cbv iota.
    destruct (_ >=? _).
    + apply in_or_app. right. by left.
    + apply split_loop_keeps. apply in_or_app. right. by left.
  - rewrite <- app_comm_cons, split_loop_cons. cbv zeta.
    destruct (negb _); [by apply IH|].
    destruct (Z.geb_spec (s + chunk_size) (Py.len tokens)); [lia|]. apply IH.
Qed.

Lemma range_split (n step : Z) (k : nat) :
  0 < step -> Z.of_nat k * step < n ->
  exists after,
    Py.range 0 n step
    = map (fun j : nat => 0 + Z.of_nat j * step) (seq 0 k)
      ++ (Z.of_nat k * step) :: after.
Proof.
  intros Hstep Hk. unfold Py.range.
  destruct (Z.ltb_spec 0 step); [|lia].
  set (cnt := Z.to_nat ((n - 0 + step - 1) / step)).
  assert (Z.of_nat k + 1 <= (n - 0 + step - 1) / step) as Hdiv.
  { apply Z.div_le_lower_bound; [done | nia]. }
  assert (k < cnt)%nat as Hlt by (unfold cnt; lia).
  replace cnt with (k + S (cnt - S k))%nat by lia.
  rewrite seq_app, map_app. simpl. eexists. do 2 f_equal.
Qed.

End ChunkerFacts.

Section ChunkerCoverage.
Context `{Tokenizer}.

(** Every token lies in a window that the loop reaches before its
    break; the text of the window is emitted unless it is empty. *)
Lemma covers_token text chunk_size overlap (i : nat) (t : token) :
  0 < chunk_size -> 0 <= overlap < chunk_size ->
  encode text !! i = Some t ->
  exists start,
    0 <= start <= Z.of_nat i /\ Z.of_nat i < start + chunk_size /\
    Py.slice (encode text) start (start + chunk_size) !! (i - Z.to_nat start)%nat = Some t /\
    (Py.strip (decode (Py.slice (encode text) start (start + chunk_size))) <> "" ->
     In (Py.strip (decode (Py.slice (encode text) start (start + chunk_size))))
        (split_text_by_tokens text chunk_size overlap)).
Proof.
  intros Hcs Hov Hi. unfold split_text_by_tokens.
  set (tokens := encode text) in *.
  assert (Z.of_nat i < Py.len tokens) as Hlen.
  { apply lookup_lt_Some in Hi. unfold Py.len. lia. }
  rewrite (Z.max_l (chunk_size - overlap) 1) by lia.
  set (step := chunk_size - overlap).
  assert (0 < step <= chunk_size) as Hstep by (unfold step; lia).
  set (q := (Z.of_nat i - chunk_size) / step).
  pose proof (Z.mul_div_le (Z.of_nat i - chunk_size) step ltac:(lia)) as Hq1.
  pose proof (Z.mul_succ_div_gt (Z.of_nat i - chunk_size) step ltac:(lia)) as Hq2.
  fold q in Hq1, Hq2.
  set (k := if Z.of_nat i <? chunk_size then 0%nat else Z.to_nat (q + 1)).
  assert (0 <= Z.of_nat k * step <= Z.of_nat i /\ Z.of_nat i < Z.of_nat k * step + chunk_size
          /\ forall j : nat, (j < k)%nat -> Z.of_nat j * step + chunk_size < Py.len tokens)
    as (Hk1 & Hk2 & Hk3).
  { unfold k. destruct (Z.ltb_spec (Z.of_nat i) chunk_size) as [Hlt|Hge].
    - split; [lia|]. split; [lia|]. intros j Hj. lia.
    - assert (0 <= q) by (apply Z.div_pos; lia).
      rewrite Z2Nat.id by lia. split; [nia|]. split; [nia|].
      intros j Hj. assert (Z.of_nat j <= q) by lia. nia. }
  destruct (range_split (Py.len tokens) step k) as [after Hrange]; [lia | lia |].
  exists (Z.of_nat k * step).
  set (start := Z.of_nat k * step) in *.
  set (window := Py.slice tokens start (start + chunk_size)).
  assert (window !! (i - Z.to_nat start)%nat = Some t) as Hw.
  { unfold window. rewrite slice_window_lookup by lia. done. }
  split; [lia|]. split; [lia|]. split; [done|]. intros Hstrip.
  rewrite Hrange. apply split_loop_emits.
  - apply List.Forall_forall. intros s Hs. apply in_map_iff in Hs as (j & <- & Hj).
    apply in_seq in Hj. rewrite Z.add_0_l. apply Hk3. lia.
  - fold window. intros E. by rewrite E in Hw.
  - done.
Qed.

End ChunkerCoverage.

Section ChunkerTheorem.
Context `{Tokenizer}.

(** Claim C1 (chunker coverage).  Let [0 < chunk_size] and
    [0 <= overlap < chunk_size].  Every token of [text] lies in a window
    [tokens[start : start + chunk_size]] that the loop reaches; the decoded
    and stripped text of the window is one of the emitted chunks unless it
    is empty, and it is not empty when the token is not white space.  So
    every token that is not white space lies in the window of an emitted
    chunk, and when the tokenization has such a token,
    [split_text_by_tokens] emits at least one chunk. *)
Theorem split_text_by_tokens_covers (text : string) (chunk_size overlap : Z) :
  0 < chunk_size -> 0 <= overlap < chunk_size ->
  (exists t, In t (encode text) /\ non_whitespace t) ->
  let tokens := encode text in
  let chunks := split_text_by_tokens text chunk_size overlap in
  1 <= Py.len chunks /\
  (forall (i : nat) (t : token),
     tokens !! i = Some t ->
     exists start,
       let window := Py.slice tokens start (start + chunk_size) in
       0 <= start <= Z.of_nat i /\ Z.of_nat i < start + chunk_size /\
       window !! (i - Z.to_nat start)%nat = Some t /\
       (Py.strip (decode window) <> "" -> In (Py.strip (decode window)) chunks) /\
       (non_whitespace t -> Py.strip (decode window) <> "")) /\
  (forall (i : nat) (t : token),
     tokens !! i = Some t -> non_whitespace t ->
     exists start,
       let window := Py.slice tokens start (start + chunk_size) in
       0 <= start <= Z.of_nat i /\ Z.of_nat i < start + chunk_size /\
       window !! (i - Z.to_nat start)%nat = Some t /\
       Py.strip (decode window) <> "" /\
       In (Py.strip (decode window)) chunks).
Proof.
  intros Hcs Hov (t0 & Hin & Hnw). cbv zeta.
  assert (forall (i : nat) (t : token),
            encode text !! i = Some t -> non_whitespace t ->
            exists start,
              0 <= start <= Z.of_nat i /\ Z.of_nat i < start + chunk_size /\
              Py.slice (encode text) start (start + chunk_size) !! (i - Z.to_nat start)%nat
              = Some t /\
              Py.strip (decode (Py.slice (encode text) start (start + chunk_size))) <> "" /\
              In (Py.strip (decode (Py.slice (encode text) start (start + chunk_size))))
                 (split_text_by_tokens text chunk_size overlap)) as Hcovered.
  { intros i t Hi Ht.
    destruct (covers_token text chunk_size overlap i t Hcs Hov Hi)
      as (start & H1 & H2 & Hw & Hemit).
    pose proof (decode_non_whitespace _ _ t Hw Ht) as Hne.
    exists start. repeat split; auto; lia. }
  split; [|split].
  - apply list_elem_of_In, list_elem_of_lookup in Hin as [i Hi].
    destruct (Hcovered i t0 Hi Hnw) as (start & _ & _ & _ & _ & Hemit).
    destruct (split_text_by_tokens text chunk_size overlap); [done|].
    unfold Py.len. simpl. lia.
  - intros i t Hi.
    destruct (covers_token text chunk_size overlap i t Hcs Hov Hi)
      as (start & H1 & H2 & Hw & Hemit).
    exists start. split; [done|]. split; [done|]. split; [done|]. split; [done|].
    intros Ht. by apply (decode_non_whitespace _ _ t Hw).
  - done.
Qed.
End ChunkerTheorem.

Lemma split_text_by_tokens_covers_witness :
  1 <= Py.len (@split_text_by_tokens Demo.char_tokenizer "ab cd" 3 1).
Proof.
  refine (proj1 (@split_text_by_tokens_covers Demo.char_tokenizer "ab cd" 3 1 _ _ _)).
  - lia.
  - lia.
  - exists "a"%char. split; [simpl; auto|].
    apply (@non_whitespace_byte Demo.char_tokenizer "a"%char "a"%char).
    + left. reflexivity.
    + reflexivity.
Defined.

(** ** Running computations *)

Lemma bind_run {A B} (m : M A) (f : A -> M B) (w : world) :
  (m ≫= f) w
  = match m w with
    | (Return a, w') => f a w'
    | (Raise e, w') => (Raise e, w')
    end.
Proof. reflexivity. Qed.

Lemma get_or_create_collection_run (name : string) (w : world) :
  Chroma.get_or_create_collection name w = (Return name, ensure_collection name w).
Proof.
  unfold Chroma.get_or_create_collection, ensure_collection.
  by destruct (collections w !! name).
Qed.

Lemma get_chroma_collection_run (session_id : string) (w : world) :
  get_chroma_collection session_id w
  = (Return (collection_name_of session_id),
     ensure_collection (collection_name_of session_id) w).
Proof. apply get_or_create_collection_run. Qed.

Lemma records_ensure (name name' : string) (w : world) :
  Chroma.records name' (ensure_collection name w) = Chroma.records name' w.
Proof.
  unfold ensure_collection, Chroma.records.
  destruct (collections w !! name) eqn:E; [done|]. simpl.
  destruct (decide (name = name')) as [<-|Hne].
  - by rewrite lookup_insert_eq, E.
  - by rewrite lookup_insert_ne.
Qed.

Lemma calls_ensure (name : string) (w : world) :
  calls (ensure_collection name w) = calls w.
Proof. unfold ensure_collection. by destruct (collections w !! name). Qed.

Lemma ensure_existing (name : string) (w : world) :
  Chroma.records name w <> [] -> ensure_collection name w = w.
Proof.
  unfold ensure_collection, Chroma.records.
  by destruct (collections w !! name).
Qed.

Lemma count_run (name : string) (w : world) :
  Chroma.count name w = (Return (Py.len (Chroma.records name w)), w).
Proof. reflexivity. Qed.

Lemma lift_result_run {A} (r : exn + A) (w : world) :
  lift_result r w = (match r with inl e => Raise e | inr a => Return a end, w).
Proof. by destruct r. Qed.

Section ServiceRuns.
Context `{Services}.

Lemma get_openai_client_run (w : world) :
  get_openai_client w
  = (match openai_new with inl e => Raise e | inr u => Return u end, w).
Proof. apply lift_result_run. Qed.

Lemma embed_texts_run (texts : list string) (model : string) (w : world) :
  texts <> [] ->
  embed_texts texts model w
  = (match embeddings_create (calls w) model texts with
     | inl e => Raise e
     | inr vs => Return vs
     end, log_call (EmbeddingsCreate model texts) w).
Proof.
  intros Hne. unfold embed_texts. destruct texts as [|t texts]; [done|].
  cbn [Py.nonempty negb]. rewrite bind_run. cbn [get_world].
  unfold mbind. rewrite bind_run. cbn [modify_world].
  apply lift_result_run.
Qed.

Lemma query_run (name : string) (q : vector) (n_results : Z) (w : world) :
  Chroma.query name q n_results w
  = (match nearest (Chroma.records name w) q n_results with
     | inl e => Raise e
     | inr rs => Return (map rec_document rs, map rec_metadata rs)
     end, w).
Proof. unfold Chroma.query. by destruct (nearest _ _ _). Qed.

End ServiceRuns.

Lemma records_log_call (name : string) (c : call) (w : world) :
  Chroma.records name (log_call c w) = Chroma.records name w.
Proof. reflexivity. Qed.

Lemma len_zero_nil {A} (l : list A) : Py.len l = 0 <-> l = [].
Proof. unfold Py.len. destruct l; simpl; split; intros; (done || lia). Qed.

(** ** Degenerate inputs of the pipeline *)

Section DegenerateInputs.
Context `{Tokenizer} `{Services}.

(** Claim C5 (ingestion of a blank text).  For every session and every
    text that is empty or made of white space only, [ingest_source_text]
    raises the [ValueError] of an empty input and leaves the world as it
    was: no request was sent to the embedding service, and the [count()]
    of every session is the one before the call. *)
Theorem ingest_blank_text_fails
    (session_id source_name source_type text : string) (w : world) :
  whitespace_only text ->
  exists w',
    ingest_source_text session_id source_name source_type text w
    = (Raise (ValueError "Loaded content is empty and cannot be ingested."), w') /\
    w' = w /\
    filter is_embedding_call (calls w') = filter is_embedding_call (calls w) /\
    forall s, session_count s w' = session_count s w.
Proof.
  intros Hblank. exists w. unfold ingest_source_text.
  by rewrite (proj1 (strip_whitespace_only text) Hblank).
Qed.

(** Claim C6 (asking before ingesting).  For every session whose index has
    [count() == 0], [answer_question] raises the [ValueError] of an empty
    knowledge base; no request was sent to the embedding service or to the
    chat service, and the index is still empty. *)
Theorem answer_question_empty_index
    (session_id question : string) (top_k : Z) (w : world) :
  session_count session_id w = 0 ->
  exists w',
    answer_question session_id question top_k w
    = (Raise (ValueError "No content has been ingested yet."), w') /\
    calls w' = calls w /\
    session_count session_id w' = 0.
Proof.
  unfold session_count. intros Hcount.
  exists (ensure_collection (collection_name_of session_id) w).
  split; [|split].
  - unfold answer_question.
    rewrite bind_run, get_chroma_collection_run, bind_run, count_run.
    by rewrite records_ensure, Hcount.
  - apply calls_ensure.
  - by rewrite records_ensure.
Qed.

(** Claim C7 (no result is not an error).  For every session with a
    non-empty index, when the client is created, the question is embedded
    and the similarity search returns no record, [answer_question] returns
    the fixed fall-back answer with the marker of empty citations; it does
    not raise, and the only request it sent is the one that embedded the
    question: none went to the chat service. *)
Theorem answer_question_no_results
    (session_id question : string) (top_k : Z) (w : world)
    (query_embedding : vector) (others : list vector) :
  session_count session_id w <> 0 ->
  openai_new = inr tt ->
  embeddings_create (calls w) EMBEDDING_MODEL [question]
    = inr (query_embedding :: others) ->
  nearest (Chroma.records (collection_name_of session_id) w) query_embedding top_k
    = inr [] ->
  exists w',
    answer_question session_id question top_k w
    = (Return ("I couldn't find relevant information in the current knowledge base.",
               "No citations found."), w') /\
    calls w' = calls w ++ [EmbeddingsCreate EMBEDDING_MODEL [question]] /\
    filter is_chat_call (calls w') = filter is_chat_call (calls w) /\
    collections w' = collections w.
Proof.
  unfold session_count. intros Hcount Hclient Hembed Hquery.
  assert (Chroma.records (collection_name_of session_id) w <> []) as Hne.
  { intros E. apply Hcount. by rewrite E. }
  exists (log_call (EmbeddingsCreate EMBEDDING_MODEL [question]) w).
  split; [|split; [done|split; [|done]]].
  - unfold answer_question.
    rewrite bind_run, get_chroma_collection_run, (ensure_existing _ _ Hne).
    rewrite bind_run, count_run.
    destruct (Z.eqb_spec (Py.len (Chroma.records (collection_name_of session_id) w)) 0)
      as [E|_]; [done|].
    rewrite bind_run, get_openai_client_run, Hclient.
    rewrite bind_run, embed_texts_run, Hembed by done.
    rewrite bind_run, query_run, records_log_call, Hquery.
    reflexivity.
  - simpl. rewrite filter_app. simpl. by rewrite app_nil_r.
Qed.

End DegenerateInputs.

Lemma ingest_blank_text_fails_witness :
  exists w',
    @ingest_source_text Demo.char_tokenizer Demo.services "s1" "doc1" "txt"
      (" " +:+ Utf8.encode_char 0xA0 +:+ Utf8.encode_char 0x3000) empty_world
    = (Raise (ValueError "Loaded content is empty and cannot be ingested."), w') /\
    w' = empty_world /\
    filter is_embedding_call (calls w') = filter is_embedding_call (calls empty_world) /\
    forall s, session_count s w' = session_count s empty_world.
Proof.
  apply (@ingest_blank_text_fails Demo.char_tokenizer Demo.services).
  apply strip_whitespace_only. vm_compute. reflexivity.
Defined.

Lemma answer_question_empty_index_witness :
  exists w',
    @answer_question Demo.services "s1" "What color is the sky?" 4 empty_world
    = (Raise (ValueError "No content has been ingested yet."), w') /\
    calls w' = calls empty_world /\
    session_count "s1" w' = 0.
Proof.
  apply (@answer_question_empty_index Demo.services). reflexivity.
Defined.

Lemma answer_question_no_results_witness :
  exists w',
    @answer_question Demo.services_no_hit "s1" "What color is the sky?" 4
      Demo.scenario_world
    = (Return ("I couldn't find relevant information in the current knowledge base.",
               "No citations found."), w') /\
    calls w' = calls Demo.scenario_world
               ++ [EmbeddingsCreate "text-embedding-3-small" ["What color is the sky?"]] /\
    filter is_chat_call (calls w') = filter is_chat_call (calls Demo.scenario_world) /\
    collections w' = collections Demo.scenario_world.
Proof.
  apply (@answer_question_no_results Demo.services_no_hit "s1" "What color is the sky?" 4
           Demo.scenario_world [1%Q; 0%Q] []).
  - vm_compute. discriminate.
  - reflexivity.
  - reflexivity.
  - reflexivity.
Defined.

(** ** What a computation does to the world, step by step *)

Section StepsClosure.
Context (P : relation world) `{!PreOrder P}.

Lemma steps_ret {A} (a : A) : steps P (mret a).
Proof. intros w. reflexivity. Qed.

Lemma steps_raise {A} (e : exn) : steps P (raise e : M A).
Proof. intros w. reflexivity. Qed.

Lemma steps_lift {A} (r : exn + A) : steps P (lift_result r).
Proof. intros w. rewrite lift_result_run. reflexivity. Qed.

Lemma steps_get_world : steps P get_world.
Proof. intros w. reflexivity. Qed.

Lemma steps_bind {A B} (m : M A) (f : A -> M B) :
  steps P m -> (forall a, steps P (f a)) -> steps P (m ≫= f).
Proof.
  intros Hm Hf w. rewrite bind_run. specialize (Hm w).
  destruct (m w) as [[a|e] w']; simpl in *; [|done].
  etrans; [exact Hm | apply Hf].
Qed.

Lemma steps_try {A} (m : M A) (h : exn -> M A) :
  steps P m -> (forall e, steps P (h e)) -> steps P (try_except m h).
Proof.
  intros Hm Hh w. unfold try_except. specialize (Hm w).
  destruct (m w) as [[a|e] w']; simpl in *; [done|].
  etrans; [exact Hm | apply Hh].
Qed.

Lemma steps_if {A} (b : bool) (m1 m2 : M A) :
  steps P m1 -> steps P m2 -> steps P (if b then m1 else m2).
Proof. by destruct b. Qed.

(** The handle that [get_or_create_collection] returns is the name it was
    given. *)
Lemma steps_with_collection {B} (name : string) (f : string -> M B) :
  steps P (Chroma.get_or_create_collection name) ->
  steps P (f name) ->
  steps P (Chroma.get_or_create_collection name ≫= f).
Proof.
  intros Hg Hf w. rewrite bind_run. specialize (Hg w).
  rewrite get_or_create_collection_run in *. simpl in Hg.
  etrans; [exact Hg | apply Hf].
Qed.

End StepsClosure.

#[global] Instance unchanged_outside_preorder name : PreOrder (unchanged_outside name).
Proof.
  split.
  - by intros w other _.
  - intros w1 w2 w3 H12 H23 other Hne. by rewrite H23, H12.
Qed.

#[global] Instance keeps_numbered_preorder : PreOrder keeps_numbered.
Proof. split; unfold keeps_numbered; [intros w | intros w1 w2 w3]; tauto. Qed.

(** *** The collections of the other sessions *)

Lemma touches_only_log name c : steps (unchanged_outside name) (modify_world (log_call c)).
Proof. by intros w other _. Qed.

Lemma touches_only_get_or_create name :
  steps (unchanged_outside name) (Chroma.get_or_create_collection name).
Proof.
  intros w other Hne. rewrite get_or_create_collection_run. simpl.
  unfold ensure_collection. destruct (collections w !! name); [done|].
  simpl. by rewrite lookup_insert_ne.
Qed.

Lemma touches_only_delete name :
  steps (unchanged_outside name) (Chroma.delete_collection name).
Proof.
  intros w other Hne. unfold Chroma.delete_collection.
  destruct (collections w !! name); [|done]. simpl. by rewrite lookup_delete_ne.
Qed.

Lemma touches_only_count name name' : steps (unchanged_outside name) (Chroma.count name').
Proof. by intros w other _. Qed.

Lemma touches_only_get_metadatas name name' :
  steps (unchanged_outside name) (Chroma.get_metadatas name').
Proof. by intros w other _. Qed.

Lemma touches_only_add name ids documents embeddings metadatas :
  steps (unchanged_outside name) (Chroma.add name ids documents embeddings metadatas).
Proof.
  intros w other Hne. unfold Chroma.add.
  repeat (match goal with |- context [if ?b then _ else _] => destruct b end; [done|]).
  simpl. by rewrite lookup_insert_ne.
Qed.

Lemma touches_only_query `{Services} name name' q k :
  steps (unchanged_outside name) (Chroma.query name' q k).
Proof. intros w other _. by rewrite query_run. Qed.

Create HintDb frame.

#[local] Hint Resolve steps_ret steps_raise steps_lift steps_get_world
  touches_only_log touches_only_get_or_create
  touches_only_delete touches_only_count touches_only_get_metadatas
  touches_only_add touches_only_query : frame.

Ltac frame_step :=
  first
    [ solve [eauto with frame typeclass_instances]
    | apply steps_with_collection; [apply _ | solve [eauto with frame] |]
    | apply steps_bind; [apply _ | | intros ?]
    | apply steps_try; [apply _ | | intros ?]
    | apply steps_if ].

Ltac frame := repeat frame_step.

Section Frames.
Context `{Tokenizer} `{Services}.

Lemma touches_only_get_chroma_collection s :
  steps (unchanged_outside (collection_name_of s)) (get_chroma_collection s).
Proof. apply touches_only_get_or_create. Qed.

Lemma touches_only_embed_texts name texts model :
  steps (unchanged_outside name) (embed_texts texts model).
Proof. unfold embed_texts. frame. Qed.

Lemma touches_only_get_openai_client name :
  steps (unchanged_outside name) get_openai_client.
Proof. apply steps_lift, _. Qed.

Hint Resolve touches_only_get_chroma_collection touches_only_embed_texts
  touches_only_get_openai_client : frame.

Lemma touches_only_ingest_source_text s source_name source_type text :
  steps (unchanged_outside (collection_name_of s))
    (ingest_source_text s source_name source_type text).
Proof. unfold ingest_source_text, get_chroma_collection. frame. Qed.

Lemma touches_only_list_sources s :
  steps (unchanged_outside (collection_name_of s)) (list_sources s).
Proof. unfold list_sources, get_chroma_collection. frame. Qed.

Lemma touches_only_clear_database s :
  steps (unchanged_outside (collection_name_of s)) (clear_database s).
Proof. unfold clear_database. frame. Qed.

Lemma touches_only_answer_question s question top_k :
  steps (unchanged_outside (collection_name_of s)) (answer_question s question top_k).
Proof.
  unfold answer_question, get_chroma_collection. frame.
  destruct a1 as [|q qs]; frame.
  destruct (build_context _ _ _). frame.
Qed.

End Frames.

Section EntryPointFrames.
Context `{Tokenizer} `{Services}.

Hint Resolve touches_only_ingest_source_text touches_only_list_sources
  touches_only_clear_database touches_only_answer_question : frame.

Lemma touches_only_sources_markdown s :
  steps (unchanged_outside (collection_name_of s)) (sources_markdown s).
Proof. unfold sources_markdown. frame. Qed.

Hint Resolve touches_only_sources_markdown : frame.

Lemma touches_only_ingest_website s url :
  steps (unchanged_outside (collection_name_of s)) (ingest_website s url).
Proof. unfold ingest_website. frame. Qed.

Lemma touches_only_ingest_youtube s url :
  steps (unchanged_outside (collection_name_of s)) (ingest_youtube s url).
Proof. unfold ingest_youtube. frame. Qed.

Lemma touches_only_ingest_uploaded_file s file_obj :
  steps (unchanged_outside (collection_name_of s)) (ingest_uploaded_file s file_obj).
Proof. unfold ingest_uploaded_file. destruct file_obj; frame. Qed.

Lemma touches_only_clear_db_action s :
  steps (unchanged_outside (collection_name_of s)) (clear_db_action s).
Proof. unfold clear_db_action. frame. Qed.

Lemma touches_only_ask_question s question :
  steps (unchanged_outside (collection_name_of s)) (ask_question s question).
Proof. unfold ask_question. frame. Qed.

Lemma collection_name_of_inj (a b : string) :
  collection_name_of a = collection_name_of b -> a = b.
Proof. unfold collection_name_of. apply String.app_inj. Qed.

(** One operation of a session leaves the collections of the other
    sessions as they are. *)
Lemma perform_frame (s : string) (op : operation) (w : world) (other : string) :
  other <> collection_name_of s ->
  collections (perform s op w) !! other = collections w !! other.
Proof.
  intros Hne. destruct op; simpl.
  - by apply touches_only_ingest_source_text.
  - by apply touches_only_list_sources.
  - by apply touches_only_clear_database.
  - by apply touches_only_answer_question.
  - by apply touches_only_ingest_website.
  - by apply touches_only_ingest_youtube.
  - by apply touches_only_ingest_uploaded_file.
  - by apply touches_only_sources_markdown.
  - by apply touches_only_clear_db_action.
  - by apply touches_only_ask_question.
Qed.

Lemma perform_all_frame (ops : list (string * operation)) (w : world) (other : string) :
  Forall (fun so => other <> collection_name_of so.1) ops ->
  collections (perform_all ops w) !! other = collections w !! other.
Proof.
  intros Hops. revert w. induction Hops as [|[s op] ops Hne _ IH]; intros w; [done|].
  unfold perform_all in *. simpl. rewrite IH. by apply perform_frame.
Qed.

End EntryPointFrames.

(** ** Listing, clearing and the isolation of sessions *)

Lemma list_sources_run (session_id : string) (w : world) :
  let coll := Chroma.records (collection_name_of session_id) w in
  list_sources session_id w
  = (Return (if Py.len coll =? 0 then []
             else sorted (list_to_set
                    (omap (fun meta => source_label <$> meta) (map rec_metadata coll)))),
     ensure_collection (collection_name_of session_id) w).
Proof.
  cbv zeta. unfold list_sources.
  rewrite bind_run, get_chroma_collection_run, bind_run, count_run, records_ensure.
  destruct (_ =? 0); [done|].
  rewrite bind_run. unfold Chroma.get_metadatas. by rewrite records_ensure.
Qed.

Lemma list_sources_empty (session_id : string) (w : world) :
  session_count session_id w = 0 -> (list_sources session_id w).1 = Return [].
Proof.
  unfold session_count. intros Hcount. rewrite list_sources_run. simpl.
  by rewrite Hcount.
Qed.

Lemma records_same_lookup (name : string) (w w' : world) :
  collections w' !! name = collections w !! name ->
  Chroma.records name w' = Chroma.records name w.
Proof. unfold Chroma.records. by intros ->. Qed.

Lemma clear_database_run (session_id : string) (w : world) :
  clear_database session_id w
  = (Return tt, set_collections (insert (collection_name_of session_id) []) w).
Proof.
  unfold clear_database. rewrite bind_run. unfold try_except, Chroma.delete_collection.
  destruct (collections w !! collection_name_of session_id) eqn:E.
  - rewrite bind_run, get_or_create_collection_run. simpl.
    unfold ensure_collection. simpl. rewrite lookup_delete_eq.
    unfold set_collections. simpl. by rewrite insert_delete_eq.
  - simpl. rewrite bind_run, get_or_create_collection_run. simpl.
    unfold ensure_collection. by rewrite E.
Qed.

Section Isolation.
Context `{Tokenizer} `{Services}.

(** Claim C2 (isolation of sessions).  For all session identifiers
    [A <> B], whatever operations session [A] performs, the collection of
    session [B] is the one it was, so that [list_sources] and [count()] of
    [B] give what they gave before; in particular a session [B] with nothing
    ingested still lists no source and counts zero records. *)
Theorem cross_session_isolation (A B : string) (ops : list operation) (w : world) :
  A <> B ->
  let w' := perform_all (map (fun op => (A, op)) ops) w in
  collections w' !! collection_name_of B = collections w !! collection_name_of B /\
  (list_sources B w').1 = (list_sources B w).1 /\
  session_count B w' = session_count B w /\
  (session_count B w = 0 ->
   (list_sources B w').1 = Return [] /\ session_count B w' = 0).
Proof.
  intros Hne w'.
  assert (collections w' !! collection_name_of B
          = collections w !! collection_name_of B) as Hsame.
  { apply perform_all_frame. apply List.Forall_forall.
    intros [s op] Hin. apply in_map_iff in Hin as (op' & [= <- <-] & _). simpl.
    intros E. apply collection_name_of_inj in E. congruence. }
  pose proof (records_same_lookup _ _ _ Hsame) as Hrec.
  assert (session_count B w' = session_count B w) as Hcount.
  { unfold session_count. by rewrite Hrec. }
  split; [done|]. split; [|split; [done|]].
  - rewrite !list_sources_run. simpl. by rewrite Hrec.
  - intros Hzero. split; [|lia]. apply list_sources_empty. lia.
Qed.

(** Claim C8 (clear).  [clear_database] returns and leaves the session
    with an empty collection: running it a second time changes nothing,
    [count()] is then 0 and [list_sources] gives the empty list; no request
    is sent, and the collections of the other names are untouched. *)
Theorem clear_database_idempotent (session_id : string) (w : world) :
  exists w1,
    clear_database session_id w = (Return tt, w1) /\
    clear_database session_id w1 = (Return tt, w1) /\
    session_count session_id w1 = 0 /\
    list_sources session_id w1 = (Return [], w1) /\
    calls w1 = calls w /\
    forall name, name <> collection_name_of session_id ->
      collections w1 !! name = collections w !! name.
Proof.
  exists (set_collections (insert (collection_name_of session_id) []) w).
  assert (Chroma.records (collection_name_of session_id)
            (set_collections (insert (collection_name_of session_id) []) w) = []) as Hrec.
  { unfold Chroma.records. simpl. by rewrite lookup_insert_eq. }
  split; [apply clear_database_run|]. split; [|split; [|split; [|split]]].
  - rewrite clear_database_run. unfold set_collections. simpl.
    by rewrite insert_insert_eq.
  - unfold session_count. by rewrite Hrec.
  - rewrite list_sources_run. simpl. rewrite Hrec. simpl. f_equal.
    unfold ensure_collection. simpl. by rewrite lookup_insert_eq.
  - done.
  - intros name Hne. simpl. by rewrite lookup_insert_ne.
Qed.

End Isolation.

Lemma cross_session_isolation_witness :
  let w' := @perform_all Demo.char_tokenizer Demo.services
              (map (fun op => ("s1", op))
                 [Ingest "doc1" "txt" "The sky is blue. Grass is green."]) empty_world in
  (list_sources "s2" w').1 = Return [] /\ session_count "s2" w' = 0.
Proof.
  refine (proj2 (proj2 (proj2
    (@cross_session_isolation Demo.char_tokenizer Demo.services "s1" "s2"
       [Ingest "doc1" "txt" "The sky is blue. Grass is green."] empty_world _))) _).
  - discriminate.
  - reflexivity.
Defined.

Lemma clear_database_idempotent_witness :
  exists w1,
    clear_database "s1" Demo.scenario_world = (Return tt, w1) /\
    clear_database "s1" w1 = (Return tt, w1) /\
    session_count "s1" w1 = 0 /\
    list_sources "s1" w1 = (Return [], w1) /\
    calls w1 = calls Demo.scenario_world /\
    forall name, name <> collection_name_of "s1" ->
      collections w1 !! name = collections Demo.scenario_world !! name.
Proof. exact (clear_database_idempotent "s1" Demo.scenario_world). Defined.

(** ** The listing of the sources *)

Lemma source_label_chunk_metadata (source_name source_type : string) (idx : Z) :
  source_label (chunk_metadata source_name source_type idx)
  = source_name +:+ " (" +:+ source_type +:+ ")".
Proof. reflexivity. Qed.

Lemma sorted_StronglySorted (labels : gset string) :
  StronglySorted String.le (sorted labels).
Proof. unfold sorted. apply StronglySorted_merge_sort; apply _. Qed.

Lemma sorted_NoDup (labels : gset string) : NoDup (sorted labels).
Proof.
  unfold sorted. rewrite merge_sort_Permutation. apply NoDup_elements.
Qed.

Lemma sorted_In (labels : gset string) (label : string) :
  In label (sorted labels) <-> label ∈ labels.
Proof.
  unfold sorted. rewrite <- list_elem_of_In, merge_sort_Permutation.
  apply elem_of_elements.
Qed.

Lemma labels_of_records (coll : list record) (label : string) :
  label ∈ (list_to_set (omap (fun meta => source_label <$> meta)
                          (map rec_metadata coll)) : gset string)
  <-> exists r meta, In r coll /\ rec_metadata r = Some meta /\ label = source_label meta.
Proof.
  rewrite elem_of_list_to_set, list_elem_of_omap. split.
  - intros (m & Hm & Hlabel). apply list_elem_of_In, in_map_iff in Hm as (r & Hr & Hin).
    destruct m as [meta|]; [|done]. simpl in Hlabel. injection Hlabel as <-.
    by exists r, meta.
  - intros (r & meta & Hin & Hmeta & ->). exists (Some meta). split; [|done].
    apply list_elem_of_In, in_map_iff. by exists r.
Qed.

(** Claim C10 (source listing).  [list_sources] returns the labels
    ["name (type)"] of the records of the session in ascending order and
    without repetition: the list is sorted, no label occurs twice, it holds
    exactly the labels of the stored records, and the label of a source
    that was ingested occurs exactly once, however many chunks or
    ingestions stand behind it. *)
Theorem list_sources_sorted_dedup (session_id : string) (w : world) :
  let coll := Chroma.records (collection_name_of session_id) w in
  exists labels,
    (list_sources session_id w).1 = Return labels /\
    StronglySorted String.le labels /\
    List.NoDup labels /\
    (forall label, In label labels <->
       exists r meta, In r coll /\ rec_metadata r = Some meta /\ label = source_label meta) /\
    (forall r source_name source_type idx,
       In r coll ->
       rec_metadata r = Some (chunk_metadata source_name source_type idx) ->
       count_occ String.string_dec labels (source_name +:+ " (" +:+ source_type +:+ ")") = 1%nat).
Proof.
  intros coll. rewrite list_sources_run. fold coll. cbn [fst].
  set (labels := if Py.len coll =? 0 then [] else sorted _).
  assert (List.NoDup labels) as Hnodup.
  { apply NoDup_ListNoDup. unfold labels.
    destruct (_ =? 0); [constructor | apply sorted_NoDup]. }
  assert (forall label, In label labels <->
            exists r meta, In r coll /\ rec_metadata r = Some meta
                           /\ label = source_label meta) as Hin.
  { intros label. unfold labels. destruct (Z.eqb_spec (Py.len coll) 0) as [E|_].
    - apply len_zero_nil in E. rewrite E. simpl. split; [done|].
      by intros (r & meta & [] & _).
    - rewrite sorted_In. apply labels_of_records. }
  exists labels. split; [done|]. split; [|split; [done|split; [done|]]].
  - unfold labels. destruct (_ =? 0); [constructor | apply sorted_StronglySorted].
  - intros r source_name source_type idx Hr Hmeta.
    apply (proj1 (NoDup_count_occ' String.string_dec labels) Hnodup).
    apply Hin. exists r, (chunk_metadata source_name source_type idx).
    by rewrite source_label_chunk_metadata.
Qed.

(** ** The numbering of the records *)

Lemma range_from_zero (m : nat) : Py.range 0 (Z.of_nat m) 1 = map Z.of_nat (seq 0 m).
Proof.
  unfold Py.range. simpl.
  replace (Z.of_nat m - 0 + 1 - 1) with (Z.of_nat m) by lia.
  rewrite Z.div_1_r, Nat2Z.id. apply map_ext. intros k. lia.
Qed.

Lemma chunk_ids_nat (c : Z) (m : nat) :
  chunk_ids c (Z.of_nat m)
  = map (fun k : nat => "doc_" +:+ Py.str_of_int (c + Z.of_nat k)) (seq 0 m).
Proof. unfold chunk_ids. by rewrite range_from_zero, map_map. Qed.

Lemma chunk_ids_length (c : Z) (m : nat) : length (chunk_ids c (Z.of_nat m)) = m.
Proof. by rewrite chunk_ids_nat, length_map, length_seq. Qed.

Lemma chunk_ids_lookup (c : Z) (m i : nat) (id : string) :
  chunk_ids c (Z.of_nat m) !! i = Some id ->
  id = "doc_" +:+ Py.str_of_int (c + Z.of_nat i) /\ (i < m)%nat.
Proof.
  rewrite chunk_ids_nat, list_lookup_fmap. intros Hi.
  destruct (seq 0 m !! i) as [k|] eqn:Ek; [|done].
  apply lookup_seq in Ek as [-> Hlt]. simpl in Hi. injection Hi as <-. done.
Qed.

Lemma chunk_ids_app (a b : nat) :
  chunk_ids 0 (Z.of_nat (a + b))
  = chunk_ids 0 (Z.of_nat a) ++ chunk_ids (Z.of_nat a) (Z.of_nat b).
Proof.
  rewrite !chunk_ids_nat, seq_app, map_app. f_equal.
  replace (0 + a)%nat with (a + 0)%nat by lia.
  rewrite <- (fmap_add_seq a 0 b). change (fmap ?f ?l) with (map f l).
  rewrite map_map. apply map_ext. intros k. do 2 f_equal. lia.
Qed.

Lemma doc_id_inj (i j : Z) :
  "doc_" +:+ Py.str_of_int i = "doc_" +:+ Py.str_of_int j -> i = j.
Proof. intros E. apply String.app_inj in E. by apply pretty_Z_inj in E. Qed.

Lemma chunk_ids_NoDup (c : Z) (m : nat) : List.NoDup (chunk_ids c (Z.of_nat m)).
Proof.
  rewrite chunk_ids_nat. apply Finite.Injective_map_NoDup; [|apply List.seq_NoDup].
  intros i j E. apply doc_id_inj in E. lia.
Qed.

Lemma chunk_ids_fresh (a m : nat) (id : string) :
  In id (chunk_ids (Z.of_nat a) (Z.of_nat m)) -> ~ In id (chunk_ids 0 (Z.of_nat a)).
Proof.
  rewrite !chunk_ids_nat. intros Hnew Hold.
  apply in_map_iff in Hnew as (i & <- & _).
  apply in_map_iff in Hold as (j & E & Hj). apply in_seq in Hj.
  apply doc_id_inj in E. lia.
Qed.

Lemma put_fresh (r : record) (coll : list record) :
  ~ In (rec_id r) (map rec_id coll) -> Chroma.put r coll = coll ++ [r].
Proof.
  induction coll as [|r0 coll IH]; intros Hfresh; simpl; [done|].
  destruct (String.eqb_spec (rec_id r0) (rec_id r)) as [E|_].
  - exfalso. apply Hfresh. simpl. by left.
  - rewrite IH; [done|]. intros Hin. apply Hfresh. simpl. by right.
Qed.

Lemma fold_put_fresh (new old : list record) :
  List.NoDup (map rec_id new) ->
  (forall r, In r new -> ~ In (rec_id r) (map rec_id old)) ->
  fold_left (fun c r => Chroma.put r c) new old = old ++ new.
Proof.
  revert old. induction new as [|r new IH]; intros old Hnodup Hfresh; simpl.
  - by rewrite app_nil_r.
  - inversion Hnodup as [|? ? Hr Hnew]; subst.
    rewrite put_fresh by (apply Hfresh; simpl; by left).
    rewrite IH; [by rewrite <- app_assoc | done |].
    intros r' Hr' Hin. rewrite map_app in Hin. apply in_app_or in Hin as [Hin|Hin].
    + apply (Hfresh r'); [simpl; by right | done].
    + simpl in Hin. destruct Hin as [E|[]]. apply Hr. rewrite E.
      by apply in_map.
Qed.

Lemma build_ids (ids documents : list string) (embeddings : list vector)
    (metadatas : list (gmap string meta_value)) :
  length documents = length ids -> length embeddings = length ids ->
  length metadatas = length ids ->
  map rec_id (Chroma.build ids documents embeddings metadatas) = ids.
Proof.
  revert documents embeddings metadatas.
  induction ids as [|i ids IH]; intros [|d ds] [|e es] [|m ms] Hd He Hm;
    simpl in *; try done.
  f_equal. apply IH; lia.
Qed.

Lemma build_lookup (ids documents : list string) (embeddings : list vector)
    (metadatas : list (gmap string meta_value)) (i : nat) (r : record) :
  Chroma.build ids documents embeddings metadatas !! i = Some r ->
  ids !! i = Some (rec_id r) /\ documents !! i = Some (rec_document r) /\
  embeddings !! i = Some (rec_embedding r) /\
  exists m, metadatas !! i = Some m /\ rec_metadata r = Some m.
Proof.
  revert documents embeddings metadatas i.
  induction ids as [|id ids IH]; intros [|d ds] [|e es] [|m ms] i Hi;
    simpl in *; try done.
  destruct i as [|i]; simpl in *.
  - injection Hi as <-. simpl. repeat split; eauto.
  - by apply IH.
Qed.

Lemma records_insert (name name' : string) (coll : list record) (w : world) :
  Chroma.records name' (set_collections (insert name coll) w)
  = if decide (name = name') then coll else Chroma.records name' w.
Proof.
  unfold Chroma.records. simpl. destruct (decide (name = name')) as [<-|Hne].
  - by rewrite lookup_insert_eq.
  - by rewrite lookup_insert_ne.
Qed.

Lemma well_numbered_nil : well_numbered [].
Proof. reflexivity. Qed.

Lemma well_numbered_app (old new : list record) :
  well_numbered old ->
  map rec_id new = chunk_ids (Py.len old) (Py.len new) ->
  well_numbered (old ++ new).
Proof.
  unfold well_numbered, Py.len. intros Hold Hnew.
  rewrite map_app, length_app, chunk_ids_app. by rewrite Hold, Hnew.
Qed.

(** Adding records under the next free numbers appends them. *)
Lemma add_numbered_run (name : string) (documents : list string)
    (embeddings : list vector) (metadatas : list (gmap string meta_value))
    (w : world) :
  let old := Chroma.records name w in
  let ids := chunk_ids (Py.len old) (Py.len documents) in
  well_numbered old ->
  length embeddings = length documents ->
  length metadatas = length documents ->
  Chroma.widths_agree (map rec_embedding old ++ embeddings) = true ->
  Chroma.add name ids documents embeddings metadatas w
  = (Return tt,
     set_collections
       (insert name (old ++ Chroma.build ids documents embeddings metadatas)) w).
Proof.
  intros old ids Hold Hemb Hmeta Hwidth.
  assert (length ids = length documents) as Hids by apply chunk_ids_length.
  assert (map rec_id (Chroma.build ids documents embeddings metadatas) = ids) as Hbuilt.
  { apply build_ids; lia. }
  unfold Chroma.add. fold old. rewrite Hids, Hemb, Hmeta, !Nat.eqb_refl. cbn [andb negb].
  rewrite bool_decide_eq_true_2 by (apply NoDup_ListNoDup, chunk_ids_NoDup).
  cbn [negb]. rewrite Hwidth. cbn [negb].
  rewrite fold_put_fresh; [done | |].
  - rewrite Hbuilt. apply chunk_ids_NoDup.
  - intros r Hr. rewrite Hold. apply chunk_ids_fresh with (m := length documents).
    change (In (rec_id r) ids). rewrite <- Hbuilt. by apply in_map.
Qed.

(** Whatever the outcome of adding records under the next free numbers,
    the numbering of the collection stands. *)
Lemma add_numbered_keeps (name : string) (documents : list string)
    (embeddings : list vector) (metadatas : list (gmap string meta_value))
    (w : world) :
  all_numbered w ->
  all_numbered
    (Chroma.add name
       (chunk_ids (Py.len (Chroma.records name w)) (Py.len documents))
       documents embeddings metadatas w).2.
Proof.
  intros Hall.
  set (old := Chroma.records name w).
  set (ids := chunk_ids (Py.len old) (Py.len documents)).
  assert (length ids = length documents) as Hids by apply chunk_ids_length.
  unfold Chroma.add. fold old. rewrite Hids.
  destruct (Nat.eqb_spec (length documents) (length documents)) as [_|]; [|done].
  destruct (Nat.eqb_spec (length embeddings) (length documents)) as [Hemb|]; [|done].
  destruct (Nat.eqb_spec (length metadatas) (length documents)) as [Hmeta|]; [|done].
  cbn [andb negb].
  destruct (negb (bool_decide _)); [done|].
  destruct (negb (Chroma.widths_agree _)); [done|].
  cbn [snd]. intros name'. rewrite records_insert.
  destruct (decide (name = name')) as [<-|Hne].
  - assert (map rec_id (Chroma.build ids documents embeddings metadatas) = ids) as Hbuilt.
    { apply build_ids; lia. }
    rewrite fold_put_fresh.
    + assert (length (Chroma.build ids documents embeddings metadatas)
              = length documents) as Hlen.
      { rewrite <- Hids. rewrite <- Hbuilt at 2. by rewrite length_map. }
      apply well_numbered_app; [apply Hall|]. rewrite Hbuilt.
      unfold Py.len. by rewrite Hlen.
    + rewrite Hbuilt. apply chunk_ids_NoDup.
    + intros r Hr. pose proof (Hall name) as Hold. unfold well_numbered in Hold.
      fold old in Hold. rewrite Hold.
      apply chunk_ids_fresh with (m := length documents).
      change (In (rec_id r) ids). rewrite <- Hbuilt. by apply in_map.
  - apply (Hall name').
Qed.

(** ** The postcondition of an ingestion *)

Lemma truthy_true (s : string) : s <> "" -> Py.truthy s = true.
Proof. by destruct s. Qed.

Lemma nonempty_true {A} (l : list A) : l <> [] -> Py.nonempty l = true.
Proof. by destruct l. Qed.

Lemma Py_len_nat {A} (l : list A) : Py.len l = Z.of_nat (length l).
Proof. reflexivity. Qed.

Lemma chunk_metadatas_lookup (source_name source_type : string) (m i : nat)
    (meta : gmap string meta_value) :
  map (chunk_metadata source_name source_type) (Py.range 0 (Z.of_nat m) 1) !! i = Some meta ->
  meta = chunk_metadata source_name source_type (Z.of_nat i).
Proof.
  rewrite range_from_zero, map_map, list_lookup_fmap. intros Hi.
  destruct (seq 0 m !! i) as [k|] eqn:Ek; [|done].
  apply lookup_seq in Ek as [-> _]. simpl in Hi. by injection Hi as <-.
Qed.

(** The dict that an ingestion stores with a chunk holds the source, the
    source type and the chunk index, and nothing else. *)
Lemma chunk_metadata_fields (source_name source_type : string) (idx : Z) :
  let meta := chunk_metadata source_name source_type idx in
  meta !! "source" = Some (MStr source_name) /\
  meta !! "source_type" = Some (MStr source_type) /\
  meta !! "chunk_index" = Some (MInt idx) /\
  forall key, key <> "source" -> key <> "source_type" -> key <> "chunk_index" ->
    meta !! key = None.
Proof.
  cbv zeta. unfold chunk_metadata. split; [reflexivity|]. split; [reflexivity|].
  split; [reflexivity|]. intros key H1 H2 H3.
  rewrite !lookup_insert_ne by done. by rewrite lookup_singleton_ne.
Qed.

Section Ingestion.
Context `{Tokenizer} `{Services}.

(** Claim C4 (postcondition of an ingestion).  Let the collection of the
    session be numbered as ingestions that ran one after the other leave
    it.  When the text gives [n >= 1] chunks and the embedding service
    answers with one vector per chunk, of the width of the stored ones,
    [ingest_source_text] returns [n]; the collection is the old one
    followed by [n] new records; the record at position [i] of the new ones
    has the ID [doc_(count + i)], the chunk [i] as its document and as its
    metadata a dict with the three keys [source], [source_type] and
    [chunk_index], bound to the source name, the source type and [i];
    [count()] has grown by [n]; every old record is where and what it
    was. *)
Theorem ingest_source_text_postcondition
    (session_id source_name source_type text : string) (w : world)
    (embeddings : list vector) :
  let name := collection_name_of session_id in
  let old := Chroma.records name w in
  let chunks := split_text_by_tokens text MAX_CHUNK_TOKENS CHUNK_OVERLAP_TOKENS in
  let n := Py.len chunks in
  well_numbered old ->
  Py.strip text <> "" ->
  chunks <> [] ->
  openai_new = inr tt ->
  embeddings_create (calls w) EMBEDDING_MODEL chunks = inr embeddings ->
  length embeddings = length chunks ->
  Chroma.widths_agree (map rec_embedding old ++ embeddings) = true ->
  exists w' added,
    ingest_source_text session_id source_name source_type text w = (Return n, w') /\
    Chroma.records name w' = old ++ added /\
    Py.len added = n /\
    session_count session_id w' = session_count session_id w + n /\
    (forall (i : nat) (r : record),
       added !! i = Some r ->
       rec_id r = "doc_" +:+ Py.str_of_int (session_count session_id w + Z.of_nat i) /\
       chunks !! i = Some (rec_document r) /\
       embeddings !! i = Some (rec_embedding r) /\
       exists meta,
         rec_metadata r = Some meta /\
         meta !! "source" = Some (MStr source_name) /\
         meta !! "source_type" = Some (MStr source_type) /\
         meta !! "chunk_index" = Some (MInt (Z.of_nat i)) /\
         forall key, key <> "source" -> key <> "source_type" -> key <> "chunk_index" ->
           meta !! key = None) /\
    (forall (i : nat) (r : record),
       old !! i = Some r -> Chroma.records name w' !! i = Some r) /\
    well_numbered (Chroma.records name w').
Proof.
  intros name old chunks n Hold Htext Hchunks Hclient Hembed Hlen Hwidth.
  set (metadatas := map (chunk_metadata source_name source_type) (Py.range 0 n 1)).
  set (ids := chunk_ids (Py.len old) n).
  set (added := Chroma.build ids chunks embeddings metadatas).
  set (w2 := ensure_collection name (log_call (EmbeddingsCreate EMBEDDING_MODEL chunks) w)).
  assert (Chroma.records name w2 = old) as Hrec2.
  { unfold w2. by rewrite records_ensure, records_log_call. }
  assert (length metadatas = length chunks) as Hmeta.
  { unfold metadatas, n. by rewrite Py_len_nat, range_from_zero, !length_map, length_seq. }
  assert (length ids = length chunks) as Hids by apply chunk_ids_length.
  assert (map rec_id added = ids) as Hbuilt by (apply build_ids; lia).
  assert (length added = length chunks) as Hadded.
  { rewrite <- Hids, <- Hbuilt. by rewrite length_map. }
  pose proof (add_numbered_run name chunks embeddings metadatas w2) as Hadd.
  cbv zeta in Hadd. rewrite Hrec2 in Hadd. specialize (Hadd Hold Hlen Hmeta Hwidth).
  fold n ids added in Hadd.
  exists (set_collections (insert name (old ++ added)) w2), added.
  assert (Chroma.records name (set_collections (insert name (old ++ added)) w2)
          = old ++ added) as Hrec'.
  { rewrite records_insert. by destruct (decide (name = name)). }
  split; [|split; [done|split; [|split; [|split; [|split]]]]].
  - unfold ingest_source_text. fold chunks.
    rewrite (truthy_true _ Htext), (nonempty_true _ Hchunks). cbn [negb].
    unfold mbind at 1. rewrite bind_run, get_openai_client_run, Hclient.
    rewrite bind_run, embed_texts_run, Hembed by done.
    rewrite bind_run, get_chroma_collection_run. fold name w2.
    rewrite bind_run, count_run, Hrec2. fold n ids metadatas.
    unfold mbind at 1. rewrite bind_run, Hadd. reflexivity.
  - unfold n. by rewrite !Py_len_nat, Hadded.
  - unfold session_count. fold name old. rewrite Hrec'.
    unfold n. rewrite !Py_len_nat, length_app, Hadded. lia.
  - intros i r Hi. apply build_lookup in Hi as (Hid & Hdoc & Hemb & m & Hm & Hrm).
    split; [|split; [done|split; [done|]]].
    + unfold ids, n in Hid. rewrite Py_len_nat in Hid.
      apply chunk_ids_lookup in Hid as [-> _]. done.
    + unfold metadatas, n in Hm. rewrite Py_len_nat in Hm.
      apply chunk_metadatas_lookup in Hm as ->.
      exists (chunk_metadata source_name source_type (Z.of_nat i)).
      split; [done|]. apply chunk_metadata_fields.
  - intros i r Hi. rewrite Hrec'. by apply lookup_app_l_Some.
  - rewrite Hrec'. apply well_numbered_app; [done|].
    rewrite Hbuilt. unfold ids, n. by rewrite !Py_len_nat, Hadded.
Qed.

End Ingestion.

Lemma ingest_source_text_postcondition_witness :
  exists w',
    @ingest_source_text Demo.char_tokenizer Demo.services
      "s1" "doc2" "txt" "Grass is green." Demo.scenario_world = (Return 1, w') /\
    session_count "s1" w' = session_count "s1" Demo.scenario_world + 1.
Proof.
  destruct (@ingest_source_text_postcondition Demo.char_tokenizer Demo.services
              "s1" "doc2" "txt" "Grass is green." Demo.scenario_world [[1%Q; 0%Q]])
    as (w' & added & Hrun & _ & _ & Hcount & _).
  - vm_compute. reflexivity.
  - vm_compute. discriminate.
  - vm_compute. discriminate.
  - reflexivity.
  - vm_compute. reflexivity.
  - vm_compute. reflexivity.
  - vm_compute. reflexivity.
  - exists w'. split; [exact Hrun | exact Hcount].
Defined.

(** *** The numbering is an invariant of the program *)

Lemma keeps_numbered_log c : steps keeps_numbered (modify_world (log_call c)).
Proof. intros w Hall name. apply (Hall name). Qed.

Lemma keeps_numbered_get_or_create name :
  steps keeps_numbered (Chroma.get_or_create_collection name).
Proof.
  intros w Hall name'. rewrite get_or_create_collection_run. simpl.
  rewrite records_ensure. apply Hall.
Qed.

Lemma keeps_numbered_delete name : steps keeps_numbered (Chroma.delete_collection name).
Proof.
  intros w Hall name'. unfold Chroma.delete_collection.
  destruct (collections w !! name) eqn:E; [|apply Hall]. simpl.
  unfold Chroma.records. simpl. destruct (decide (name = name')) as [<-|Hne].
  - rewrite lookup_delete_eq. apply well_numbered_nil.
  - rewrite lookup_delete_ne by done. apply (Hall name').
Qed.

Lemma keeps_numbered_count name : steps keeps_numbered (Chroma.count name).
Proof. by intros w Hall. Qed.

Lemma keeps_numbered_get_metadatas name : steps keeps_numbered (Chroma.get_metadatas name).
Proof. by intros w Hall. Qed.

Lemma keeps_numbered_query `{Services} name q k :
  steps keeps_numbered (Chroma.query name q k).
Proof. intros w Hall. by rewrite query_run. Qed.

(** The IDs that [ingest_source_text] computes from [count()] are the next
    free numbers. *)
Lemma keeps_numbered_count_add {B} name documents embeddings metadatas (k : M B) :
  steps keeps_numbered k ->
  steps keeps_numbered
    (Chroma.count name ≫= fun existing_count =>
     Chroma.add name (chunk_ids existing_count (Py.len documents))
       documents embeddings metadatas ≫= fun _ => k).
Proof.
  intros Hk w Hall. rewrite bind_run, count_run, bind_run.
  pose proof (add_numbered_keeps name documents embeddings metadatas w Hall) as Hadd.
  destruct (Chroma.add _ _ _ _ _ w) as [[[]|e] w']; simpl in *; [|done].
  by apply Hk.
Qed.

#[local] Hint Resolve keeps_numbered_log keeps_numbered_get_or_create
  keeps_numbered_delete keeps_numbered_count keeps_numbered_get_metadatas
  keeps_numbered_query : frame.

Section NumberingInvariant.
Context `{Tokenizer} `{Services}.

Lemma keeps_numbered_embed_texts texts model :
  steps keeps_numbered (embed_texts texts model).
Proof. unfold embed_texts. frame. Qed.

Lemma keeps_numbered_get_openai_client : steps keeps_numbered get_openai_client.
Proof. apply steps_lift, _. Qed.

Hint Resolve keeps_numbered_embed_texts keeps_numbered_get_openai_client : frame.

Lemma keeps_numbered_ingest_source_text s source_name source_type text :
  steps keeps_numbered (ingest_source_text s source_name source_type text).
Proof.
  unfold ingest_source_text, get_chroma_collection.
  do 2 (apply steps_if; [frame|]).
  apply steps_bind; [apply _ | frame | intros _].
  apply steps_bind; [apply _ | frame | intros embeddings].
  apply steps_with_collection; [apply _ | frame |].
  apply keeps_numbered_count_add. frame.
Qed.

Lemma keeps_numbered_list_sources s : steps keeps_numbered (list_sources s).
Proof. unfold list_sources, get_chroma_collection. frame. Qed.

Lemma keeps_numbered_clear_database s : steps keeps_numbered (clear_database s).
Proof. unfold clear_database. frame. Qed.

Lemma keeps_numbered_answer_question s question top_k :
  steps keeps_numbered (answer_question s question top_k).
Proof.
  unfold answer_question, get_chroma_collection. frame.
  destruct a1 as [|q qs]; frame.
  destruct (build_context _ _ _). frame.
Qed.

Hint Resolve keeps_numbered_ingest_source_text keeps_numbered_list_sources
  keeps_numbered_clear_database keeps_numbered_answer_question : frame.

Lemma keeps_numbered_sources_markdown s : steps keeps_numbered (sources_markdown s).
Proof. unfold sources_markdown. frame. Qed.

Hint Resolve keeps_numbered_sources_markdown : frame.

(** Every operation of every session keeps the numbering. *)
Lemma perform_keeps_numbered (s : string) (op : operation) (w : world) :
  all_numbered w -> all_numbered (perform s op w).
Proof.
  destruct op; simpl.
  - apply keeps_numbered_ingest_source_text.
  - apply keeps_numbered_list_sources.
  - apply keeps_numbered_clear_database.
  - apply keeps_numbered_answer_question.
  - assert (steps keeps_numbered (ingest_website s url)) as Hs
      by (unfold ingest_website; frame). apply Hs.
  - assert (steps keeps_numbered (ingest_youtube s url)) as Hs
      by (unfold ingest_youtube; frame). apply Hs.
  - assert (steps keeps_numbered (ingest_uploaded_file s file_obj)) as Hs
      by (unfold ingest_uploaded_file; destruct file_obj; frame). apply Hs.
  - apply keeps_numbered_sources_markdown.
  - assert (steps keeps_numbered (clear_db_action s)) as Hs
      by (unfold clear_db_action; frame). apply Hs.
  - assert (steps keeps_numbered (ask_question s question)) as Hs
      by (unfold ask_question; frame). apply Hs.
Qed.

(** In every world that the operations reach from the empty store, one
    after the other, every collection is numbered. *)
Lemma reachable_all_numbered (ops : list (string * operation)) :
  all_numbered (perform_all ops empty_world).
Proof.
  assert (forall w, all_numbered w -> all_numbered (perform_all ops w)) as Hgen.
  { induction ops as [|[s op] ops IH]; intros w Hw; [done|].
    unfold perform_all in *. simpl. apply IH. by apply perform_keeps_numbered. }
  apply Hgen. intros name. apply well_numbered_nil.
Qed.

End NumberingInvariant.

(** ** The citations of an answer *)

Lemma build_context_run
    (items : list (Z * (string * option (gmap string meta_value))))
    (context_parts citations : list string) :
  build_context items context_parts citations
  = (context_parts
       ++ map (fun item => citation_label item.1 item.2.2 +:+ newline +:+ item.2.1) items,
     citations ++ map (fun item => citation_label item.1 item.2.2) items).
Proof.
  revert context_parts citations.
  induction items as [|[idx [doc meta]] items IH]; intros parts cits; simpl.
  - by rewrite !app_nil_r.
  - rewrite IH. by rewrite <- !app_assoc.
Qed.

Lemma zip_documents_metadatas (rs : list record) :
  Py.zip (map rec_document rs) (map rec_metadata rs)
  = map (fun r => (rec_document r, rec_metadata r)) rs.
Proof. induction rs as [|r rs IH]; simpl; [done | by rewrite IH]. Qed.

Lemma enumerate_map {A B} (f : A -> B) (k : Z) (l : list A) :
  Py.enumerate k (map f l) = map (fun item => (item.1, f item.2)) (Py.enumerate k l).
Proof.
  revert k. induction l as [|x l IH]; intros k; simpl; [done | by rewrite IH].
Qed.

Lemma enumerate_lookup {A} (k : Z) (l : list A) (i : nat) :
  Py.enumerate k l !! i = (fun x => (k + Z.of_nat i, x)) <$> l !! i.
Proof.
  revert k i. induction l as [|x l IH]; intros k [|i]; simpl; try done.
  - by rewrite Z.add_0_r.
  - rewrite IH. by replace (k + 1 + Z.of_nat i) with (k + Z.of_nat (S i)) by lia.
Qed.

Lemma citation_label_chunk_metadata (idx : Z) (source source_type : string) (j : Z) :
  citation_label idx (Some (chunk_metadata source source_type j))
  = "[" +:+ Py.str_of_int idx +:+ "] " +:+ source +:+ " (" +:+ source_type +:+ ")".
Proof. reflexivity. Qed.

Section Citations.
Context `{Services}.

(** Claim C3, as the program has it (citations of an answer).  When the
    index is not empty, the question is embedded, the search returns the
    records [rs], not none, and the chat service answers, [answer_question]
    returns the answer of the model (or "No answer returned.") together
    with ONE STRING: the citation labels [[i] source (source_type)] of the
    records, numbered from 1 in rank order, each on a line of its own after
    the prefix "- ".  The labels do not depend on the answer of the model.
    The prompt that was sent holds the blocks "label, new line, chunk",
    joined by blank lines. *)
Theorem answer_question_citations
    (session_id question : string) (top_k : Z) (w : world)
    (query_embedding : vector) (others : list vector) (rs : list record)
    (content : option string) :
  session_count session_id w <> 0 ->
  openai_new = inr tt ->
  embeddings_create (calls w) EMBEDDING_MODEL [question]
    = inr (query_embedding :: others) ->
  nearest (Chroma.records (collection_name_of session_id) w) query_embedding top_k
    = inr rs ->
  rs <> [] ->
  let ranked := Py.enumerate 1 rs in
  let labels := map (fun ir => citation_label ir.1 (rec_metadata ir.2)) ranked in
  let blocks :=
    map (fun ir => citation_label ir.1 (rec_metadata ir.2) +:+ newline
                   +:+ rec_document ir.2) ranked in
  let prompt := build_prompt question (Py.join (newline +:+ newline) blocks) in
  let w1 := log_call (EmbeddingsCreate EMBEDDING_MODEL [question]) w in
  chat_completions_create (calls w1) CHAT_MODEL SYSTEM_PROMPT prompt (2 # 10)
    = inr content ->
  exists answer,
    answer_question session_id question top_k w
    = (Return (answer, Py.join newline (map (fun label => "- " +:+ label) labels)),
       log_call (ChatCompletionsCreate CHAT_MODEL SYSTEM_PROMPT prompt (2 # 10)) w1) /\
    answer = match content with
             | Some c => if Py.truthy c then c else "No answer returned."
             | None => "No answer returned."
             end /\
    length labels = length rs /\
    (forall (i : nat) (r : record),
       rs !! i = Some r ->
       labels !! i = Some (citation_label (1 + Z.of_nat i) (rec_metadata r))) /\
    (forall (i : nat) (r : record) (source source_type : string) (idx : Z),
       rs !! i = Some r ->
       rec_metadata r = Some (chunk_metadata source source_type idx) ->
       labels !! i = Some ("[" +:+ Py.str_of_int (1 + Z.of_nat i) +:+ "] " +:+ source
                           +:+ " (" +:+ source_type +:+ ")")).
Proof.
  intros Hcount Hclient Hembed Hquery Hrs ranked labels blocks prompt w1 Hchat.
  unfold session_count in Hcount.
  assert (Chroma.records (collection_name_of session_id) w <> []) as Hne.
  { intros E. apply Hcount. by rewrite E. }
  assert (forall (i : nat) (r : record), rs !! i = Some r ->
            labels !! i = Some (citation_label (1 + Z.of_nat i) (rec_metadata r))) as Hlabel.
  { intros i r Hi. unfold labels, ranked.
    by rewrite list_lookup_fmap, enumerate_lookup, Hi. }
  eexists. split; [|split; [reflexivity|split; [|split; [done|]]]].
  - unfold answer_question.
    rewrite bind_run, get_chroma_collection_run, (ensure_existing _ _ Hne).
    rewrite bind_run, count_run.
    destruct (Z.eqb_spec (Py.len (Chroma.records (collection_name_of session_id) w)) 0)
      as [E|_]; [done|].
    rewrite bind_run, get_openai_client_run, Hclient.
    rewrite bind_run, embed_texts_run, Hembed by done.
    rewrite bind_run, query_run, records_log_call, Hquery.
    cbn [fst snd].
    rewrite (nonempty_true (map rec_document rs)) by (by destruct rs).
    cbn [negb]. rewrite build_context_run, zip_documents_metadatas, enumerate_map.
    rewrite !map_map. cbn [fst snd app].
    fold ranked. unfold labels, prompt, blocks, w1 in Hchat |- *.
    rewrite bind_run. cbn [get_world]. unfold mbind at 1.
    rewrite bind_run. cbn [modify_world].
    rewrite bind_run, lift_result_run. cbn [calls log_call] in Hchat |- *.
    rewrite Hchat. reflexivity.
  - unfold labels, ranked. rewrite length_map.
    clear. generalize 1. induction rs as [|r rs IH]; intros k; simpl; [done|].
    by rewrite IH.
  - intros i r source source_type idx Hi Hmeta.
    rewrite (Hlabel i r Hi), Hmeta. by rewrite citation_label_chunk_metadata.
Qed.

End Citations.

Lemma answer_question_citations_witness :
  exists answer w',
    @answer_question Demo.services "s1" "What color is the sky?" 4 Demo.scenario_world
    = (Return (answer, "- [1] doc1 (txt)"), w').
Proof.
  destruct (@answer_question_citations Demo.services "s1" "What color is the sky?" 4
              Demo.scenario_world [1%Q; 0%Q] []
              (Chroma.records (collection_name_of "s1") Demo.scenario_world)
              (Some "The sky is blue [1]."))
    as (answer & Hrun & _).
  - vm_compute. discriminate.
  - reflexivity.
  - reflexivity.
  - vm_compute. reflexivity.
  - vm_compute. discriminate.
  - reflexivity.
  - exists answer. eexists. exact Hrun.
Defined.

(** The scenario of the specification, run on the program: one record
    [doc1] of type [txt] in the index, and the citations come back as the
    string ["- [1] doc1 (txt)"]: not a list of labels, and not the labels
    joined line by line either. *)
Lemma answer_question_citation_list_counterexample :
  session_count "s1" Demo.scenario_world = 1 /\
  (@answer_question Demo.services "s1" "What color is the sky?" 4 Demo.scenario_world).1
  = Return ("The sky is blue [1].", "- [1] doc1 (txt)") /\
  PyStr "- [1] doc1 (txt)" <> PyList ["[1] doc1 (txt)"] /\
  "- [1] doc1 (txt)" <> Py.join newline ["[1] doc1 (txt)"].
Proof.
  split; [vm_compute; reflexivity|]. split; [vm_compute; reflexivity|].
  split; discriminate.
Qed.

(** ** The entry points turn failures into statuses *)



Lemma sources_markdown_run (session_id : string) (w : world) :
  exists md,
    sources_markdown session_id w
    = (Return md, ensure_collection (collection_name_of session_id) w).
Proof.
  unfold sources_markdown. rewrite bind_run, list_sources_run. cbv zeta.
  destruct (negb _); eexists; reflexivity.
Qed.


Section EntryPointStatus.
Context `{Tokenizer} `{Services}.







End EntryPointStatus.


(** ** The program on concrete inputs *)

Example split_text_by_tokens_overlap :
  @split_text_by_tokens Demo.char_tokenizer "ab cd" 3 1 = ["ab"; "cd"].
Proof. vm_compute. reflexivity. Qed.

Example split_text_by_tokens_blank_window :
  @split_text_by_tokens Demo.char_tokenizer "a   cd   " 2 0 = ["a"; "cd"].
Proof. vm_compute. reflexivity. Qed.

(** White space that is not ASCII is stripped like the ASCII one. *)
Example strip_unicode_white_space :
  Py.strip (Utf8.encode_char 0xA0 +:+ " a" +:+ Utf8.encode_char 0x3000 +:+ "b "
            +:+ Utf8.encode_char 0x2003)
  = "a" +:+ Utf8.encode_char 0x3000 +:+ "b" /\
  Py.strip (Utf8.encode_char 0xA0) = "".
Proof. split; vm_compute; reflexivity. Qed.

(** The two bytes of U+00E9 in two windows: each window decodes to U+FFFD.
    The two bytes of U+00A0 in one window decode to white space, and no
    chunk comes out; in two windows, each decodes to U+FFFD. *)
Example split_text_by_tokens_cut_character :
  @split_text_by_tokens Demo.char_tokenizer (Utf8.encode_char 0xE9) 1 0
  = [Utf8.REPLACEMENT; Utf8.REPLACEMENT] /\
  @split_text_by_tokens Demo.char_tokenizer (Utf8.encode_char 0xE9) 2 0
  = [Utf8.encode_char 0xE9] /\
  @split_text_by_tokens Demo.char_tokenizer (Utf8.encode_char 0xA0) 2 0 = [] /\
  @split_text_by_tokens Demo.char_tokenizer (Utf8.encode_char 0xA0) 1 0
  = [Utf8.REPLACEMENT; Utf8.REPLACEMENT].
Proof. repeat split; vm_compute; reflexivity. Qed.

(** A URL of white space that is not ASCII is answered by the prompt. *)
Example ingest_website_blank_url :
  (@ingest_website Demo.char_tokenizer Demo.services "s1"
     (Utf8.encode_char 0xA0 +:+ " ") empty_world).1
  = Return ("Please provide a website URL.", "No sources ingested yet.").
Proof. vm_compute. reflexivity. Qed.

(** Two ingestions of [doc1] and one of [a.txt]: three records, two
    labels, in order. *)
Example list_sources_twice_ingested :
  let w := @perform_all Demo.char_tokenizer Demo.services
             [("s1", Ingest "doc1" "txt" "The sky is blue.");
              ("s1", IngestUploadedFile (Some "a.txt"));
              ("s1", Ingest "doc1" "txt" "Grass is green.")] empty_world in
  session_count "s1" w = 3 /\
  (list_sources "s1" w).1 = Return ["a.txt (txt)"; "doc1 (txt)"] /\
  map rec_id (Chroma.records (collection_name_of "s1") w) = ["doc_0"; "doc_1"; "doc_2"].
Proof. vm_compute. repeat split; reflexivity. Qed.

Lemma list_sources_sorted_dedup_witness :
  exists labels,
    (list_sources "s1" Demo.scenario_world).1 = Return labels /\
    count_occ String.string_dec labels "doc1 (txt)" = 1%nat.
Proof.
  destruct (list_sources_sorted_dedup "s1" Demo.scenario_world)
    as (labels & Hrun & _ & _ & _ & Hone).
  exists labels. split; [exact Hrun|].
  apply (Hone (Build_record "doc_0" "The sky is blue. Grass is green." [1%Q; 0%Q]
                 (Some (chunk_metadata "doc1" "txt" 0))) "doc1" "txt" 0).
  - vm_compute. left. reflexivity.
  - reflexivity.
Defined.

(** * Further properties of the program *)

(** ** The chunks of the splitter *)

Section ChunkShape.
Context `{Tokenizer}.

Lemma split_loop_Forall (P : string -> Prop) tokens chunk_size starts chunks :
  (forall s, Py.strip s <> "" -> P (Py.strip s)) ->
  Forall P chunks -> Forall P (split_loop tokens chunk_size starts chunks).
Proof.
  intros HP. revert chunks.
  induction starts as [|start starts IH]; intros chunks Hchunks; [done|].
  rewrite split_loop_cons. cbv zeta.
  set (text := Py.strip _).
  assert (Forall P (if Py.truthy text then chunks ++ [text] else chunks)) as Hnext.
  { destruct text eqn:Et; [done|]. cbn [Py.truthy]. apply Forall_app. split; [done|].
    apply Forall_singleton. rewrite <- Et. apply HP. fold text. by rewrite Et. }
  destruct (negb _); [by apply IH|].
  destruct (_ >=? _); [done | by apply IH].
Qed.

(** Property X1.
    No emitted chunk is empty, and none begins or ends with a white-space
    character (of those that [str.strip] removes, ASCII or not), whatever
    the chunk size and the overlap; stripping a chunk again leaves it as
    it is. *)
Theorem split_text_by_tokens_chunks_stripped (text : string) (chunk_size overlap : Z) :
  Forall (fun chunk =>
            chunk <> "" /\
            (forall sp rest, In sp Py.WHITESPACE ->
               chunk <> sp +:+ rest /\ chunk <> rest +:+ sp) /\
            Py.strip chunk = chunk)
         (split_text_by_tokens text chunk_size overlap).
Proof.
  unfold split_text_by_tokens. apply split_loop_Forall; [|constructor].
  intros s Hs. split; [done|]. split; [apply strip_trimmed | apply strip_idemp].
Qed.

End ChunkShape.

Lemma slice_length_le {A} (l : list A) (start size : Z) :
  0 <= start -> 0 < size -> Py.len (Py.slice l start (start + size)) <= size.
Proof.
  intros Hs Hz. unfold Py.slice, Py.clamp, Py.len.
  destruct (Z.ltb_spec start 0); [lia|].
  destruct (Z.ltb_spec (start + size) 0); [lia|].
  rewrite length_take. lia.
Qed.

Lemma range_elements (n step start : Z) :
  In start (Py.range 0 n step) ->
  exists k : nat, start = Z.of_nat k * step /\ 0 <= start < n.
Proof.
  unfold Py.range. destruct (Z.ltb_spec 0 step) as [Hstep|]; [|done].
  intros Hin. apply in_map_iff in Hin as (k & <- & Hk). apply in_seq in Hk.
  exists k. split; [lia|].
  assert (0 <= n \/ n < 0) as [Hn|Hn] by lia.
  - assert (Z.of_nat k < (n - 0 + step - 1) / step) as Hlt by lia.
    assert (Z.of_nat k + 1 <= (n - 0 + step - 1) / step) as Hle by lia.
    pose proof (Z.mul_div_le (n - 0 + step - 1) step Hstep) as Hq.
    assert (step * (Z.of_nat k + 1) <= step * ((n - 0 + step - 1) / step)) as Hmul
      by (apply Z.mul_le_mono_nonneg_l; lia).
    lia.
  - assert ((n - 0 + step - 1) / step < 1) as Hneg.
    { apply Z.div_lt_upper_bound; lia. }
    lia.
Qed.

Lemma range_length_le (n step : Z) :
  0 <= n -> (length (Py.range 0 n step) <= Z.to_nat n)%nat.
Proof.
  intros Hn. unfold Py.range. destruct (Z.ltb_spec 0 step) as [Hstep|]; [|simpl; lia].
  rewrite length_map, length_seq. apply Z2Nat.inj_le; [|lia|].
  - apply Z.div_pos; lia.
  - destruct (decide (n = 0)) as [->|Hpos].
    + rewrite Z.div_small; lia.
    + apply Z.div_le_upper_bound; [lia|]. nia.
Qed.

Section ChunkWindows.
Context `{Tokenizer}.

Lemma split_loop_origin tokens chunk_size starts chunks c :
  In c (split_loop tokens chunk_size starts chunks) ->
  In c chunks \/
  exists start,
    In start starts /\
    Py.slice tokens start (start + chunk_size) <> [] /\
    c = Py.strip (decode (Py.slice tokens start (start + chunk_size))).
Proof.
  revert chunks. induction starts as [|start starts IH]; intros chunks; [by left|].
  rewrite split_loop_cons. cbv zeta.
  set (window := Py.slice tokens start (start + chunk_size)).
  set (text := Py.strip (decode window)).
  assert (forall c', In c' (if Py.truthy text then chunks ++ [text] else chunks) ->
            In c' chunks \/ (window <> [] -> exists start',
              In start' (start :: starts) /\
              Py.slice tokens start' (start' + chunk_size) <> [] /\
              c' = Py.strip (decode (Py.slice tokens start' (start' + chunk_size)))))
    as Hnext.
  { intros c' Hc'. destruct (Py.truthy text); [|by left].
    apply in_app_or in Hc' as [Hc'|[<-|[]]]; [by left|]. right. intros Hw.
    exists start. split; [by left | done]. }
  assert (forall chunks',
            (forall c', In c' chunks' -> In c' chunks \/ (window <> [] -> exists start',
               In start' (start :: starts) /\
               Py.slice tokens start' (start' + chunk_size) <> [] /\
               c' = Py.strip (decode (Py.slice tokens start' (start' + chunk_size))))) ->
            window <> [] ->
            In c (split_loop tokens chunk_size starts chunks') ->
            In c chunks \/ exists start',
               In start' (start :: starts) /\
               Py.slice tokens start' (start' + chunk_size) <> [] /\
               c = Py.strip (decode (Py.slice tokens start' (start' + chunk_size))))
    as Hrest.
  { intros chunks' Hchunks' Hw Hc. apply IH in Hc as [Hc|(start' & Hin & Hne & ->)].
    - destruct (Hchunks' c Hc) as [?|Hex]; [by left | right; by apply Hex].
    - right. exists start'. split; [by right | done]. }
  destruct window as [|t ts] eqn:Ew; cbn [Py.nonempty negb].
  - intros Hc. apply IH in Hc as [Hc|(start' & Hin & Hne & ->)]; [by left|].
    right. exists start'. split; [by right | done].
  - destruct (_ >=? _).
    + intros Hc. destruct (Hnext c Hc) as [?|Hex]; [by left | right; by apply Hex].
    + apply Hrest; [exact Hnext | done].
Qed.

Lemma split_loop_length tokens chunk_size starts chunks :
  (length (split_loop tokens chunk_size starts chunks)
   <= length chunks + length starts)%nat.
Proof.
  revert chunks. induction starts as [|start starts IH]; intros chunks; [simpl; lia|].
  rewrite split_loop_cons. cbv zeta. set (text := Py.strip _).
  assert (length (if Py.truthy text then chunks ++ [text] else chunks)
          <= S (length chunks))%nat as Hnext.
  { destruct (Py.truthy text); [rewrite length_app; simpl; lia | lia]. }
  destruct (negb _); [specialize (IH chunks); simpl; lia|].
  destruct (_ >=? _); [simpl; lia|].
  etrans; [apply IH|]. simpl. lia.
Qed.

(** Property X2.
    Every chunk is the stripped text of a window of at least one and at
    most [chunk_size] tokens, which starts at a multiple of the step inside
    the token sequence; there are no more chunks than tokens. *)
Theorem split_text_by_tokens_chunks_bounded (text : string) (chunk_size overlap : Z) :
  0 < chunk_size ->
  let tokens := encode text in
  let step := Z.max (chunk_size - overlap) 1 in
  let chunks := split_text_by_tokens text chunk_size overlap in
  (length chunks <= length tokens)%nat /\
  forall chunk, In chunk chunks ->
    exists k : nat,
      let start := Z.of_nat k * step in
      let window := Py.slice tokens start (start + chunk_size) in
      start < Py.len tokens /\
      chunk = Py.strip (decode window) /\
      1 <= Py.len window <= chunk_size.
Proof.
  intros Hcs tokens step chunks. split.
  - unfold chunks, split_text_by_tokens. fold tokens step.
    etrans; [apply split_loop_length|]. simpl.
    etrans; [apply range_length_le; unfold Py.len; lia|].
    unfold Py.len. lia.
  - intros chunk Hin. unfold chunks, split_text_by_tokens in Hin. fold tokens step in Hin.
    apply split_loop_origin in Hin as [[]|(start & Hstart & Hne & ->)].
    apply range_elements in Hstart as (k & -> & Hrange).
    exists k. cbv zeta. split; [lia|]. split; [done|]. split.
    + destruct (Py.slice tokens _ _); [done|]. unfold Py.len. simpl. lia.
    + apply slice_length_le; lia.
Qed.

End ChunkWindows.

Lemma split_text_by_tokens_chunks_bounded_witness :
  (length (@split_text_by_tokens Demo.char_tokenizer "ab cd" 3 1)
   <= length (@encode Demo.char_tokenizer "ab cd"))%nat.
Proof.
  refine (proj1 (@split_text_by_tokens_chunks_bounded Demo.char_tokenizer "ab cd" 3 1 _)).
  lia.
Defined.

Section ChunkerClampedStep.
Context `{Tokenizer}.

(** Property X3.
    When the overlap is not smaller than the chunk size, the step of the
    window is clamped to one token, and the splitter still covers the text:
    every token that is not white space lies in a window whose decoded
    and stripped text is not empty and is emitted. *)
Theorem split_text_by_tokens_covers_clamped
    (text : string) (chunk_size overlap : Z) (i : nat) (t : token) :
  0 < chunk_size -> chunk_size <= overlap ->
  encode text !! i = Some t -> non_whitespace t ->
  exists start,
    0 <= start <= Z.of_nat i /\ Z.of_nat i < start + chunk_size /\
    Py.slice (encode text) start (start + chunk_size) !! (i - Z.to_nat start)%nat = Some t /\
    Py.strip (decode (Py.slice (encode text) start (start + chunk_size))) <> "" /\
    In (Py.strip (decode (Py.slice (encode text) start (start + chunk_size))))
       (split_text_by_tokens text chunk_size overlap).
Proof.
  intros Hcs Hov Hi Ht. unfold split_text_by_tokens.
  set (tokens := encode text) in *.
  assert (Z.of_nat i < Py.len tokens) as Hlen.
  { apply lookup_lt_Some in Hi. unfold Py.len. lia. }
  rewrite (Z.max_r (chunk_size - overlap) 1) by lia.
  set (k := if Z.of_nat i <? chunk_size then 0%nat
            else Z.to_nat (Z.of_nat i - chunk_size + 1)).
  assert (0 <= Z.of_nat k * 1 <= Z.of_nat i /\ Z.of_nat i < Z.of_nat k * 1 + chunk_size
          /\ forall j : nat, (j < k)%nat -> Z.of_nat j * 1 + chunk_size < Py.len tokens)
    as (Hk1 & Hk2 & Hk3).
  { unfold k. destruct (Z.ltb_spec (Z.of_nat i) chunk_size) as [Hlt|Hge];
      (split; [lia|]; split; [lia|]; intros j Hj; lia). }
  destruct (range_split (Py.len tokens) 1 k) as [after Hrange]; [lia | lia |].
  exists (Z.of_nat k * 1).
  set (start := Z.of_nat k * 1) in *.
  set (window := Py.slice tokens start (start + chunk_size)).
  assert (window !! (i - Z.to_nat start)%nat = Some t) as Hw.
  { unfold window. rewrite slice_window_lookup by lia. done. }
  pose proof (decode_non_whitespace window _ t Hw Ht) as Hstrip.
  split; [lia|]. split; [lia|]. split; [done|]. split; [done|].
  rewrite Hrange. apply split_loop_emits.
  - apply List.Forall_forall. intros s Hs. apply in_map_iff in Hs as (j & <- & Hj).
    apply in_seq in Hj. rewrite Z.add_0_l. apply Hk3. lia.
  - fold window. intros E. by rewrite E in Hw.
  - done.
Qed.

End ChunkerClampedStep.

Lemma split_text_by_tokens_covers_clamped_witness :
  exists start,
    0 <= start <= 3 /\ 3 < start + 2 /\
    In (Py.strip (@decode Demo.char_tokenizer
          (Py.slice (@encode Demo.char_tokenizer "ab cd") start (start + 2))))
       (@split_text_by_tokens Demo.char_tokenizer "ab cd" 2 5).
Proof.
  destruct (@split_text_by_tokens_covers_clamped Demo.char_tokenizer "ab cd" 2 5 3 "c"%char)
    as (start & Hs1 & Hs2 & _ & _ & Hin).
  - lia.
  - lia.
  - reflexivity.
  - apply (@non_whitespace_byte Demo.char_tokenizer "c"%char "c"%char).
    + left. reflexivity.
    + reflexivity.
  - exists start. split; [exact Hs1|]. split; [exact Hs2 | exact Hin].
Defined.

(** ** When the splitter gives nothing *)

Lemma slice_subset {A} (l : list A) (lo hi : Z) (x : A) :
  In x (Py.slice l lo hi) -> In x l.
Proof.
  unfold Py.slice. intros Hin.
  apply list_elem_of_In in Hin. apply list_elem_of_In.
  by apply subseteq_take, subseteq_drop in Hin.
Qed.

Lemma WHITESPACE_sync : table_sync Py.WHITESPACE = true.
Proof. vm_compute. reflexivity. Qed.

Lemma table_sync_spec (table : list string) (c : ascii) (p q a r : string) :
  table_sync table = true -> In (String c p) table -> In q table ->
  q = a +:+ String c r -> a = "".
Proof.
  unfold table_sync. rewrite forallb_forall. intros Hsync Hp Hq ->.
  specialize (Hsync _ Hp). cbn beta iota in Hsync. rewrite forallb_forall in Hsync.
  specialize (Hsync _ Hq). destruct a as [|x a]; [done|]. exfalso.
  change (String x a +:+ String c r) with (String x (a +:+ String c r)) in Hsync.
  cbn beta iota in Hsync. apply negb_true_iff in Hsync.
  assert (existsb (Ascii.eqb c) (list_ascii_of_string (a +:+ String c r)) = true) as E.
  { apply existsb_exists. exists c. split; [|apply Ascii.eqb_refl].
    apply In_chars_app. right. by left. }
  by rewrite E in Hsync.
Qed.

(** Two runs of white space that share a stretch of bytes make one run. *)
Lemma whitespace_only_glue (a b c : string) :
  whitespace_only (a +:+ b) -> whitespace_only (b +:+ c) ->
  whitespace_only (a +:+ b +:+ c).
Proof.
  intros Hab Hbc. destruct b as [|h b].
  { rewrite app_empty_r in Hab. by apply made_of_app. }
  assert (exists p, In (String h p) Py.WHITESPACE) as [p Hp].
  { inversion Hbc as [|q s Hq Hs E]. destruct q as [|x q].
    - destruct (table_ok_nonempty_in _ "" WHITESPACE_ok Hq eq_refl).
    - simpl in E. injection E as -> _. by exists q. }
  remember (a +:+ String h b) as x eqn:Ex. revert a Ex.
  induction Hab as [|q s Hq Hs IH]; intros a Ex.
  - by destruct a.
  - symmetry in Ex.
    destruct (app_eq_app_str _ _ _ _ Ex) as [(r & -> & ->)|(r & Hr & -> & Er)].
    + rewrite app_assoc_str. constructor; [done|]. by apply IH.
    + destruct r as [|y r]; [done|]. simpl in Er. injection Er as <- _.
      by rewrite (table_sync_spec _ _ _ _ _ _ WHITESPACE_sync Hp Hq eq_refl).
Qed.

Section SplitterEmpty.
Context `{Tokenizer}.

(** When no chunk comes out, every window that the loop reaches holds
    white space only. *)
Lemma split_empty_window (text : string) (chunk_size overlap : Z) (k : nat) :
  let tokens := encode text in
  let step := Z.max (chunk_size - overlap) 1 in
  0 < chunk_size ->
  split_text_by_tokens text chunk_size overlap = [] ->
  (forall j : nat, (j < k)%nat -> Z.of_nat j * step + chunk_size < Py.len tokens) ->
  Z.of_nat k * step < Py.len tokens ->
  whitespace_only
    (decode_bytes (Py.slice tokens (Z.of_nat k * step) (Z.of_nat k * step + chunk_size))).
Proof.
  intros tokens step Hcs Hnil Hbefore Hk.
  set (start := Z.of_nat k * step). set (window := Py.slice tokens start _).
  apply decode_replace_blank. fold (decode window).
  destruct (decide (Py.strip (decode window) = "")) as [|Hne]; [done|]. exfalso.
  assert (0 < step) as Hstep by (unfold step; lia).
  destruct (range_split (Py.len tokens) step k Hstep Hk) as [after Hrange].
  assert (In (Py.strip (decode window)) (split_text_by_tokens text chunk_size overlap))
    as Hin; [|by rewrite Hnil in Hin].
  unfold split_text_by_tokens. fold tokens step. rewrite Hrange.
  apply split_loop_emits; [| |done].
  - apply List.Forall_forall. intros s Hs. apply in_map_iff in Hs as (j & <- & Hj).
    apply in_seq in Hj. rewrite Z.add_0_l. apply Hbefore. lia.
  - fold start. rewrite slice_window by (unfold start; lia).
    assert (0 < Z.min (start + chunk_size) (Py.len tokens) - start) as Hpos
      by (unfold start in *; lia).
    assert (Z.to_nat start < length tokens)%nat as Hlen
      by (unfold Py.len in Hk; unfold start; lia).
    destruct (drop (Z.to_nat start) tokens) as [|t rest] eqn:Ed.
    + apply (f_equal length) in Ed. rewrite length_drop in Ed. simpl in Ed. lia.
    + destruct (Z.to_nat (Z.min (start + chunk_size) (Py.len tokens) - start)) eqn:En;
        [lia | done].
Qed.

Lemma split_empty_prefix (text : string) (chunk_size overlap : Z) (k : nat) :
  let tokens := encode text in
  let step := Z.max (chunk_size - overlap) 1 in
  0 < chunk_size -> 0 <= overlap ->
  split_text_by_tokens text chunk_size overlap = [] ->
  (forall j : nat, (j < k)%nat -> Z.of_nat j * step + chunk_size < Py.len tokens) ->
  Z.of_nat k * step < Py.len tokens ->
  whitespace_only
    (decode_bytes
       (take (Z.to_nat (Z.min (Z.of_nat k * step + chunk_size) (Py.len tokens))) tokens)).
Proof.
  intros tokens step Hcs Hov Hnil. induction k as [|k IH]; intros Hbefore Hk.
  - pose proof (split_empty_window text chunk_size overlap 0 Hcs Hnil Hbefore Hk) as Hw.
    cbv zeta in Hw. fold tokens step in Hw.
    rewrite slice_window in Hw by lia. simpl in Hw.
    by rewrite Z.sub_0_r in Hw.
  - assert (0 < step <= chunk_size) as Hstep by (unfold step; lia).
    pose proof (Hbefore k ltac:(lia)) as Hfull.
    assert (whitespace_only (decode_bytes (take (Z.to_nat (Z.of_nat k * step + chunk_size))
                                             tokens))) as Hprev.
    { rewrite <- (Z.min_l (Z.of_nat k * step + chunk_size) (Py.len tokens)) by lia.
      apply IH; [intros j Hj; apply Hbefore; lia | nia]. }
    pose proof (split_empty_window text chunk_size overlap (S k) Hcs Hnil Hbefore Hk) as Hw.
    cbv zeta in Hw. fold tokens step in Hw.
    set (start := Z.of_nat (S k) * step) in *.
    set (stop := Z.min (start + chunk_size) (Py.len tokens)) in *.
    assert (Z.of_nat k * step + chunk_size = start + (chunk_size - step)) as Eprev
      by (unfold start; lia).
    rewrite slice_window in Hw by (unfold start in *; lia). fold stop in Hw.
    set (n0 := Z.to_nat (chunk_size - step)).
    set (n1 := Z.to_nat (stop - start)) in *.
    assert (n0 <= n1)%nat as Hn by (unfold n0, n1, stop; lia).
    rewrite Eprev in Hprev.
    replace (Z.to_nat (start + (chunk_size - step))) with (Z.to_nat start + n0)%nat in Hprev
      by (unfold n0, start; lia).
    rewrite <- take_take_drop, decode_bytes_app in Hprev.
    replace n1 with (n0 + (n1 - n0))%nat in Hw by lia.
    rewrite <- take_take_drop, decode_bytes_app in Hw.
    replace (Z.to_nat stop) with (Z.to_nat start + (n0 + (n1 - n0)))%nat
      by (unfold n1, stop, start in *; lia).
    rewrite <- take_take_drop, decode_bytes_app.
    rewrite <- (take_take_drop (drop _ _)), decode_bytes_app.
    by apply whitespace_only_glue.
Qed.

(** When no chunk comes out, the bytes of all the tokens are white space. *)
Lemma split_empty_blank (text : string) (chunk_size overlap : Z) :
  0 < chunk_size -> 0 <= overlap ->
  split_text_by_tokens text chunk_size overlap = [] ->
  whitespace_only (decode_bytes (encode text)).
Proof.
  intros Hcs Hov Hnil. set (tokens := encode text).
  set (step := Z.max (chunk_size - overlap) 1).
  assert (0 < step <= chunk_size) as Hstep by (unfold step; lia).
  destruct (decide (Py.len tokens = 0)) as [E|Hlen].
  { apply len_zero_nil in E. rewrite E. constructor. }
  assert (0 < Py.len tokens) as Hpos by (unfold Py.len in *; lia).
  assert (exists k : nat,
            (forall j : nat, (j < k)%nat -> Z.of_nat j * step + chunk_size < Py.len tokens) /\
            Z.of_nat k * step < Py.len tokens /\
            Py.len tokens <= Z.of_nat k * step + chunk_size) as (k & Hbefore & Hk & Hend).
  { destruct (Z.leb_spec (Py.len tokens) chunk_size) as [Hsmall|Hbig].
    - exists 0%nat. split; [intros j Hj; lia | lia].
    - set (a := Py.len tokens - chunk_size - 1).
      pose proof (Z.mul_div_le a step ltac:(lia)) as Hq1.
      pose proof (Z.mul_succ_div_gt a step ltac:(lia)) as Hq2.
      assert (0 <= a / step) as Hq0 by (apply Z.div_pos; unfold a; lia).
      exists (Z.to_nat (a / step + 1)). rewrite Z2Nat.id by lia.
      split; [|unfold a in *; nia].
      intros j Hj. assert (Z.of_nat j <= a / step) by lia. unfold a in *. nia. }
  pose proof (split_empty_prefix text chunk_size overlap k Hcs Hov Hnil Hbefore Hk) as Hw.
  cbv zeta in Hw. fold tokens step in Hw.
  rewrite Z.min_r in Hw by lia. rewrite take_ge in Hw; [done|]. unfold Py.len. lia.
Qed.

(** Property X4.
    For a positive chunk size and an overlap that is not negative, the
    splitter gives no chunk only for white space: the bytes of all the
    tokens of the text are then a run of white-space characters, the
    decoded tokens are blank, and no token is one that carries something
    else than white space. *)
Theorem split_text_by_tokens_nil_blank (text : string) (chunk_size overlap : Z) :
  0 < chunk_size -> 0 <= overlap ->
  split_text_by_tokens text chunk_size overlap = [] ->
  whitespace_only (decode_bytes (encode text)) /\
  Py.strip (decode (encode text)) = "" /\
  forall t, In t (encode text) -> ~ non_whitespace t.
Proof.
  intros Hcs Hov Hnil.
  pose proof (split_empty_blank text chunk_size overlap Hcs Hov Hnil) as Hblank.
  split; [done|]. split.
  - unfold decode. rewrite decode_replace_whitespace by done.
    by apply strip_whitespace_only.
  - intros t Hin Ht. apply list_elem_of_In, list_elem_of_lookup in Hin as [i Hi].
    rewrite (decode_bytes_middle _ i t Hi) in Hblank. by apply Ht in Hblank.
Qed.

End SplitterEmpty.

Lemma split_text_by_tokens_nil_blank_witness :
  whitespace_only
    (@decode_bytes Demo.char_tokenizer
       (@encode Demo.char_tokenizer (" " +:+ Utf8.encode_char 0x3000))).
Proof.
  refine (proj1 (@split_text_by_tokens_nil_blank Demo.char_tokenizer
                   (" " +:+ Utf8.encode_char 0x3000) 4 1 _ _ _)).
  - lia.
  - lia.
  - vm_compute. reflexivity.
Defined.

(** ** Failures of an ingestion *)

Lemma add_raise_same name ids documents embeddings metadatas (w w' : world) (e : exn) :
  Chroma.add name ids documents embeddings metadatas w = (Raise e, w') -> w' = w.
Proof.
  unfold Chroma.add.
  repeat (match goal with |- context [if ?b then _ else _] => destruct b end;
          [by intros [= _ <-]|]).
  done.
Qed.

Section IngestionFailures.
Context `{Tokenizer} `{Services}.

(** Property X5.
    An ingestion is all or nothing: when [ingest_source_text] raises,
    whatever the reason (blank text, no chunk, no client, a failure of the
    embedding service, vectors that the store refuses), every collection
    holds the records it held before, and at most one request was sent, to
    the embedding service. *)
Theorem ingest_source_text_all_or_nothing
    (session_id source_name source_type text : string) (w w' : world) (e : exn) :
  ingest_source_text session_id source_name source_type text w = (Raise e, w') ->
  same_records w w' /\
  (calls w' = calls w \/
   exists chunks, calls w' = calls w ++ [EmbeddingsCreate EMBEDDING_MODEL chunks]).
Proof.
  unfold ingest_source_text.
  destruct (negb (Py.truthy (Py.strip text))).
  { intros [= _ <-]. split; [done | by left]. }
  set (chunks := split_text_by_tokens text MAX_CHUNK_TOKENS CHUNK_OVERLAP_TOKENS).
  destruct chunks as [|c cs] eqn:Ec; cbn [Py.nonempty negb].
  { intros [= _ <-]. split; [done | by left]. }
  rewrite <- Ec. unfold mbind at 1. rewrite bind_run, get_openai_client_run.
  destruct openai_new as [e0|[]].
  { intros [= _ <-]. split; [done | by left]. }
  rewrite bind_run, embed_texts_run by (by rewrite Ec).
  set (w1 := log_call (EmbeddingsCreate EMBEDDING_MODEL chunks) w).
  assert (same_records w w1) as H1 by done.
  destruct (embeddings_create _ _ _) as [e1|embeddings].
  { intros [= _ <-]. split; [done|]. right. by exists chunks. }
  rewrite bind_run, get_chroma_collection_run.
  set (w2 := ensure_collection (collection_name_of session_id) w1).
  assert (same_records w w2) as H2.
  { intros name. unfold w2. by rewrite records_ensure. }
  assert (calls w2 = calls w ++ [EmbeddingsCreate EMBEDDING_MODEL chunks]) as Hcalls.
  { unfold w2. by rewrite calls_ensure. }
  rewrite bind_run, count_run. unfold mbind at 1. rewrite bind_run.
  destruct (Chroma.add _ _ _ _ _ w2) as [[[]|e2] w3] eqn:Eadd; [done|].
  apply add_raise_same in Eadd as ->. intros [= _ <-].
  split; [done|]. right. by exists chunks.
Qed.

(** Property X6.
    Without a client there is no request: when [OpenAI()] fails, an
    ingestion of a text that has chunks and a question to a session that
    has records raise that failure and leave the world as it was. *)
Theorem no_client_no_request (e : exn) (w : world) :
  openai_new = inl e ->
  (forall session_id source_name source_type text,
     Py.strip text <> "" ->
     split_text_by_tokens text MAX_CHUNK_TOKENS CHUNK_OVERLAP_TOKENS <> [] ->
     ingest_source_text session_id source_name source_type text w = (Raise e, w)) /\
  (forall session_id question top_k,
     session_count session_id w <> 0 ->
     answer_question session_id question top_k w = (Raise e, w)).
Proof.
  intros Hclient. split.
  - intros session_id source_name source_type text Htext Hchunks.
    unfold ingest_source_text.
    rewrite (truthy_true _ Htext), (nonempty_true _ Hchunks). cbn [negb].
    unfold mbind at 1. by rewrite bind_run, get_openai_client_run, Hclient.
  - intros session_id question top_k Hcount. unfold session_count in Hcount.
    assert (Chroma.records (collection_name_of session_id) w <> []) as Hne.
    { intros E. apply Hcount. by rewrite E. }
    unfold answer_question.
    rewrite bind_run, get_chroma_collection_run, (ensure_existing _ _ Hne).
    rewrite bind_run, count_run.
    destruct (Z.eqb_spec (Py.len (Chroma.records (collection_name_of session_id) w)) 0)
      as [E|_]; [done|].
    by rewrite bind_run, get_openai_client_run, Hclient.
Qed.

(** Property X7.
    With a tokenizer that gives the text back ([decode(encode(text))] is
    [text]), a text that passes the guard of the blank text always has a
    chunk.  So the guard that raises "No chunks were created from this
    source." never fires, and what [ingest_source_text] does after its two
    guards is to create the client: when that fails, its failure is the
    one that comes out, and the world is as it was. *)
Theorem ingest_source_text_some_chunk
    (session_id source_name source_type text : string) (w : world) :
  decode (encode text) = text ->
  Py.strip text <> "" ->
  split_text_by_tokens text MAX_CHUNK_TOKENS CHUNK_OVERLAP_TOKENS <> [] /\
  (forall e, openai_new = inl e ->
     ingest_source_text session_id source_name source_type text w = (Raise e, w)).
Proof.
  intros Hround Htext.
  assert (split_text_by_tokens text MAX_CHUNK_TOKENS CHUNK_OVERLAP_TOKENS <> []) as Hchunks.
  { intros Hnil. apply Htext.
    apply split_empty_blank in Hnil; [|done..].
    unfold decode in Hround. rewrite decode_replace_whitespace in Hround by done.
    rewrite Hround in Hnil. by apply strip_whitespace_only. }
  split; [done|]. intros e Hclient. unfold ingest_source_text.
  rewrite (truthy_true _ Htext), (nonempty_true _ Hchunks). cbn [negb].
  unfold mbind at 1. by rewrite bind_run, get_openai_client_run, Hclient.
Qed.

End IngestionFailures.

Lemma ingest_source_text_all_or_nothing_witness :
  exists w',
    same_records Demo.scenario_world w' /\
    calls w' = calls Demo.scenario_world
               ++ [EmbeddingsCreate "text-embedding-3-small" ["Grass is green."]].
Proof.
  pose (S := with_embeddings Demo.services
               (fun _ _ _ => inl (LibraryError "Rate limit reached."))).
  assert ((@ingest_source_text Demo.char_tokenizer S "s1" "doc2" "txt" "Grass is green."
             Demo.scenario_world).1 = Raise (LibraryError "Rate limit reached.")) as Hout
    by (vm_compute; reflexivity).
  destruct (@ingest_source_text Demo.char_tokenizer S "s1" "doc2" "txt" "Grass is green."
              Demo.scenario_world) as [out w'] eqn:Erun.
  cbn [fst] in Hout. subst out.
  exists w'.
  destruct (@ingest_source_text_all_or_nothing Demo.char_tokenizer S
              "s1" "doc2" "txt" "Grass is green." Demo.scenario_world w' _ Erun)
    as [Hsame Hcalls].
  split; [exact Hsame|].
  apply (f_equal snd) in Erun. cbn [snd] in Erun. rewrite <- Erun. reflexivity.
Defined.

Lemma no_client_no_request_witness :
  @ingest_source_text Demo.char_tokenizer
    (with_openai Demo.services (inl (LibraryError "The api_key client option must be set.")))
    "s1" "doc2" "txt" "Grass is green." Demo.scenario_world
  = (Raise (LibraryError "The api_key client option must be set."), Demo.scenario_world).
Proof.
  refine (proj1 (@no_client_no_request Demo.char_tokenizer
                   (with_openai Demo.services
                      (inl (LibraryError "The api_key client option must be set.")))
                   _ Demo.scenario_world _) "s1" "doc2" "txt" "Grass is green." _ _).
  - reflexivity.
  - vm_compute. discriminate.
  - vm_compute. discriminate.
Defined.

Lemma ingest_source_text_some_chunk_witness :
  @split_text_by_tokens Demo.char_tokenizer "Grass is green."
    MAX_CHUNK_TOKENS CHUNK_OVERLAP_TOKENS <> [].
Proof.
  refine (proj1 (@ingest_source_text_some_chunk Demo.char_tokenizer Demo.services
                   "s1" "doc2" "txt" "Grass is green." empty_world _ _)).
  - vm_compute. reflexivity.
  - vm_compute. discriminate.
Defined.

(** ** An ingestion followed by a listing *)

Section IngestThenList.
Context `{Tokenizer} `{Services}.

Lemma ingest_source_text_run
    (session_id source_name source_type text : string) (w : world)
    (embeddings : list vector) :
  let name := collection_name_of session_id in
  let old := Chroma.records name w in
  let chunks := split_text_by_tokens text MAX_CHUNK_TOKENS CHUNK_OVERLAP_TOKENS in
  let added :=
    Chroma.build (chunk_ids (Py.len old) (Py.len chunks)) chunks embeddings
      (map (chunk_metadata source_name source_type) (Py.range 0 (Py.len chunks) 1)) in
  well_numbered old ->
  Py.strip text <> "" ->
  chunks <> [] ->
  openai_new = inr tt ->
  embeddings_create (calls w) EMBEDDING_MODEL chunks = inr embeddings ->
  length embeddings = length chunks ->
  Chroma.widths_agree (map rec_embedding old ++ embeddings) = true ->
  ingest_source_text session_id source_name source_type text w
  = (Return (Py.len chunks),
     set_collections (insert name (old ++ added))
       (ensure_collection name (log_call (EmbeddingsCreate EMBEDDING_MODEL chunks) w)))
  /\ length added = length chunks.
Proof.
  intros name old chunks added Hold Htext Hchunks Hclient Hembed Hlen Hwidth.
  set (metadatas := map (chunk_metadata source_name source_type)
                      (Py.range 0 (Py.len chunks) 1)) in *.
  set (ids := chunk_ids (Py.len old) (Py.len chunks)) in *.
  set (w2 := ensure_collection name (log_call (EmbeddingsCreate EMBEDDING_MODEL chunks) w)).
  assert (Chroma.records name w2 = old) as Hrec2.
  { unfold w2. by rewrite records_ensure, records_log_call. }
  assert (length metadatas = length chunks) as Hmeta.
  { unfold metadatas. by rewrite Py_len_nat, range_from_zero, !length_map, length_seq. }
  assert (length ids = length chunks) as Hids by apply chunk_ids_length.
  assert (map rec_id added = ids) as Hbuilt by (apply build_ids; lia).
  pose proof (add_numbered_run name chunks embeddings metadatas w2) as Hadd.
  cbv zeta in Hadd. rewrite Hrec2 in Hadd. specialize (Hadd Hold Hlen Hmeta Hwidth).
  fold ids added in Hadd. split.
  - unfold ingest_source_text. fold chunks.
    rewrite (truthy_true _ Htext), (nonempty_true _ Hchunks). cbn [negb].
    unfold mbind at 1. rewrite bind_run, get_openai_client_run, Hclient.
    rewrite bind_run, embed_texts_run, Hembed by done.
    rewrite bind_run, get_chroma_collection_run. fold name w2.
    rewrite bind_run, count_run, Hrec2. fold ids metadatas.
    unfold mbind at 1. rewrite bind_run, Hadd. reflexivity.
  - rewrite <- Hids, <- Hbuilt. by rewrite length_map.
Qed.

(** Property X8.
    After an ingestion that succeeds, the listing of the session holds the
    label of the new source and every label it held before, and the
    markdown of the sources is the bullet list of that listing. *)
Theorem ingest_then_list_sources
    (session_id source_name source_type text : string) (w : world)
    (embeddings : list vector) :
  let name := collection_name_of session_id in
  let old := Chroma.records name w in
  let chunks := split_text_by_tokens text MAX_CHUNK_TOKENS CHUNK_OVERLAP_TOKENS in
  well_numbered old ->
  Py.strip text <> "" ->
  chunks <> [] ->
  openai_new = inr tt ->
  embeddings_create (calls w) EMBEDDING_MODEL chunks = inr embeddings ->
  length embeddings = length chunks ->
  Chroma.widths_agree (map rec_embedding old ++ embeddings) = true ->
  let w' := (ingest_source_text session_id source_name source_type text w).2 in
  exists labels,
    (list_sources session_id w').1 = Return labels /\
    In (source_name +:+ " (" +:+ source_type +:+ ")") labels /\
    (forall before label,
       (list_sources session_id w).1 = Return before -> In label before -> In label labels) /\
    (sources_markdown session_id w').1 = Return (bullet_lines labels).
Proof.
  intros name old chunks Hold Htext Hchunks Hclient Hembed Hlen Hwidth w'.
  destruct (ingest_source_text_run session_id source_name source_type text w embeddings
              Hold Htext Hchunks Hclient Hembed Hlen Hwidth) as [Hrun Hadded].
  fold name old chunks in Hrun, Hadded.
  set (added := Chroma.build _ _ _ _) in *.
  assert (Chroma.records name w' = old ++ added) as Hrec.
  { unfold w'. rewrite Hrun. cbn [snd]. rewrite records_insert.
    by destruct (decide (name = name)). }
  assert (exists r, added !! 0%nat = Some r) as [r0 Hr0].
  { apply lookup_lt_is_Some. rewrite Hadded. destruct chunks; [done | simpl; lia]. }
  assert ((Py.len (old ++ added) =? 0) = false) as Hlen0.
  { apply Z.eqb_neq. rewrite Py_len_nat, length_app.
    apply lookup_lt_Some in Hr0. lia. }
  eexists. split.
  { rewrite list_sources_run. fold name. rewrite Hrec, Hlen0. reflexivity. }
  split; [|split].
  - apply sorted_In, labels_of_records.
    pose proof Hr0 as Hin0. apply list_elem_of_lookup_2, list_elem_of_In in Hin0.
    apply build_lookup in Hr0 as (_ & _ & _ & m & Hm & Hrm).
    rewrite Py_len_nat in Hm. apply chunk_metadatas_lookup in Hm as ->.
    exists r0, (chunk_metadata source_name source_type (Z.of_nat 0)).
    split; [apply in_or_app; by right|]. split; [done|].
    by rewrite source_label_chunk_metadata.
  - intros before label Hbefore Hin. rewrite list_sources_run in Hbefore.
    fold name old in Hbefore. cbn [fst] in Hbefore. injection Hbefore as <-.
    destruct (Py.len old =? 0); [done|].
    apply sorted_In, labels_of_records in Hin as (r & meta & Hr & Hmeta & ->).
    apply sorted_In, labels_of_records. exists r, meta.
    split; [apply in_or_app; by left | done].
  - unfold sources_markdown. rewrite bind_run, list_sources_run. fold name.
    rewrite Hrec, Hlen0. cbn [fst snd].
    set (labels := sorted _).
    assert (labels <> []) as Hne.
    { intros E.
      assert (In (source_label (chunk_metadata source_name source_type 0)) labels) as Hin.
      { apply sorted_In, labels_of_records.
        pose proof Hr0 as Hin0. apply list_elem_of_lookup_2, list_elem_of_In in Hin0.
        apply build_lookup in Hr0 as (_ & _ & _ & m & Hm & Hrm).
        rewrite Py_len_nat in Hm. apply chunk_metadatas_lookup in Hm as ->.
        exists r0, (chunk_metadata source_name source_type (Z.of_nat 0)).
        split; [apply in_or_app; by right | done]. }
      by rewrite E in Hin. }
    by rewrite (nonempty_true _ Hne).
Qed.

End IngestThenList.

Lemma ingest_then_list_sources_witness :
  exists labels,
    (list_sources "s1"
       (@ingest_source_text Demo.char_tokenizer Demo.services
          "s1" "doc2" "txt" "Grass is green." Demo.scenario_world).2).1 = Return labels /\
    In "doc2 (txt)" labels.
Proof.
  destruct (@ingest_then_list_sources Demo.char_tokenizer Demo.services
              "s1" "doc2" "txt" "Grass is green." Demo.scenario_world [[1%Q; 0%Q]])
    as (labels & Hrun & Hin & _).
  - vm_compute. reflexivity.
  - vm_compute. discriminate.
  - vm_compute. discriminate.
  - reflexivity.
  - vm_compute. reflexivity.
  - vm_compute. reflexivity.
  - vm_compute. reflexivity.
  - exists labels. split; [exact Hrun | exact Hin].
Defined.

(** ** Operations that only read *)

#[global] Instance same_records_preorder : PreOrder same_records.
Proof.
  split.
  - by intros w name.
  - intros w1 w2 w3 H12 H23 name. by rewrite H23, H12.
Qed.

Lemma same_records_log c : steps same_records (modify_world (log_call c)).
Proof. by intros w name. Qed.

Lemma same_records_get_or_create name :
  steps same_records (Chroma.get_or_create_collection name).
Proof.
  intros w name'. rewrite get_or_create_collection_run. apply records_ensure.
Qed.

Lemma same_records_count name : steps same_records (Chroma.count name).
Proof. by intros w name'. Qed.

Lemma same_records_get_metadatas name : steps same_records (Chroma.get_metadatas name).
Proof. by intros w name'. Qed.

Lemma same_records_query `{Services} name q k : steps same_records (Chroma.query name q k).
Proof. intros w name'. by rewrite query_run. Qed.

#[local] Hint Resolve same_records_log same_records_get_or_create same_records_count
  same_records_get_metadatas same_records_query : frame.

Section ReadOnly.
Context `{Services}.

Lemma same_records_embed_texts texts model : steps same_records (embed_texts texts model).
Proof. unfold embed_texts. frame. Qed.

Lemma same_records_get_openai_client : steps same_records get_openai_client.
Proof. apply steps_lift, _. Qed.

Hint Resolve same_records_embed_texts same_records_get_openai_client : frame.

Lemma same_records_list_sources s : steps same_records (list_sources s).
Proof. unfold list_sources, get_chroma_collection. frame. Qed.

Lemma same_records_answer_question s question top_k :
  steps same_records (answer_question s question top_k).
Proof.
  unfold answer_question, get_chroma_collection. frame.
  destruct a1 as [|q qs]; frame.
  destruct (build_context _ _ _). frame.
Qed.

Hint Resolve same_records_list_sources same_records_answer_question : frame.

Lemma same_records_sources_markdown s : steps same_records (sources_markdown s).
Proof. unfold sources_markdown. frame. Qed.

Lemma same_records_ask_question s question : steps same_records (ask_question s question).
Proof. unfold ask_question. frame. Qed.

(** Property X9.
    Listing the sources and asking a question only read the store: after
    [list_sources], [sources_markdown], [answer_question] and
    [ask_question], whatever they return or raise, every collection holds
    the records it held, and the two listings send no request. *)
Theorem listing_and_asking_read_only
    (session_id question : string) (top_k : Z) (w : world) :
  same_records w (list_sources session_id w).2 /\
  same_records w (sources_markdown session_id w).2 /\
  same_records w (answer_question session_id question top_k w).2 /\
  same_records w (ask_question session_id question w).2 /\
  calls (list_sources session_id w).2 = calls w /\
  calls (sources_markdown session_id w).2 = calls w.
Proof.
  split; [apply same_records_list_sources|].
  split; [apply same_records_sources_markdown|].
  split; [apply same_records_answer_question|].
  split; [apply same_records_ask_question|].
  split.
  - rewrite list_sources_run. apply calls_ensure.
  - destruct (sources_markdown_run session_id w) as [md ->]. apply calls_ensure.
Qed.

End ReadOnly.

(** ** The IDs of the stored records *)

Section RecordIds.
Context `{Tokenizer} `{Services}.

(** Property X10.
    In every world that the operations reach from the empty store, one
    after the other, the record at position [i] of a collection has the ID
    [doc_i]; hence no two records of a collection share their ID. *)
Theorem reachable_ids_unique (ops : list (string * operation)) (name : string) :
  let coll := Chroma.records name (perform_all ops empty_world) in
  List.NoDup (map rec_id coll) /\
  forall (i : nat) (r : record),
    coll !! i = Some r -> rec_id r = "doc_" +:+ Py.str_of_int (Z.of_nat i).
Proof.
  intros coll. pose proof (reachable_all_numbered ops name) as Hnum.
  fold coll in Hnum. unfold well_numbered in Hnum. split.
  - rewrite Hnum. apply chunk_ids_NoDup.
  - intros i r Hi.
    assert (map rec_id coll !! i = Some (rec_id r)) as Hid
      by (by rewrite list_lookup_fmap, Hi).
    rewrite Hnum in Hid. by apply chunk_ids_lookup in Hid as [-> _].
Qed.

End RecordIds.

(** ** Nothing is lost without a clear *)

#[global] Instance only_appends_preorder : PreOrder only_appends.
Proof.
  split.
  - intros w Hw. split; [done|]. by intros name.
  - intros w1 w2 w3 H12 H23 H1. destruct (H12 H1) as [H2 Hp12].
    destruct (H23 H2) as [H3 Hp23]. split; [done|].
    intros name. etrans; [apply Hp12 | apply Hp23].
Qed.

Lemma same_records_only_appends (w w' : world) : same_records w w' -> only_appends w w'.
Proof.
  intros Hsame Hw. split.
  - intros name. rewrite Hsame. apply Hw.
  - intros name. by rewrite Hsame.
Qed.

Lemma steps_same_records_only_appends {A} (m : M A) :
  steps same_records m -> steps only_appends m.
Proof. intros Hm w. apply same_records_only_appends, Hm. Qed.

Lemma add_numbered_prefix (name : string) (documents : list string)
    (embeddings : list vector) (metadatas : list (gmap string meta_value))
    (w : world) (name' : string) :
  all_numbered w ->
  Chroma.records name' w `prefix_of`
    Chroma.records name'
      (Chroma.add name
         (chunk_ids (Py.len (Chroma.records name w)) (Py.len documents))
         documents embeddings metadatas w).2.
Proof.
  intros Hall.
  set (old := Chroma.records name w).
  set (ids := chunk_ids (Py.len old) (Py.len documents)).
  assert (length ids = length documents) as Hids by apply chunk_ids_length.
  unfold Chroma.add. fold old. rewrite Hids.
  destruct (Nat.eqb_spec (length documents) (length documents)) as [_|]; [|done].
  destruct (Nat.eqb_spec (length embeddings) (length documents)) as [Hemb|]; [|done].
  destruct (Nat.eqb_spec (length metadatas) (length documents)) as [Hmeta|]; [|done].
  cbn [andb negb].
  destruct (negb (bool_decide _)); [done|].
  destruct (negb (Chroma.widths_agree _)); [done|].
  cbn [snd]. rewrite records_insert.
  destruct (decide (name = name')) as [<-|Hne]; [|done].
  assert (map rec_id (Chroma.build ids documents embeddings metadatas) = ids) as Hbuilt.
  { apply build_ids; lia. }
  rewrite fold_put_fresh.
  - by apply prefix_app_r.
  - rewrite Hbuilt. apply chunk_ids_NoDup.
  - intros r Hr. pose proof (Hall name) as Hold. unfold well_numbered in Hold.
    fold old in Hold. rewrite Hold.
    apply chunk_ids_fresh with (m := length documents).
    change (In (rec_id r) ids). rewrite <- Hbuilt. by apply in_map.
Qed.

Lemma only_appends_count_add {B} name documents embeddings metadatas (k : M B) :
  steps only_appends k ->
  steps only_appends
    (Chroma.count name ≫= fun existing_count =>
     Chroma.add name (chunk_ids existing_count (Py.len documents))
       documents embeddings metadatas ≫= fun _ => k).
Proof.
  intros Hk w Hall. rewrite bind_run, count_run, bind_run.
  pose proof (add_numbered_keeps name documents embeddings metadatas w Hall) as Hkeep.
  pose proof (fun name' =>
    add_numbered_prefix name documents embeddings metadatas w name' Hall) as Hpre.
  destruct (Chroma.add _ _ _ _ _ w) as [[[]|e] w']; simpl in *; [|done].
  destruct (Hk w' Hkeep) as [Hnum Hpre']. split; [done|].
  intros name'. etrans; [apply Hpre | apply Hpre'].
Qed.

Section OnlyAppends.
Context `{Tokenizer} `{Services}.

Lemma only_appends_ingest_source_text s source_name source_type text :
  steps only_appends (ingest_source_text s source_name source_type text).
Proof.
  unfold ingest_source_text, get_chroma_collection.
  do 2 (apply steps_if; [apply steps_raise, _|]).
  apply steps_bind; [apply _ | apply steps_same_records_only_appends,
                                 same_records_get_openai_client | intros _].
  apply steps_bind; [apply _ | apply steps_same_records_only_appends,
                                 same_records_embed_texts | intros embeddings].
  apply steps_with_collection;
    [apply _ | apply steps_same_records_only_appends, same_records_get_or_create |].
  apply only_appends_count_add. apply steps_ret, _.
Qed.

Lemma only_appends_sources_markdown s : steps only_appends (sources_markdown s).
Proof. apply steps_same_records_only_appends, same_records_sources_markdown. Qed.

Hint Resolve only_appends_ingest_source_text only_appends_sources_markdown : frame.

Lemma only_appends_log c : steps only_appends (modify_world (log_call c)).
Proof. apply steps_same_records_only_appends, same_records_log. Qed.

Hint Resolve only_appends_log : frame.

Lemma perform_only_appends (s : string) (op : operation) (w : world) :
  is_clear op = false -> only_appends w (perform s op w).
Proof.
  destruct op; simpl; intros Hop; try done.
  - apply only_appends_ingest_source_text.
  - apply same_records_only_appends, same_records_list_sources.
  - apply same_records_only_appends, same_records_answer_question.
  - assert (steps only_appends (ingest_website s url)) as Hs
      by (unfold ingest_website; frame). apply Hs.
  - assert (steps only_appends (ingest_youtube s url)) as Hs
      by (unfold ingest_youtube; frame). apply Hs.
  - assert (steps only_appends (ingest_uploaded_file s file_obj)) as Hs
      by (unfold ingest_uploaded_file; destruct file_obj; frame). apply Hs.
  - apply only_appends_sources_markdown.
  - apply same_records_only_appends, same_records_ask_question.
Qed.

(** Property X11.
    Apart from the two clear operations, no operation removes, moves or
    changes a stored record: in a numbered world, after any sequence of
    the other operations, of any sessions and whatever they return or
    raise, every collection begins with the records it held. *)
Theorem records_only_grow (ops : list (string * operation)) (w : world) (name : string) :
  Forall (fun so => is_clear so.2 = false) ops ->
  all_numbered w ->
  Chroma.records name w `prefix_of` Chroma.records name (perform_all ops w) /\
  Py.len (Chroma.records name w) <= Py.len (Chroma.records name (perform_all ops w)).
Proof.
  intros Hops Hw.
  assert (only_appends w (perform_all ops w)) as Hgrow.
  { clear Hw. revert w. induction Hops as [|[s op] ops Hop _ IH]; intros w; [reflexivity|].
    unfold perform_all in *. simpl. etrans; [by apply perform_only_appends | apply IH]. }
  destruct (Hgrow Hw) as [_ Hpre]. split; [apply Hpre|].
  destruct (Hpre name) as [k ->]. rewrite !Py_len_nat, length_app. lia.
Qed.

End OnlyAppends.

Lemma records_only_grow_witness :
  Chroma.records (collection_name_of "s1") Demo.scenario_world
  `prefix_of`
  Chroma.records (collection_name_of "s1")
    (@perform_all Demo.char_tokenizer Demo.services
       [("s1", Ingest "doc2" "txt" "Grass is green."); ("s2", AskQuestion "Why?")]
       Demo.scenario_world).
Proof.
  refine (proj1 (@records_only_grow Demo.char_tokenizer Demo.services
                   [("s1", Ingest "doc2" "txt" "Grass is green."); ("s2", AskQuestion "Why?")]
                   Demo.scenario_world (collection_name_of "s1") _ _)).
  - repeat constructor.
  - exact (@reachable_all_numbered Demo.char_tokenizer Demo.services
             [("s1", Ingest "doc1" "txt" "The sky is blue. Grass is green.")]).
Defined.

(** ** The metadata of the stored records *)

#[global] Instance keeps_described_preorder ok : PreOrder (keeps_described ok).
Proof. split; unfold keeps_described; [intros w | intros w1 w2 w3]; tauto. Qed.

Lemma same_records_keeps_described ok (w w' : world) :
  same_records w w' -> keeps_described ok w w'.
Proof. intros Hsame Hw name r. rewrite Hsame. apply Hw. Qed.

Lemma steps_same_records_keeps_described ok {A} (m : M A) :
  steps same_records m -> steps (keeps_described ok) m.
Proof. intros Hm w. apply same_records_keeps_described, Hm. Qed.

Lemma keeps_described_delete ok name :
  steps (keeps_described ok) (Chroma.delete_collection name).
Proof.
  intros w Hall name' r. unfold Chroma.delete_collection.
  destruct (collections w !! name) eqn:E; [|apply Hall]. simpl.
  unfold Chroma.records. simpl. destruct (decide (name = name')) as [<-|Hne].
  - by rewrite lookup_delete_eq.
  - rewrite lookup_delete_ne by done. apply (Hall name').
Qed.

Lemma put_Forall (P : record -> Prop) (r : record) (coll : list record) :
  List.Forall P coll -> P r -> List.Forall P (Chroma.put r coll).
Proof.
  intros Hcoll Hr. induction Hcoll as [|r0 coll Hr0 Hcoll IH]; simpl.
  - by constructor.
  - destruct (String.eqb (rec_id r0) (rec_id r)); by constructor.
Qed.

Lemma fold_put_Forall (P : record -> Prop) (new old : list record) :
  List.Forall P old -> List.Forall P new ->
  List.Forall P (fold_left (fun c r => Chroma.put r c) new old).
Proof.
  intros Hold Hnew. revert old Hold.
  induction Hnew as [|r new Hr Hnew IH]; intros old Hold; simpl; [done|].
  apply IH. by apply put_Forall.
Qed.

Lemma build_described ok (ids documents : list string) (embeddings : list vector)
    (source_name source_type : string) (n : nat) :
  ok source_type ->
  List.Forall (described_by ok)
    (Chroma.build ids documents embeddings
       (map (chunk_metadata source_name source_type) (Py.range 0 (Z.of_nat n) 1))).
Proof.
  intros Hok. apply List.Forall_forall. intros r Hr.
  apply list_elem_of_In, list_elem_of_lookup in Hr as [i Hi].
  apply build_lookup in Hi as (_ & _ & _ & m & Hm & Hrm).
  apply chunk_metadatas_lookup in Hm as ->.
  exists source_name, source_type, (Z.of_nat i). split; [done|]. split; [done | lia].
Qed.

Lemma keeps_described_add ok name ids documents embeddings
    (source_name source_type : string) (n : nat) :
  ok source_type ->
  steps (keeps_described ok)
    (Chroma.add name ids documents embeddings
       (map (chunk_metadata source_name source_type) (Py.range 0 (Z.of_nat n) 1))).
Proof.
  intros Hok w Hall. unfold Chroma.add.
  repeat (match goal with |- context [if ?b then _ else _] => destruct b end; [done|]).
  cbn [snd]. intros name' r. rewrite records_insert.
  destruct (decide (name = name')) as [<-|Hne]; [|apply Hall].
  revert r. apply List.Forall_forall. apply fold_put_Forall.
  - apply List.Forall_forall. apply Hall.
  - by apply build_described.
Qed.

Section Described.
Context `{Tokenizer} `{Services}.
Context (ok : string -> Prop).

Lemma keeps_described_ingest_source_text s source_name source_type text :
  ok source_type ->
  steps (keeps_described ok) (ingest_source_text s source_name source_type text).
Proof.
  intros Hok. unfold ingest_source_text, get_chroma_collection.
  do 2 (apply steps_if; [apply steps_raise, _|]).
  apply steps_bind; [apply _ | apply steps_same_records_keeps_described,
                                 same_records_get_openai_client | intros _].
  apply steps_bind; [apply _ | apply steps_same_records_keeps_described,
                                 same_records_embed_texts | intros embeddings].
  apply steps_with_collection;
    [apply _ | apply steps_same_records_keeps_described, same_records_get_or_create |].
  apply steps_bind; [apply _ | apply steps_same_records_keeps_described,
                                 same_records_count | intros existing_count].
  apply steps_bind; [apply _ | | intros _; apply steps_ret, _].
  rewrite Py_len_nat. by apply keeps_described_add.
Qed.

Lemma keeps_described_clear_database s : steps (keeps_described ok) (clear_database s).
Proof.
  unfold clear_database.
  apply steps_bind; [apply _ | | intros _].
  - apply steps_try; [apply _ | apply keeps_described_delete | intros e; apply steps_ret, _].
  - apply steps_bind; [apply _ | | intros _; apply steps_ret, _].
    apply steps_same_records_keeps_described, same_records_get_or_create.
Qed.

Lemma keeps_described_sources_markdown s : steps (keeps_described ok) (sources_markdown s).
Proof. apply steps_same_records_keeps_described, same_records_sources_markdown. Qed.

Lemma keeps_described_log c : steps (keeps_described ok) (modify_world (log_call c)).
Proof. apply steps_same_records_keeps_described, same_records_log. Qed.

End Described.

Lemma steps_raise_bind (P : relation world) `{!PreOrder P} {A B} (e : exn) (f : A -> M B) :
  steps P (raise e ≫= f).
Proof. intros w. rewrite bind_run. reflexivity. Qed.

Section DescribedEntryPoints.
Context `{Tokenizer} `{Services}.
Context (ok : string -> Prop).

Hint Resolve keeps_described_sources_markdown keeps_described_log
  keeps_described_clear_database : frame.

Lemma keeps_described_ingest_website s url :
  ok "web" -> steps (keeps_described ok) (ingest_website s url).
Proof.
  intros Hok. unfold ingest_website.
  pose proof (fun text => keeps_described_ingest_source_text ok s url "web" text Hok).
  frame.
Qed.

Lemma keeps_described_ingest_youtube s url :
  ok "youtube" -> steps (keeps_described ok) (ingest_youtube s url).
Proof.
  intros Hok. unfold ingest_youtube.
  pose proof (fun text => keeps_described_ingest_source_text ok s url "youtube" text Hok).
  frame.
Qed.

Lemma keeps_described_ingest_uploaded_file s file_obj :
  ok "pdf" -> ok "docx" -> ok "txt" ->
  steps (keeps_described ok) (ingest_uploaded_file s file_obj).
Proof.
  intros Hpdf Hdocx Htxt. unfold ingest_uploaded_file.
  destruct file_obj as [file_path|]; [|frame].
  apply steps_try; [apply _ | | intros e; frame].
  apply steps_bind; [apply _ | frame | intros w0].
  apply steps_bind; [apply _ | frame | intros _].
  apply steps_bind; [apply _ | frame | intros file_bytes]. cbv zeta.
  remember (Py.lower (path_suffix file_path)) as suffix eqn:Esuffix. clear Esuffix.
  destruct (String.eqb_spec suffix ".pdf") as [->|_].
  { pose proof (fun text =>
      keeps_described_ingest_source_text ok s (path_name file_path) "pdf" text Hpdf).
    change (Py.remove_dots ".pdf") with "pdf". frame. }
  destruct (String.eqb_spec suffix ".docx") as [->|_].
  { pose proof (fun text =>
      keeps_described_ingest_source_text ok s (path_name file_path) "docx" text Hdocx).
    change (Py.remove_dots ".docx") with "docx". frame. }
  destruct (String.eqb_spec suffix ".txt") as [->|_].
  { pose proof (fun text =>
      keeps_described_ingest_source_text ok s (path_name file_path) "txt" text Htxt).
    change (Py.remove_dots ".txt") with "txt". frame. }
  apply steps_raise_bind, _.
Qed.

Lemma keeps_described_clear_db_action s : steps (keeps_described ok) (clear_db_action s).
Proof. unfold clear_db_action. frame. Qed.

End DescribedEntryPoints.

Section DescribedTheorems.
Context `{Tokenizer} `{Services}.

Lemma perform_keeps_described_any (s : string) (op : operation) (w : world) :
  keeps_described (fun _ => True) w (perform s op w).
Proof.
  destruct op; simpl.
  - by apply keeps_described_ingest_source_text.
  - apply same_records_keeps_described, same_records_list_sources.
  - apply keeps_described_clear_database.
  - apply same_records_keeps_described, same_records_answer_question.
  - by apply keeps_described_ingest_website.
  - by apply keeps_described_ingest_youtube.
  - by apply keeps_described_ingest_uploaded_file.
  - apply keeps_described_sources_markdown.
  - apply keeps_described_clear_db_action.
  - apply same_records_keeps_described, same_records_ask_question.
Qed.

Lemma perform_keeps_described_ui (s : string) (op : operation) (w : world) :
  is_ui_operation op = true ->
  keeps_described (fun t => In t SOURCE_TYPES) w (perform s op w).
Proof.
  destruct op; simpl; intros Hop; try done.
  - apply keeps_described_ingest_website. simpl. tauto.
  - apply keeps_described_ingest_youtube. simpl. tauto.
  - apply keeps_described_ingest_uploaded_file; simpl; tauto.
  - apply keeps_described_sources_markdown.
  - apply keeps_described_clear_db_action.
  - apply same_records_keeps_described, same_records_ask_question.
Qed.

(** Property X12.
    In every world that the operations reach from the empty store, the
    metadata of every record is a dict that binds [source] and
    [source_type] to strings and [chunk_index] to an integer that is not
    negative, and binds no other key.  So the listing labels the record
    [source (source_type)] and an answer cites it as
    [[k] source (source_type)]: the fall-backs ("None", "unknown source",
    "unknown") never show. *)
Theorem reachable_records_described
    (ops : list (string * operation)) (name : string) (r : record) :
  In r (Chroma.records name (perform_all ops empty_world)) ->
  exists meta source_name source_type idx,
    rec_metadata r = Some meta /\
    meta !! "source" = Some (MStr source_name) /\
    meta !! "source_type" = Some (MStr source_type) /\
    meta !! "chunk_index" = Some (MInt idx) /\
    (forall key, key <> "source" -> key <> "source_type" -> key <> "chunk_index" ->
       meta !! key = None) /\
    0 <= idx /\
    source_label <$> rec_metadata r
    = Some (source_name +:+ " (" +:+ source_type +:+ ")") /\
    forall k, citation_label k (rec_metadata r)
              = "[" +:+ Py.str_of_int k +:+ "] " +:+ source_name
                +:+ " (" +:+ source_type +:+ ")".
Proof.
  assert (forall w, all_described (fun _ => True) w ->
            all_described (fun _ => True) (perform_all ops w)) as Hgen.
  { induction ops as [|[s op] ops IH]; intros w Hw; [done|].
    unfold perform_all in *. simpl. apply IH. by apply perform_keeps_described_any. }
  intros Hin. destruct (Hgen empty_world) with (name := name) (r := r)
    as (source_name & source_type & idx & Hmeta & _ & Hidx); [by intros ? ? [] | done |].
  exists (chunk_metadata source_name source_type idx), source_name, source_type, idx.
  rewrite Hmeta.
  destruct (chunk_metadata_fields source_name source_type idx) as (H1 & H2 & H3 & H4).
  repeat split; done.
Qed.

(** Property X13.
    When only the operations of the interface run, the metadata of every
    stored record binds [source_type] to one of the strings [web],
    [youtube], [pdf], [docx], [txt]. *)
Theorem reachable_source_types
    (ops : list (string * operation)) (name : string) (r : record) :
  Forall (fun so => is_ui_operation so.2 = true) ops ->
  In r (Chroma.records name (perform_all ops empty_world)) ->
  exists meta source_type,
    rec_metadata r = Some meta /\
    meta !! "source_type" = Some (MStr source_type) /\
    In source_type SOURCE_TYPES.
Proof.
  intros Hops.
  assert (forall w, all_described (fun t => In t SOURCE_TYPES) w ->
            all_described (fun t => In t SOURCE_TYPES) (perform_all ops w)) as Hgen.
  { induction Hops as [|[s op] ops Hop _ IH]; intros w Hw; [done|].
    unfold perform_all in *. simpl. apply IH. by apply perform_keeps_described_ui. }
  intros Hin. destruct (Hgen empty_world) with (name := name) (r := r)
    as (source_name & source_type & idx & Hmeta & Hok & _); [by intros ? ? [] | done |].
  exists (chunk_metadata source_name source_type idx), source_type.
  split; [done|]. split; [|done].
  apply (chunk_metadata_fields source_name source_type idx).
Qed.

End DescribedTheorems.

Lemma reachable_records_described_witness :
  let r := Build_record "doc_0" "Hello world" [1%Q; 0%Q]
             (Some (chunk_metadata "http://a" "web" 0)) in
  exists meta source_name source_type idx,
    rec_metadata r = Some meta /\
    meta !! "source" = Some (MStr source_name) /\
    meta !! "source_type" = Some (MStr source_type) /\
    meta !! "chunk_index" = Some (MInt idx) /\ 0 <= idx.
Proof.
  intros r.
  destruct (@reachable_records_described Demo.char_tokenizer Demo.services
              [("s1", IngestWebsite "http://a")] (collection_name_of "s1") r)
    as (meta & source_name & source_type & idx & Hmeta & H1 & H2 & H3 & _ & Hidx & _).
  - vm_compute. left. reflexivity.
  - exists meta, source_name, source_type, idx. repeat split; assumption.
Defined.

Lemma reachable_source_types_witness :
  let r := Build_record "doc_0" "Hello world" [1%Q; 0%Q]
             (Some (chunk_metadata "http://a" "web" 0)) in
  exists meta source_type,
    rec_metadata r = Some meta /\
    meta !! "source_type" = Some (MStr source_type) /\
    In source_type SOURCE_TYPES.
Proof.
  intros r.
  apply (@reachable_source_types Demo.char_tokenizer Demo.services
           [("s1", IngestWebsite "http://a"); ("s1", AskQuestion "Why?")]
           (collection_name_of "s1") r).
  - repeat constructor.
  - vm_compute. left. reflexivity.
Defined.

(** ** Edge cases of a question and of an upload *)

Section QuestionEdges.
Context `{Services}.

(** Property X14.
    When the embedding service answers the question with an empty list,
    taking its first vector fails: [answer_question] raises the
    [IndexError], after the one embedding request and without any request
    to the chat service, and [ask_question] turns it into the failure
    status. *)
Theorem answer_question_no_embedding
    (session_id question : string) (top_k : Z) (w : world) :
  session_count session_id w <> 0 ->
  openai_new = inr tt ->
  embeddings_create (calls w) EMBEDDING_MODEL [question] = inr [] ->
  let w' := log_call (EmbeddingsCreate EMBEDDING_MODEL [question]) w in
  answer_question session_id question top_k w
  = (Raise (IndexError "list index out of range"), w') /\
  (Py.strip question <> "" ->
   ask_question session_id question w
   = (Return (FAIL_MARK +:+ " Question answering failed: list index out of range", ""), w')).
Proof.
  intros Hcount Hclient Hembed w'. unfold session_count in Hcount.
  assert (Chroma.records (collection_name_of session_id) w <> []) as Hne.
  { intros E. apply Hcount. by rewrite E. }
  assert (forall k, answer_question session_id question k w
                    = (Raise (IndexError "list index out of range"), w')) as Hrun.
  { intros k. unfold answer_question.
    rewrite bind_run, get_chroma_collection_run, (ensure_existing _ _ Hne).
    rewrite bind_run, count_run.
    destruct (Z.eqb_spec (Py.len (Chroma.records (collection_name_of session_id) w)) 0)
      as [E|_]; [done|].
    rewrite bind_run, get_openai_client_run, Hclient.
    by rewrite bind_run, embed_texts_run, Hembed. }
  split; [apply Hrun|].
  intros Hq. unfold ask_question. rewrite (truthy_true _ Hq). cbn [negb].
  unfold try_except. by rewrite Hrun.
Qed.

End QuestionEdges.

Lemma answer_question_no_embedding_witness :
  @answer_question (with_embeddings Demo.services (fun _ _ _ => inr []))
    "s1" "Why?" 4 Demo.scenario_world
  = (Raise (IndexError "list index out of range"),
     log_call (EmbeddingsCreate "text-embedding-3-small" ["Why?"]) Demo.scenario_world).
Proof.
  refine (proj1 (@answer_question_no_embedding
                   (with_embeddings Demo.services (fun _ _ _ => inr []))
                   "s1" "Why?" 4 Demo.scenario_world _ _ _)).
  - vm_compute. discriminate.
  - reflexivity.
  - reflexivity.
Defined.

Section UploadEdges.
Context `{Tokenizer} `{Services}.

(** Property X15.
    An uploaded file whose suffix, in lower case, is none of [.pdf],
    [.docx], [.txt] is refused after it was read: the status is the failure
    marker with the message of the unsupported type, nothing is ingested
    and no request goes to the embedding service. *)
Theorem ingest_uploaded_file_unsupported
    (session_id file_path file_bytes : string) (w : world) :
  read_bytes (calls w) file_path = inr file_bytes ->
  ~ In (Py.lower (path_suffix file_path)) [".pdf"; ".docx"; ".txt"] ->
  exists md w',
    ingest_uploaded_file session_id (Some file_path) w
    = (Return (FAIL_MARK +:+ " File ingest failed: "
               +:+ "Unsupported file type. Use PDF, DOCX, or TXT.", md), w') /\
    same_records w w' /\
    calls w' = calls w ++ [Extract "file" file_path].
Proof.
  intros Hread Hsuffix. unfold ingest_uploaded_file, try_except.
  rewrite bind_run. cbn [get_world]. unfold mbind at 1.
  rewrite bind_run. cbn [modify_world].
  rewrite bind_run, lift_result_run, Hread. cbv zeta.
  destruct (String.eqb_spec (Py.lower (path_suffix file_path)) ".pdf") as [E|_].
  { exfalso. apply Hsuffix. rewrite E. simpl. tauto. }
  destruct (String.eqb_spec (Py.lower (path_suffix file_path)) ".docx") as [E|_].
  { exfalso. apply Hsuffix. rewrite E. simpl. tauto. }
  destruct (String.eqb_spec (Py.lower (path_suffix file_path)) ".txt") as [E|_].
  { exfalso. apply Hsuffix. rewrite E. simpl. tauto. }
  rewrite bind_run. cbn [raise]. rewrite bind_run.
  destruct (sources_markdown_run session_id (log_call (Extract "file" file_path) w))
    as [md ->].
  exists md. eexists. split; [reflexivity|]. split.
  - intros name. by rewrite records_ensure.
  - by rewrite calls_ensure.
Qed.

End UploadEdges.

Lemma ingest_uploaded_file_unsupported_witness :
  exists md w',
    @ingest_uploaded_file Demo.char_tokenizer (with_suffix Demo.services ".CSV")
      "s1" (Some "table.CSV") Demo.scenario_world
    = (Return (FAIL_MARK +:+ " File ingest failed: "
               +:+ "Unsupported file type. Use PDF, DOCX, or TXT.", md), w') /\
    same_records Demo.scenario_world w' /\
    calls w' = calls Demo.scenario_world ++ [Extract "file" "table.CSV"].
Proof.
  apply (@ingest_uploaded_file_unsupported Demo.char_tokenizer
           (with_suffix Demo.services ".CSV") "s1" "table.CSV" "file text").
  - reflexivity.
  - vm_compute. intros [E|[E|[E|[]]]]; discriminate.
Defined.

(** ** The text extractors *)

Lemma newline_cons (s : string) : newline +:+ s = String (ascii_of_nat 10) s.
Proof. reflexivity. Qed.

Lemma newline_ascii : (N_of_ascii (ascii_of_nat 10) < 128)%N.
Proof. reflexivity. Qed.

Lemma newline_whitespace : whitespace_only newline.
Proof. apply strip_whitespace_only. reflexivity. Qed.

Lemma trimmed_nil : trimmed "".
Proof. apply (strip_trimmed ""). Qed.

Lemma whitespace_only_tail (c : ascii) (s : string) :
  (N_of_ascii c < 128)%N -> whitespace_only (String c s) -> whitespace_only s.
Proof.
  intros Hc Hws. inversion Hws as [|sp r Hsp Hr E].
  destruct sp as [|c' sp]; [destruct (table_ok_nonempty_in _ "" WHITESPACE_ok Hsp eq_refl)|].
  simpl in E. injection E as -> <-. destruct sp as [|d sp]; [done|]. exfalso.
  assert (String d sp <> "") as Hd by done.
  pose proof (table_ok_high _ WHITESPACE_ok _ "" c (String d sp) Hsp eq_refl
                (or_intror Hd)). lia.
Qed.

(** Lines that are not empty and neither begin nor end with white space
    make such a text. *)
Lemma join_trimmed (parts : list string) :
  parts <> [] ->
  List.Forall (fun p => p <> "" /\ trimmed p) parts ->
  Py.join newline parts <> "" /\ trimmed (Py.join newline parts).
Proof.
  intros Hne Hparts. induction Hparts as [|p parts (Hp & Htp) Hparts IH]; [done|].
  destruct parts as [|q parts]; [done|].
  destruct IH as (Hj & Htj); [done|].
  change (Py.join newline (p :: q :: parts))
    with (p +:+ newline +:+ Py.join newline (q :: parts)).
  rewrite newline_cons. split; [by destruct p|].
  intros sp rest Hsp. split.
  - apply (no_prefix_across p _ _ newline_ascii Hp); [|done].
    intros sp' r Hsp'. apply (proj1 (Htp sp' r Hsp')).
  - apply (no_suffix_across p _ _ newline_ascii Hj); [|done].
    intros sp' r Hsp'. apply (proj2 (Htj sp' r Hsp')).
Qed.

(** The lines of a blank text are blank, and blank lines make a blank
    text. *)
Lemma join_whitespace_only (parts : list string) :
  whitespace_only (Py.join newline parts) <-> forall p, In p parts -> whitespace_only p.
Proof.
  induction parts as [|p parts IH].
  - split; [done|]. intros _. constructor.
  - destruct parts as [|q parts].
    + simpl. split; [by intros Hp p' [<-|[]] | intros Hall; apply Hall; by left].
    + change (Py.join newline (p :: q :: parts))
        with (p +:+ newline +:+ Py.join newline (q :: parts)).
      rewrite newline_cons. split.
      * intros Hws.
        apply (whitespace_only_split_ascii _ _ _ newline_ascii) in Hws as [Hp Hrest].
        apply (whitespace_only_tail _ _ newline_ascii) in Hrest.
        intros p' [<-|Hin]; [done|]. by apply IH.
      * intros Hall. apply made_of_app; [apply Hall; by left|].
        rewrite <- newline_cons. apply made_of_app; [apply newline_whitespace|].
        apply IH. intros p' Hp'. apply Hall. by right.
Qed.

Lemma filter_nonblank_nil (parts : list string) :
  List.filter (fun part => Py.truthy (Py.strip part)) parts = []
  <-> forall p, In p parts -> Py.strip p = "".
Proof.
  induction parts as [|p parts IH]; simpl; [by split|].
  destruct (Py.strip p) eqn:Ep; simpl.
  - rewrite IH. split.
    + intros Hall q [<-|Hq]; [done | by apply Hall].
    + intros Hall q Hq. apply Hall. by right.
  - split; [done|]. intros Hall. specialize (Hall p (or_introl eq_refl)). congruence.
Qed.

Section CleanedText.
Context `{Parsers}.

Lemma join_stripped_shape (parts : list string) :
  Py.strip (Loaders.join_stripped parts) = Loaders.join_stripped parts /\
  trimmed (Loaders.join_stripped parts) /\
  (Loaders.join_stripped parts = "" <-> forall p, In p parts -> Py.strip p = "").
Proof.
  unfold Loaders.join_stripped.
  set (kept := List.filter (fun part => Py.truthy (Py.strip part)) parts).
  assert (List.Forall (fun p => p <> "" /\ trimmed p) (map Py.strip kept)) as Htight.
  { apply List.Forall_forall. intros q Hq. apply in_map_iff in Hq as (p & <- & Hp).
    apply filter_In in Hp as [_ Hp].
    split; [by destruct (Py.strip p) | apply strip_trimmed]. }
  destruct kept as [|p kept'] eqn:Ek.
  - split; [done|]. split; [apply trimmed_nil|]. split; [|done].
    intros _. by apply filter_nonblank_nil.
  - destruct (join_trimmed (map Py.strip (p :: kept'))) as (Hne & Ht); [done | done |].
    split; [by apply trimmed_strip|]. split; [done|].
    split; [done|]. intros Hall. apply filter_nonblank_nil in Hall.
    fold kept in Hall. congruence.
Qed.

(** Property X16.
    The texts of the DOCX, PDF and web loaders neither begin nor end with
    a white-space character (ASCII or not), so that stripping them changes
    nothing, and they are empty exactly when every paragraph, every page or
    every line of what the library extracted is blank (a page without text
    counts as blank). *)
Theorem loaders_cleaned_text :
  (forall file_bytes texts,
     docx_paragraphs file_bytes = inr texts ->
     exists text,
       Loaders.load_docx_text file_bytes = inr text /\
       Py.strip text = text /\ trimmed text /\
       (text = "" <-> forall p, In p texts -> Py.strip p = "")) /\
  (forall file_bytes extracted,
     pdf_pages file_bytes = inr extracted ->
     exists text,
       Loaders.load_pdf_text file_bytes = inr text /\
       Py.strip text = text /\ trimmed text /\
       (text = "" <->
        forall page, In page extracted -> Py.strip (Loaders.text_or_empty page) = "")) /\
  (forall history url timeout visible,
     page_visible_text history url timeout = inr visible ->
     exists text,
       Loaders.load_webpage_text history url timeout = inr text /\
       Py.strip text = text /\ trimmed text /\
       (text = "" <->
        forall line, In line (PyText.splitlines visible) -> Py.strip line = "")).
Proof.
  split; [|split].
  - intros file_bytes texts Hdoc. unfold Loaders.load_docx_text. rewrite Hdoc.
    eexists. split; [reflexivity|]. apply join_stripped_shape.
  - intros file_bytes extracted Hpdf. unfold Loaders.load_pdf_text. rewrite Hpdf.
    eexists. split; [reflexivity|]. cbv zeta.
    destruct (join_stripped_shape (map Loaders.text_or_empty extracted))
      as (Hs & Ht & Hnil).
    split; [done|]. split; [done|]. rewrite Hnil. split.
    + intros Hall page Hpage. apply Hall. by apply in_map.
    + intros Hall p Hp. apply in_map_iff in Hp as (page & <- & Hpage). by apply Hall.
  - intros history url timeout visible Hpage. unfold Loaders.load_webpage_text.
    rewrite Hpage. eexists. split; [reflexivity|]. cbv zeta.
    apply (join_stripped_shape (PyText.splitlines visible)).
Qed.

End CleanedText.

Lemma loaders_cleaned_text_witness :
  exists text,
    @Loaders.load_docx_text demo_parsers "bytes" = inr text /\ Py.strip text = text.
Proof.
  destruct (proj1 (@loaders_cleaned_text demo_parsers) "bytes" ["  Title "; "   "; "Body"])
    as (text & Hrun & Hstrip & _).
  - reflexivity.
  - exists text. split; [exact Hrun | exact Hstrip].
Defined.

Section Transcript.
Context `{Parsers}.

(** Property X17.
    The text that the transcript loader returns is blank (empty or white
    space only, ASCII or not) exactly when every item that it keeps, the
    items whose text is there and not empty, is blank. *)
Theorem load_youtube_transcript_blank_iff
    (history : list call) (url video_id : string) (items : list (option string)) :
  Loaders._extract_video_id url = inr video_id ->
  get_transcript history video_id = inr items ->
  exists text,
    Loaders.load_youtube_transcript history url = inr text /\
    (whitespace_only text
     <-> forall s, In (Some s) items -> s <> "" -> whitespace_only s).
Proof.
  intros Hid Hitems. unfold Loaders.load_youtube_transcript. rewrite Hid, Hitems.
  eexists. split; [reflexivity|].
  assert (forall s, In s (Loaders.kept_texts items) <-> In (Some s) items /\ s <> "")
    as Hkept.
  { intros s. unfold Loaders.kept_texts. rewrite <- !list_elem_of_In, list_elem_of_omap.
    split.
    - intros ([s'|] & Hin & Hs); [|done]. destruct s'; simpl in Hs; [done|].
      injection Hs as <-. done.
    - intros [Hin Hs]. exists (Some s). split; [done|]. by destruct s. }
  rewrite join_whitespace_only. split.
  - intros Hblank s Hin Hs. apply strip_whitespace_only.
    apply whitespace_only_trimmed; [|apply strip_trimmed].
    apply Hblank, in_map, Hkept. done.
  - intros Hall p Hp. apply in_map_iff in Hp as (s & <- & Hs).
    apply Hkept in Hs as [Hin Hs]. apply strip_whitespace_only.
    rewrite strip_idemp. apply strip_whitespace_only. by apply Hall.
Qed.

End Transcript.

Lemma load_youtube_transcript_blank_iff_witness :
  exists text,
    @Loaders.load_youtube_transcript demo_parsers [] "https://youtu.be//dQw4w9WgXcQ"
    = inr text.
Proof.
  destruct (@load_youtube_transcript_blank_iff demo_parsers []
              "https://youtu.be//dQw4w9WgXcQ" "dQw4w9WgXcQ"
              [Some " hello "; None; Some ""; Some "  "; Some "world"])
    as (text & Hrun & _).
  - reflexivity.
  - reflexivity.
  - exists text. exact Hrun.
Defined.

(** ** The video ID of a YouTube URL *)

Lemma id_run_sound (k : nat) (s m : string) :
  PyText.id_run k s = Some m ->
  String.length m = k /\
  (forall c, In c (list_ascii_of_string m) -> PyText.is_id_char c = true) /\
  exists post, s = m +:+ post.
Proof.
  revert s m. induction k as [|k IH]; intros s m; simpl.
  - intros [= <-]. split; [done|]. split; [by intros c []|]. by exists s.
  - destruct s as [|c s]; [done|]. destruct (PyText.is_id_char c) eqn:Ec; [|done].
    destruct (PyText.id_run k s) as [r|] eqn:Er; [|done]. intros [= <-].
    destruct (IH s r Er) as (Hlen & Hclass & post & ->).
    split; [simpl; by rewrite Hlen|]. split.
    + intros c' [<-|Hc']; [done | by apply Hclass].
    + by exists post.
Qed.

Lemma id_run_complete (k : nat) (m post : string) :
  String.length m = k ->
  (forall c, In c (list_ascii_of_string m) -> PyText.is_id_char c = true) ->
  PyText.id_run k (m +:+ post) = Some m.
Proof.
  revert m. induction k as [|k IH]; intros m Hlen Hclass.
  - by destruct m.
  - destruct m as [|c m]; [done|]. simpl in *.
    rewrite (Hclass c) by (by left). rewrite IH; [done | lia |].
    intros c' Hc'. apply Hclass. by right.
Qed.

Lemma search_id_unfold (s : string) :
  PyText.search_id s
  = match PyText.id_run 11 s with
    | Some m => Some m
    | None => match s with String _ s' => PyText.search_id s' | EmptyString => None end
    end.
Proof. by destruct s. Qed.

Lemma search_id_sound (s m : string) :
  PyText.search_id s = Some m ->
  String.length m = 11%nat /\
  (forall c, In c (list_ascii_of_string m) -> PyText.is_id_char c = true) /\
  exists pre post, s = pre +:+ m +:+ post.
Proof.
  induction s as [|c s IH]; rewrite search_id_unfold.
  - destruct (PyText.id_run 11 "") as [m'|] eqn:Er; [|done]. intros [= ->].
    destruct (id_run_sound _ _ _ Er) as (Hlen & Hclass & post & E).
    split; [done|]. split; [done|]. by exists "", post.
  - destruct (PyText.id_run 11 (String c s)) as [m'|] eqn:Er.
    + intros [= ->]. destruct (id_run_sound _ _ _ Er) as (Hlen & Hclass & post & E).
      split; [done|]. split; [done|]. by exists "", post.
    + intros Hs. destruct (IH Hs) as (Hlen & Hclass & pre & post & ->).
      split; [done|]. split; [done|]. by exists (String c pre), post.
Qed.

Lemma forallb_false_exists {A} (f : A -> bool) (l : list A) :
  forallb f l = false -> exists x, In x l /\ f x = false.
Proof.
  induction l as [|x l IH]; simpl; [done|].
  destruct (f x) eqn:Ex; simpl.
  - intros Hl. destruct (IH Hl) as (y & Hy & Hfy). exists y. split; [by right | done].
  - intros _. exists x. split; [by left | done].
Qed.

Lemma search_id_none (s : string) :
  PyText.search_id s = None ->
  forall pre m post,
    s = pre +:+ m +:+ post -> String.length m = 11%nat ->
    exists c, In c (list_ascii_of_string m) /\ PyText.is_id_char c = false.
Proof.
  intros Hnone pre. revert s Hnone.
  induction pre as [|x pre IH]; intros s Hnone m post -> Hlen.
  - rewrite search_id_unfold in Hnone.
    destruct (PyText.id_run 11 ("" +:+ m +:+ post)) as [m'|] eqn:Er; [done|].
    destruct (forallb PyText.is_id_char (list_ascii_of_string m)) eqn:Hall.
    + assert (PyText.id_run 11 (m +:+ post) = Some m) as Hrun.
      { apply id_run_complete; [done|].
        intros c Hc. by apply (proj1 (forallb_forall _ _) Hall). }
      change ("" +:+ m +:+ post) with (m +:+ post) in Er. congruence.
    + by apply forallb_false_exists.
  - rewrite search_id_unfold in Hnone.
    destruct (PyText.id_run 11 _); [done|].
    change (String x pre +:+ m +:+ post) with (String x (pre +:+ m +:+ post)) in Hnone.
    by apply (IH _ Hnone m post).
Qed.

Lemma prefix_nil (s : string) : String.prefix "" s = true.
Proof. by destruct s. Qed.

Lemma rev_app_chars (s acc : string) (c : ascii) :
  In c (list_ascii_of_string (String.rev_app s acc))
  <-> In c (list_ascii_of_string s) \/ In c (list_ascii_of_string acc).
Proof.
  revert acc. induction s as [|x s IH]; intros acc; simpl; [tauto|].
  rewrite IH. simpl. tauto.
Qed.

Lemma rev_chars (s : string) (c : ascii) :
  In c (list_ascii_of_string (String.rev s)) <-> In c (list_ascii_of_string s).
Proof. unfold String.rev. rewrite rev_app_chars. simpl. tauto. Qed.

Lemma prefix_cons (a b : ascii) (s1 s2 : string) :
  String.prefix (String a s1) (String b s2)
  = if ascii_dec a b then String.prefix s1 s2 else false.
Proof. reflexivity. Qed.

Lemma split_go_slash_cons (c : ascii) (s cur : string) :
  PyText.split_go "/" (String c s) 0 cur
  = if Ascii.eqb c "/"
    then String.rev cur :: PyText.split_go "/" s 0 ""
    else PyText.split_go "/" s 0 (String c cur).
Proof.
  cbn [PyText.split_go]. rewrite prefix_cons, prefix_nil.
  change (String.length "/" - 1)%nat with 0%nat.
  destruct (ascii_dec "/" c) as [<-|Hc]; [done|].
  destruct (Ascii.eqb_spec c "/") as [->|_]; done.
Qed.

Lemma split_slash_first (s cur : string) :
  ~ In "/"%char (list_ascii_of_string cur) ->
  ~ In "/"%char (list_ascii_of_string (PyText.first_item (PyText.split_go "/" s 0 cur))).
Proof.
  revert cur. induction s as [|c s IH]; intros cur Hcur.
  - simpl. by rewrite rev_chars.
  - rewrite split_go_slash_cons. destruct (Ascii.eqb_spec c "/") as [->|Hc].
    + simpl. by rewrite rev_chars.
    + apply IH. simpl. intros [E|Hin]; [by apply Hc | by apply Hcur].
Qed.

Lemma lstrip_char_split (c : ascii) (s : string) :
  exists run,
    s = run +:+ PyText.lstrip_char c s /\
    (forall x, In x (list_ascii_of_string run) -> x = c) /\
    String.prefix (String c "") (PyText.lstrip_char c s) = false.
Proof.
  induction s as [|x s IH]; simpl.
  - exists "". split; [done|]. split; [by intros ? []|done].
  - destruct (Ascii.eqb_spec x c) as [->|Hx].
    + destruct IH as (run & E & Hrun & Hpre). exists (String c run).
      split; [simpl; by rewrite <- E|]. split; [|done].
      intros y [<-|Hy]; [done | by apply Hrun].
    + exists "". split; [done|]. split; [by intros ? []|].
      simpl. destruct (ascii_dec c x) as [E|_]; [by subst | done].
Qed.

Section VideoId.
Context `{Parsers}.

(** Property X18.
    For the host [youtu.be] the ID is the path without its leading
    slashes, whatever is left (nothing, maybe): it never begins with a
    slash.  For a YouTube host and a path that begins with [/shorts/] the
    ID holds no slash. *)
Theorem extract_video_id_host_rules (url : string) (parsed : parsed_url) :
  urlparse url = inr parsed ->
  (Loaders.host_in (url_hostname parsed) ["youtu.be"] = true ->
   exists id slashes,
     Loaders._extract_video_id url = inr id /\
     url_path parsed = slashes +:+ id /\
     (forall x, In x (list_ascii_of_string slashes) -> x = "/"%char) /\
     String.prefix "/" id = false) /\
  (Loaders.host_in (url_hostname parsed) ["youtu.be"] = false ->
   Loaders.host_in (url_hostname parsed) Loaders.YOUTUBE_HOSTS = true ->
   String.prefix "/shorts/" (url_path parsed) = true ->
   exists id,
     Loaders._extract_video_id url = inr id /\
     ~ In "/"%char (list_ascii_of_string id)).
Proof.
  intros Hparse. unfold Loaders._extract_video_id. rewrite Hparse. split.
  - intros Hhost. rewrite Hhost.
    destruct (lstrip_char_split "/" (url_path parsed)) as (run & E & Hrun & Hpre).
    by exists (PyText.lstrip_char "/" (url_path parsed)), run.
  - intros Hbe Hyt Hshorts. rewrite Hbe, Hyt, Hshorts. cbv zeta.
    destruct (String.eqb_spec (url_path parsed) "/watch") as [E|_].
    { rewrite E in Hshorts. done. }
    cbn [andb]. eexists. split; [reflexivity|].
    apply (split_slash_first _ ""). simpl. tauto.
Qed.

(** Property X19.
    When no rule of a host applies (the host is not a YouTube host, or the
    path is neither [/watch] nor one of [/shorts/]), the ID is the
    leftmost run of 11 characters of [[a-zA-Z0-9_-]] anywhere in the URL;
    the function raises, the [ValueError] of a missing ID, exactly when the
    URL holds no such run. *)
Theorem extract_video_id_fallback (url : string) (parsed : parsed_url) :
  urlparse url = inr parsed ->
  Loaders.host_in (url_hostname parsed) ["youtu.be"] = false ->
  Loaders.host_in (url_hostname parsed) Loaders.YOUTUBE_HOSTS = false \/
  (url_path parsed <> "/watch" /\ String.prefix "/shorts/" (url_path parsed) = false) ->
  (exists id pre post,
     Loaders._extract_video_id url = inr id /\
     String.length id = 11%nat /\
     (forall c, In c (list_ascii_of_string id) -> PyText.is_id_char c = true) /\
     url = pre +:+ id +:+ post) \/
  (Loaders._extract_video_id url = inl (ValueError Loaders.NO_VIDEO_ID) /\
   forall pre m post,
     url = pre +:+ m +:+ post -> String.length m = 11%nat ->
     exists c, In c (list_ascii_of_string m) /\ PyText.is_id_char c = false).
Proof.
  intros Hparse Hbe Hrules.
  assert (Loaders._extract_video_id url
          = match PyText.search_id url with
            | Some m => inr m
            | None => inl (ValueError Loaders.NO_VIDEO_ID)
            end) as ->.
  { unfold Loaders._extract_video_id. rewrite Hparse, Hbe. cbv zeta.
    destruct Hrules as [Hyt|[Hwatch Hshorts]].
    - by rewrite Hyt.
    - destruct (String.eqb_spec (url_path parsed) "/watch") as [E|_]; [done|].
      rewrite Hshorts, !andb_false_r. done. }
  destruct (PyText.search_id url) as [m|] eqn:Es.
  - left. destruct (search_id_sound _ _ Es) as (Hlen & Hclass & pre & post & E).
    by exists m, pre, post.
  - right. split; [done|]. by apply search_id_none.
Qed.

End VideoId.

Lemma extract_video_id_host_rules_witness :
  exists id,
    @Loaders._extract_video_id demo_parsers "https://www.youtube.com/shorts/abc123/extra"
    = inr id /\ ~ In "/"%char (list_ascii_of_string id).
Proof.
  refine (proj2 (@extract_video_id_host_rules demo_parsers
                   "https://www.youtube.com/shorts/abc123/extra"
                   {| url_hostname := Some "www.youtube.com";
                      url_path := "/shorts/abc123/extra"; url_query := "" |} _) _ _ _);
    reflexivity.
Defined.

Lemma extract_video_id_fallback_witness :
  (exists id pre post,
     @Loaders._extract_video_id demo_parsers "see dQw4w9WgXcQ_rest" = inr id /\
     String.length id = 11%nat /\
     (forall c, In c (list_ascii_of_string id) -> PyText.is_id_char c = true) /\
     "see dQw4w9WgXcQ_rest" = pre +:+ id +:+ post) \/
  (@Loaders._extract_video_id demo_parsers "see dQw4w9WgXcQ_rest"
   = inl (ValueError Loaders.NO_VIDEO_ID) /\
   forall pre m post,
     "see dQw4w9WgXcQ_rest" = pre +:+ m +:+ post -> String.length m = 11%nat ->
     exists c, In c (list_ascii_of_string m) /\ PyText.is_id_char c = false).
Proof.
  apply (@extract_video_id_fallback demo_parsers "see dQw4w9WgXcQ_rest"
           {| url_hostname := None; url_path := "see dQw4w9WgXcQ_rest"; url_query := "" |}).
  - reflexivity.
  - reflexivity.
  - left. reflexivity.
Defined.

(** ** What the interface shows *)

Section InterfaceTexts.
Context `{Tokenizer} `{Services}.

Lemma sources_markdown_empty (session_id : string) (w : world) :
  session_count session_id w = 0 ->
  (sources_markdown session_id w).1 = Return "No sources ingested yet.".
Proof.
  unfold session_count. intros Hcount. unfold sources_markdown.
  rewrite bind_run, list_sources_run. cbv zeta. by rewrite Hcount.
Qed.

(** Property X20.
    The page or the transcript of a URL that cannot be loaded, or that is
    blank once loaded, is reported by the failure status, with the message
    of the loader or the message of the empty content; nothing is ingested
    and nothing is sent to the embedding service. *)
Theorem url_ingestion_without_text (session_id url : string) (w : world) :
  Py.strip url <> "" ->
  (forall loaded,
     load_webpage_text (calls w) url = loaded ->
     match loaded with
     | inl _ => True
     | inr text => whitespace_only text
     end ->
     exists md w',
       ingest_website session_id url w
       = (Return (FAIL_MARK +:+ " Website ingest failed: "
                  +:+ match loaded with
                      | inl e => exn_message e
                      | inr _ => "Loaded content is empty and cannot be ingested."
                      end, md), w') /\
       same_records w w' /\ calls w' = calls w ++ [Extract "web" url]) /\
  (forall loaded,
     load_youtube_transcript (calls w) url = loaded ->
     match loaded with
     | inl _ => True
     | inr text => whitespace_only text
     end ->
     exists md w',
       ingest_youtube session_id url w
       = (Return (FAIL_MARK +:+ " YouTube ingest failed: "
                  +:+ match loaded with
                      | inl e => exn_message e
                      | inr _ => "Loaded content is empty and cannot be ingested."
                      end, md), w') /\
       same_records w w' /\ calls w' = calls w ++ [Extract "youtube" url]).
Proof.
  intros Hurl. split.
  - intros loaded Hload Hblank. unfold ingest_website.
    rewrite (truthy_true _ Hurl). cbn [negb]. unfold try_except.
    rewrite bind_run. cbn [get_world]. unfold mbind at 1.
    rewrite bind_run. cbn [modify_world].
    rewrite bind_run, lift_result_run, Hload.
    set (w1 := log_call (Extract "web" url) w).
    destruct (sources_markdown_run session_id w1) as [md Hmd].
    destruct loaded as [e|text].
    + rewrite bind_run, Hmd. exists md. eexists. split; [reflexivity|]. split.
      * intros name. by rewrite records_ensure.
      * by rewrite calls_ensure.
    + rewrite bind_run. unfold ingest_source_text.
      rewrite (proj1 (strip_whitespace_only text) Hblank). cbn [Py.truthy negb raise].
      rewrite bind_run, Hmd. exists md. eexists. split; [reflexivity|]. split.
      * intros name. by rewrite records_ensure.
      * by rewrite calls_ensure.
  - intros loaded Hload Hblank. unfold ingest_youtube.
    rewrite (truthy_true _ Hurl). cbn [negb]. unfold try_except.
    rewrite bind_run. cbn [get_world]. unfold mbind at 1.
    rewrite bind_run. cbn [modify_world].
    rewrite bind_run, lift_result_run, Hload.
    set (w1 := log_call (Extract "youtube" url) w).
    destruct (sources_markdown_run session_id w1) as [md Hmd].
    destruct loaded as [e|text].
    + rewrite bind_run, Hmd. exists md. eexists. split; [reflexivity|]. split.
      * intros name. by rewrite records_ensure.
      * by rewrite calls_ensure.
    + rewrite bind_run. unfold ingest_source_text.
      rewrite (proj1 (strip_whitespace_only text) Hblank). cbn [Py.truthy negb raise].
      rewrite bind_run, Hmd. exists md. eexists. split; [reflexivity|]. split.
      * intros name. by rewrite records_ensure.
      * by rewrite calls_ensure.
Qed.

(** Property X21.
    The clear button runs [clear_db_action] and then [sources_markdown].
    When the first returns the success status, the session holds no record:
    the second returns the text "No sources ingested yet.", and a question
    asked next is answered by the failure status of an empty knowledge
    base.  Clearing sends no request. *)
Theorem after_clear_db_action
    (session_id question status : string) (w w1 : world) :
  clear_db_action session_id w = (Return status, w1) ->
  status = OK_MARK +:+ " Database cleared." ->
  session_count session_id w1 = 0 /\
  (sources_markdown session_id w1).1 = Return "No sources ingested yet." /\
  calls w1 = calls w /\
  (Py.strip question <> "" ->
   (ask_question session_id question w1).1
   = Return (FAIL_MARK +:+ " Question answering failed: "
             +:+ "No content has been ingested yet.", "")).
Proof.
  intros Hrun _. unfold clear_db_action, try_except in Hrun.
  rewrite bind_run, clear_database_run in Hrun. injection Hrun as _ <-.
  assert (session_count session_id
            (set_collections (insert (collection_name_of session_id) []) w) = 0) as Hcount.
  { unfold session_count. rewrite records_insert. by destruct (decide _). }
  split; [done|]. split; [by apply sources_markdown_empty|]. split; [done|].
  intros Hquestion. unfold ask_question.
  rewrite (truthy_true _ Hquestion). cbn [negb]. unfold try_except, answer_question.
  rewrite bind_run, get_chroma_collection_run, bind_run, count_run, records_ensure.
  unfold session_count in Hcount. by rewrite Hcount.
Qed.

End InterfaceTexts.

Lemma url_ingestion_without_text_witness :
  exists md w',
    @ingest_youtube Demo.char_tokenizer Demo.services "s1" "https://youtu.be/x"
      Demo.scenario_world
    = (Return (FAIL_MARK +:+ " YouTube ingest failed: Transcripts are disabled.", md), w') /\
    same_records Demo.scenario_world w' /\
    calls w' = calls Demo.scenario_world ++ [Extract "youtube" "https://youtu.be/x"].
Proof.
  refine (proj2 (@url_ingestion_without_text Demo.char_tokenizer Demo.services
                   "s1" "https://youtu.be/x" Demo.scenario_world _)
            (inl (LibraryError "Transcripts are disabled.")) _ _).
  - vm_compute. discriminate.
  - reflexivity.
  - exact I.
Defined.

Lemma after_clear_db_action_witness :
  (sources_markdown "s1" (clear_db_action "s1" Demo.scenario_world).2).1
  = Return "No sources ingested yet.".
Proof.
  refine (proj1 (proj2 (@after_clear_db_action Demo.services
                          "s1" "Why?" _ Demo.scenario_world _ _ _))).
  - vm_compute. reflexivity.
  - reflexivity.
Defined.

(** ** The citations of an answer against the listing of the sources *)

Lemma enumerate_In {A} (k : Z) (l : list A) (item : Z * A) :
  In item (Py.enumerate k l) -> In item.2 l.
Proof.
  revert k. induction l as [|x l IH]; intros k; simpl; [done|].
  intros [<-|Hin]; [by left | right; by apply (IH (k + 1))].
Qed.

Section CitedSources.
Context `{Tokenizer} `{Services}.

Lemma perform_all_described (ops : list (string * operation)) (w : world) :
  all_described (fun _ => True) w ->
  all_described (fun _ => True) (perform_all ops w).
Proof.
  revert w. induction ops as [|[s op] ops IH]; intros w Hw; [done|].
  unfold perform_all in *. simpl. apply IH. by apply perform_keeps_described_any.
Qed.

(** Property X22.
    In a world that the operations reach from the empty store, when the
    similarity search returns records of the session's collection, every
    citation of the answer is [[k] label] for a label that [list_sources]
    lists for the session: an answer cites no source that the listing
    does not show. *)
Theorem citations_name_listed_sources
    (ops : list (string * operation)) (session_id question : string) (top_k : Z)
    (query_embedding : vector) (others : list vector) (rs : list record) :
  let w := perform_all ops empty_world in
  let coll := Chroma.records (collection_name_of session_id) w in
  openai_new = inr tt ->
  embeddings_create (calls w) EMBEDDING_MODEL [question]
    = inr (query_embedding :: others) ->
  nearest coll query_embedding top_k = inr rs ->
  rs <> [] ->
  (forall r, In r rs -> In r coll) ->
  (forall history prompt,
     exists content,
       chat_completions_create history CHAT_MODEL SYSTEM_PROMPT prompt (2 # 10)
       = inr content) ->
  exists answer cited sources w',
    answer_question session_id question top_k w
    = (Return (answer,
               bullet_lines
                 (map (fun item => "[" +:+ Py.str_of_int item.1 +:+ "] " +:+ item.2)
                    (Py.enumerate 1 cited))), w') /\
    length cited = length rs /\
    (list_sources session_id w).1 = Return sources /\
    forall label, In label cited -> In label sources.
Proof.
  intros w coll Hclient Hembed Hquery Hrs Hstored Hchat.
  assert (all_described (fun _ => True) w) as Hdesc.
  { apply perform_all_described. by intros ? ? []. }
  assert (coll <> []) as Hne.
  { destruct rs as [|r rs]; [done|]. intros E.
    specialize (Hstored r (or_introl eq_refl)). by rewrite E in Hstored. }
  set (label_of := fun r : record => default "" (source_label <$> rec_metadata r)).
  assert (forall r, In r rs ->
            exists meta, rec_metadata r = Some meta /\
              forall k, citation_label k (rec_metadata r)
                        = "[" +:+ Py.str_of_int k +:+ "] " +:+ source_label meta) as Hlabel.
  { intros r Hr.
    destruct (Hdesc _ r (Hstored r Hr)) as (source_name & source_type & idx & Hmeta & _).
    exists (chunk_metadata source_name source_type idx). split; [done|].
    intros k. by rewrite Hmeta. }
  set (blocks := map (fun ir : Z * record =>
                        citation_label ir.1 (rec_metadata ir.2) +:+ newline
                        +:+ rec_document ir.2) (Py.enumerate 1 rs)).
  set (prompt := build_prompt question (Py.join (newline +:+ newline) blocks)).
  set (w1 := log_call (EmbeddingsCreate EMBEDDING_MODEL [question]) w).
  destruct (Hchat (calls w1) prompt) as [content Hcontent].
  eexists. exists (map label_of rs).
  exists (sorted (list_to_set (omap (fun meta => source_label <$> meta)
                                 (map rec_metadata coll)))).
  eexists.
  split; [|split; [by rewrite length_map|split]].
  - unfold answer_question.
    rewrite bind_run, get_chroma_collection_run, (ensure_existing _ _ Hne).
    rewrite bind_run, count_run. fold coll.
    destruct (Z.eqb_spec (Py.len coll) 0) as [E|_]; [by apply len_zero_nil in E|].
    fold w. rewrite bind_run, get_openai_client_run, Hclient.
    rewrite bind_run, embed_texts_run, Hembed by done.
    rewrite bind_run, query_run, records_log_call. fold coll. rewrite Hquery.
    cbn [fst snd].
    rewrite (nonempty_true (map rec_document rs)) by (by destruct rs).
    cbn [negb]. rewrite build_context_run, zip_documents_metadatas, enumerate_map.
    rewrite !map_map. cbn [fst snd app].
    fold blocks. fold prompt.
    rewrite bind_run. cbn [get_world]. unfold mbind at 1.
    rewrite bind_run. cbn [modify_world].
    rewrite bind_run, lift_result_run. fold w1. cbn [calls log_call] in Hcontent |- *.
    rewrite Hcontent. unfold bullet_lines.
    rewrite enumerate_map, !map_map.
    assert (map (fun x : Z * record => "- " +:+ citation_label x.1 (rec_metadata x.2))
              (Py.enumerate 1 rs)
            = map (fun x : Z * record =>
                     "- " +:+ "[" +:+ Py.str_of_int (x.1, label_of x.2).1 +:+ "] "
                     +:+ (x.1, label_of x.2).2) (Py.enumerate 1 rs)) as ->.
    { apply map_ext_in. intros [k r] Hin. cbn [fst snd].
      apply enumerate_In in Hin. cbn [snd] in Hin.
      destruct (Hlabel r Hin) as (meta & Hmeta & Heq).
      rewrite Heq. unfold label_of. by rewrite Hmeta. }
    reflexivity.
  - rewrite list_sources_run. cbv zeta. fold w. fold coll. cbn [fst].
    destruct (Z.eqb_spec (Py.len coll) 0) as [E|_]; [by apply len_zero_nil in E|].
    reflexivity.
  - intros label Hin. apply in_map_iff in Hin as (r & <- & Hr).
    rewrite sorted_In. apply labels_of_records.
    destruct (Hlabel r Hr) as (meta & Hmeta & _).
    exists r, meta. split; [by apply Hstored|]. split; [done|].
    unfold label_of. by rewrite Hmeta.
Qed.

End CitedSources.

Lemma citations_name_listed_sources_witness :
  exists answer cited sources w',
    @answer_question Demo.services "s1" "What color is the sky?" 4
      (@perform_all Demo.char_tokenizer Demo.services
         [("s1", Ingest "doc1" "txt" "The sky is blue. Grass is green.")] empty_world)
    = (Return (answer,
               bullet_lines
                 (map (fun item => "[" +:+ Py.str_of_int item.1 +:+ "] " +:+ item.2)
                    (Py.enumerate 1 cited))), w') /\
    length cited = 1%nat /\
    (list_sources "s1"
       (@perform_all Demo.char_tokenizer Demo.services
          [("s1", Ingest "doc1" "txt" "The sky is blue. Grass is green.")] empty_world)).1
    = Return sources /\
    forall label, In label cited -> In label sources.
Proof.
  refine (@citations_name_listed_sources Demo.char_tokenizer Demo.services
            [("s1", Ingest "doc1" "txt" "The sky is blue. Grass is green.")]
            "s1" "What color is the sky?" 4 [1%Q; 0%Q] []
            (Chroma.records (collection_name_of "s1")
               (@perform_all Demo.char_tokenizer Demo.services
                  [("s1", Ingest "doc1" "txt" "The sky is blue. Grass is green.")]
                  empty_world))
            _ _ _ _ _ _).
  - reflexivity.
  - reflexivity.
  - vm_compute. reflexivity.
  - vm_compute. discriminate.
  - intros r Hr. exact Hr.
  - intros history prompt. eexists. reflexivity.
Defined.
